(* ===== verification/_CoqProject ===== *)
-Q . S2P
Prelude.v
JsNum.v
Dom.v
Timeline.v
Preloader.v
Bootstrap.v
Particles.v
FrameLoop.v
NavToggle.v
PageTransition.v
Load.v
ScrollTrigger.v
Hero.v
Lenis.v
Scene.v
Magnetic.v
MobileNav.v
Cursor.v
Viewport.v
Page.v
PointerJs.v
