(* ===== verification/Prelude.v ===== *)
(** * A verification development of the Blind Dragon Studios site scripts

    The repository is the client side of a marketing web site: two
    scripts, [src/script.js] (the "visual effects bootstrapper", 681
    lines) and [src/site.js] (a 41-line navigation toggle).  There is no
    server and no persistent data; what the scripts do is keep a handful
    of small pieces of state (pointer coordinates, an animation clock, a
    few booleans and strings held in DOM attributes and in session
    storage) and update them from browser events and from the
    per-frame callback.  This development models those pieces of state
    and the handlers that change them, as executable Rocq functions, and
    proves what each handler guarantees.

    ** How the program is put together

    [script.js] registers, on [DOMContentLoaded], [initApp skip] where
    [skip] is decided at script evaluation from the session-storage key
    ["visited"] (lines 672-680).  [initApp] calls, in this order,
    [initLenis], [initThreeJS], [initCursor], [initMobileNav],
    [initResizeHandler], [initVisibilityHandler], and then either the four
    page effects ([initScrollAnimations], [initHeroAnimations],
    [initMagneticButtons], [initPageTransitions]) at once, or
    [initPreloader] with a callback that calls those four when the
    preloader timeline completes (lines 649-670).  Every initializer first
    looks for its DOM elements and returns when they are absent.  The
    render loop ([animateThreeJS]) and the cursor loop ([updateCursor])
    reschedule themselves with [requestAnimationFrame] for ever.  [site.js]
    is independent: an IIFE that installs three listeners on the toggle,
    the window and the document.

    ** Files (in dependency order, as [_CoqProject] lists them)

    - [Prelude] (this file): the [home_scope] notation [x ~[k]~> t] for
      the smoothing step [lerp] that every "x += (target - x) * k" line
      of [script.js] is, its iterate [lerp_n] and power [qpow], the
      event-trace runner [run] with the invariant principles
      [run_preserves]/[run_preserves_on], [count_if], the strided-buffer
      lemmas [flat_map_seq_chunk]/[flat_map_seq_length], [Proper]
      instances for [Qeq] rewriting, the [home] hint databases and the
      tactic [qsolve].
    - [JsNum]: JavaScript numbers where they leave [Q]: [Fin q],
      [Infinity], [-Infinity], [NaN], with IEEE's [+], [-], [*], [/]
      (rounding aside) and the smoothing statement [js_lerp]; lemmas on
      when results stay finite and on [NaN] absorbing.
    - [Dom]: which elements the page has (spec section 6), read by every
      initializer's existence checks; the preloader's observable events;
      the typeclass [PreloaderIface], the contract [initApp] relies on:
      the completion callback is the last event and comes once, and
      without [.preloader] it is the only one.
    - [Timeline]: the part of GSAP's timeline semantics the preloader
      relies on (positions ["-=d"]/["+=d"], end of timeline, the order in
      which [onComplete] callbacks fire, by a stable insertion sort; the
      duration of a staggered tween; [tl_build_chain], the schedule of
      a timeline whose steps each end last, as a running sum).  A model
      of the library, not of [src/]; none of it is mapped.
    - [Preloader] (Module [Preloader]): [initPreloader], lines 322-378:
      the fifteen literal tweens, the timed events they cause and the
      texts written; the instance [Preloader_iface].
    - [Bootstrap] (stdpp): [sessionStorage] as a [gmap string string],
      [isFirstLoad], the per-load choice and [initApp] (lines 649-680)
      as an ordered trace of initializer calls and preloader events,
      proved in a [Section] against any [PreloaderIface].
    - [Particles]: the particle loop of [initThreeJS] (lines 57-88) with
      the random stream and the trigonometric functions as section
      variables, and the vertex shader's displacement (lines 107-115).
    - [FrameLoop]: [initThreeJS] (lines 42-169) and one
      [animateThreeJS] frame (lines 171-203) on the record [Three]
      (clock, pointer, camera, uniforms, rings, the [View] the resize
      handler rewrites, the [Setup] nothing changes), the pointer
      listener, and the trace step [frame_step].
    - [NavToggle]: [site.js]: [closeNav]/[openNav]/[isOpen], the three
      listeners, [dispatch] in bubbling order (toggle, then document),
      and the abstract machine [Spec.step] of spec section 4.7 that it
      refines.
    - [PageTransition]: the [a[href$=".html"]] selection, the click
      handler's three-way test and the overlay tween whose completion
      assigns [window.location.href] (lines 284-317).
    - [Load]: a page load in time: [call_time] reads off [initApp]'s
      trace when each initializer runs (at once, or inside the
      preloader's callback at its time), and [transitions_at] gives the
      page-transition state a click at time [tc] meets.
    - [ScrollTrigger]: the reveal tweens of [initScrollAnimations]
      (lines 382-504), the toggle-actions string and its parsing, and
      ScrollTrigger's update rule for [toggleActions] (library model,
      marked as such in the manifest) as a state machine driven by
      scroll positions; the card groups' tween.
    - [Hero]: [initHeroAnimations] (lines 510-588): the conditional
      entrance timeline built with [Timeline], the title's span or
      block tween, the endless [.scroll-line] yoyo pulse, and the
      scrubbed parallax tweens (also the
      [.parallax-text] headings of lines 472-483) as a scrub state
      machine: the scroll sets the target progress, frames ease the
      playhead toward it.
    - [Lenis]: the options of [initLenis] (lines 11-31), its easing with
      [Math.pow] as a monotone section variable, and Lenis's
      duration-based scroll animation (library model).
    - [Scene]: [initScrollAnimations] over a whole page (one trigger per
      element and reveal class, in the order of the code's loops, one per
      card group, one scrub per parallax heading) and the forwarding of
      Lenis's scroll events to [ScrollTrigger.update] (line 24): the
      composition of [ScrollTrigger], [Hero]'s scrubs and [Lenis].
    - [Magnetic]: the two listeners of [initMagneticButtons] (lines
      253-279) against a transformed bounding rectangle.
    - [MobileNav]: [initMobileNav] (lines 593-612).
    - [Cursor]: [initCursor]/[updateCursor] (lines 208-248).
    - [Viewport]: [initLenis]'s ticker hook, the resize handler acting
      on [FrameLoop]'s state, the visibility handler (lines 9-31,
      614-644), and [bg_step], frames, pointer moves and resizes
      interleaved on one background state.
    - [Page]: the scroll pipeline of a page: GSAP's ticker, gated by
      the visibility handler ([Viewport.onTick]), calls Lenis's [raf]
      (lines 26-28; Lenis's [raf]/[scrollTo] in duration mode are a
      library model), whose scroll positions line 24 forwards to the
      triggers of [Scene].
    - [PointerJs]: the statements that divide by the window size (the
      pointer listener, lines 162-164; the camera aspect, line 620) and
      the smoothing that consumes them (lines 176-177, 193-194) run in
      [JsNum]'s numbers on the record [JsPtr], with the rational
      [FrameLoop] state read into it by [ptr_of].

    ** What the theorems show

    - Bootstrap: the preloader plays on the first page of a session and
      never again; page effects start only after its completion
      callback and exactly once per load; a first page without
      [.preloader] consumes the session's only preloader.
    - Preloader: on every page, its observable events (texts at 1.7 s,
      2.7 s, 3.6 s when [.preloader-text] exists, hidden and callback at
      5.8 s, or only the callback without [.preloader]), and which texts
      appear (["Descending..."] never does).
    - FrameLoop, Particles: pointer and camera ranges preserved by every
      trace (rule induction over [run]), clock and smoothing in closed
      form over [n] frames, the spherical shell the particles lie in.
    - Scene: after a smooth scroll every element of every reveal class
      and every card group has its own trigger and shows exactly when
      the scroll target is past its start.
    - NavToggle: the [aria-expanded]/[nav-open] pair stays consistent,
      the listeners refine the spec's transition table, and the two
      corner cases (no toggle; a second toggle) are characterised.
    - PageTransition: which clicks are intercepted, that navigation
      happens only after the cover tween;
      Load: on a session's first load the links are intercepted, and
      the overlay uncovered, only from the preloader's end at 5.8 s.
    - Hero: the full entrance schedule for any number of title spans
      (through the general [tl_build_chain] of [Timeline]), the first
      element placed before the timeline starts when the eyebrow is
      missing, the caught-up scrubbed values as functions of the scroll
      position, and that the
      scroll-line pulse keeps reaching both of its ends (liveness).
    - Lenis: the easing's shape (0.001 at 0, exactly 1 at 1,
      monotone) and that a smooth scroll stays between its ends and
      lands exactly on its target after 1.2 s.
    - Page: a smooth scroll lands: whatever visibility changes and
      ticks follow, the first visible tick 1.2 s of ticker time after
      the scroll started leaves it exactly on its target with every
      trigger having last seen the target; hidden time counts
      ([lagSmoothing(0)]), so the spec's paused clock is not what the
      code does (a finding).
    - PointerJs: the rational model of the background is exact (equal
      to the JavaScript-number computation, step for step) under any
      trace whose resizes keep the window nonempty, a refinement proved
      by induction over the trace; and a zero-width (zero-height) window
      makes the pointer and the camera [Infinity]/[NaN] on that axis for
      good: [NaN] is absorbing and [Infinity - Infinity] is [NaN].
    - ScrollTrigger, Magnetic, MobileNav, Cursor, Viewport: reveal state
      follows scroll direction; the convergence point of a held magnetic
      button; mobile-nav class agreement; the cursor at the pointer and
      the glow's closed form over [n] frames, and the un-nested hover
      class; exact resize and visibility-gated Lenis.

    ** Numbers, bounds and fuel

    JavaScript numbers are IEEE doubles.  The model uses exact rationals
    [Q] (Stdlib [QArith]) compared with [Qeq] ([==]); rounding is not
    modelled, so the theorems are about the arithmetic the code writes,
    not about its floating-point error.  Division by zero is where [Q]
    ([x / 0 = 0]) and JavaScript ([Infinity], [NaN]) part; [JsNum] and
    [PointerJs] model that case for the divisions the code makes by the
    window size and prove that the rational model is exact whenever the
    window is nonempty, which the theorems of [FrameLoop] and [Viewport]
    assume ([0 < innerWidth], [0 < innerHeight]) where they divide.
    Functions of the code that are
    not rational ([Math.sin], [Math.cos], [Math.acos], [Math.random]) are
    [Variable]s of a [Section] with only the hypotheses the proofs need.
    No definition uses fuel: every loop of the code is either bounded
    (the particle and ring loops, by [seq]) or a [requestAnimationFrame]
    / event loop, which the model unrolls as a finite trace given to
    [run]; theorems quantify over every trace.

    ** Plan, in order of importance (done: 1-10)

    1. session flag + bootstrap ordering (Bootstrap, Preloader, Timeline);
    2. render loop invariants and convergence (FrameLoop, Particles);
    3. navigation toggle of site.js (NavToggle) and of script.js (MobileNav);
    4. page-transition link interception (PageTransition);
    5. scroll-triggered reveals as a state machine (ScrollTrigger);
    6. magnetic buttons, custom cursor (Magnetic, Cursor);
    7. resize / visibility / Lenis ticker (Viewport);
    8. hero entrance timeline and the scroll-scrubbed parallax (Hero,
       done), Lenis's easing
       and scroll animation (Lenis, done), the [.scroll-line] pulse
       (Hero, done);
    9. the forwarding of Lenis's scroll events to [ScrollTrigger.update]
       and [initScrollAnimations] over a whole page (Scene, done); the
       background under frames and resizes together (Viewport, done).
       What remains is one page-level record holding
       every component's state under [initApp]; the components share no
       state beyond what [Scene] and [bg_step] already compose, so it
       would only pair them.
    10. the boundary case of the divisions by the window size, in
       JavaScript numbers (JsNum, PointerJs, done); the ticker-to-trigger
       scroll pipeline under visibility changes (Page, done).

    ** Not modelled

    GSAP's easing curves (recorded as strings, not interpolated: the
    theorems speak of start and end values and of ease fractions in
    [[0, 1]]; Lenis's own easing is modelled).  [gsap.ticker.lagSmoothing(0)]
    is reflected only in that the ticker's [Tick] events carry wall-clock
    time.  WebGL rendering, the fragment shader, CSS, the browser's
    layout, and the internals of GSAP, Lenis and three.js beyond the
    behaviour stated in [Timeline], [ScrollTrigger], [Hero]'s scrub
    machine, [Lenis.animate_value] and [Page]'s [raf]/[scrollTo].
    Lenis's wheel and touch handling is reduced to the target it asks
    for ([PScrollTo]); the scrubs' catch-up frames are composed in
    [Scene] but not in [Page].  Floating-point rounding (see Numbers);
    JavaScript's infinities and [NaN] only for the divisions by the
    window size ([PointerJs]), the only divisions of the JavaScript by
    a quantity that can be zero (the vertex shader's
    [200.0 / -mvPosition.z], line 118, is GLSL and not modelled). *)

From Stdlib Require Import ZArith QArith Qminmax Lqa Lia List Bool Setoid Morphisms.
Import ListNotations.

Declare Scope home_scope.
Delimit Scope home_scope with home.
Open Scope Q_scope.

(** ** Exponential smoothing *)

(** [lerp x t k] is the JavaScript statement [x += (t - x) * k]. *)
Definition lerp (x t k : Q) : Q := x + (t - x) * k.

Notation "x ~[ k ]~> t" := (lerp x t k)
  (at level 70, k at level 60, t at level 69, no associativity) : home_scope.
Open Scope home_scope.

(** Natural powers of a rational, executable. *)
Fixpoint qpow (a : Q) (n : nat) : Q :=
  match n with
  | O => 1
  | S n' => a * qpow a n'
  end.

(** [n] frames of smoothing towards a fixed target. *)
Fixpoint lerp_n (n : nat) (x t k : Q) : Q :=
  match n with
  | O => x
  | S n' => lerp_n n' (x ~[k]~> t) t k
  end.

(** [|x| <= b], with [Qabs] kept out of the statements so that [lra] reads them. *)
Definition within (b x : Q) : Prop := - b <= x /\ x <= b.

(** ** Event traces *)

Section Run.
Context {S E : Type}.
Variable step : S -> E -> S.

(** Handling the events of a trace one after the other. *)
Definition run (s : S) (es : list E) : S := fold_left step es s.

Variable P : S -> Prop.
Hypothesis step_P : forall s e, P s -> P (step s e).

Lemma run_preserves : forall es s, P s -> P (run s es).
Proof. induction es as [|e es IH]; intros s Hs; simpl; auto. Qed.
End Run.

(** The same, for traces whose events all satisfy [ok]. *)
Lemma run_preserves_on {S E} (step : S -> E -> S) (ok : E -> Prop) (P : S -> Prop) :
  (forall s e, ok e -> P s -> P (step s e)) ->
  forall es s, Forall ok es -> P s -> P (run step s es).
Proof.
  intros Hstep es. induction es as [|e es IH]; intros s Hok Hs; simpl; [exact Hs|].
  inversion Hok; subst. apply IH; auto.
Qed.

Lemma run_app {S E} (step : S -> E -> S) s es1 es2 :
  run step s (es1 ++ es2) = run step (run step s es1) es2.
Proof. unfold run. apply fold_left_app. Qed.

Lemma run_cons {S E} (step : S -> E -> S) s e es :
  run step s (e :: es) = run step (step s e) es.
Proof. reflexivity. Qed.

(** A buffer filled in chunks of [w] entries per index, as the
    [Float32Array]s of [initThreeJS] are ([i * 3 + k]). *)
Lemma flat_map_seq_chunk {A} (w : nat) (f : nat -> list A) :
  (forall i, length (f i) = w) ->
  forall n s i k, (i < n)%nat -> (k < w)%nat ->
  nth_error (flat_map f (seq s n)) (w * i + k) = nth_error (f (s + i)%nat) k.
Proof.
  intros Hw n. induction n as [|n IH]; intros s i k Hi Hk; [lia|].
  cbn [seq flat_map]. destruct i as [|i].
  - rewrite PeanoNat.Nat.mul_0_r, PeanoNat.Nat.add_0_r. apply nth_error_app1. rewrite Hw. exact Hk.
  - rewrite nth_error_app2 by (rewrite Hw; lia). rewrite Hw.
    replace (w * S i + k - w)%nat with (w * i + k)%nat by lia.
    rewrite IH by lia. rewrite <- PeanoNat.Nat.add_succ_comm. reflexivity.
Qed.

Lemma flat_map_seq_length {A} (w : nat) (f : nat -> list A) :
  (forall i, length (f i) = w) -> forall n s, length (flat_map f (seq s n)) = (w * n)%nat.
Proof.
  intros Hw n. induction n as [|n IH]; intros s; cbn [seq flat_map]; [simpl; lia|].
  rewrite length_app, Hw, IH. lia.
Qed.

(** A count read as a number is nonnegative. *)
Lemma inject_nat_nonneg (n : nat) : 0 <= inject_Z (Z.of_nat n).
Proof. unfold Qle. simpl. lia. Qed.

Lemma inject_Z_S n : inject_Z (Z.of_nat (S n)) == inject_Z (Z.of_nat n) + 1.
Proof. rewrite Nat2Z.inj_succ, <- Z.add_1_r, inject_Z_plus. reflexivity. Qed.

(** Counting the elements of a list that satisfy a test. *)
Fixpoint count_if {A} (f : A -> bool) (l : list A) : nat :=
  match l with
  | [] => O
  | x :: l' => (if f x then 1 else 0) + count_if f l'
  end%nat.

Lemma count_if_app {A} (f : A -> bool) l1 l2 :
  count_if f (l1 ++ l2) = (count_if f l1 + count_if f l2)%nat.
Proof. induction l1 as [|x l1 IH]; simpl; [|rewrite IH; destruct (f x)]; lia. Qed.

Lemma count_if_none {A} (f : A -> bool) l :
  (forall x, In x l -> f x = false) -> count_if f l = O.
Proof.
  induction l as [|x l IH]; intros H; simpl; [reflexivity|].
  rewrite (H x (or_introl eq_refl)), IH; auto using in_cons.
Qed.

(** ** Lemmas on smoothing *)

#[export] Instance lerp_Proper : Proper (Qeq ==> Qeq ==> Qeq ==> Qeq) lerp.
Proof.
  intros x x' Hx t t' Ht k k' Hk. unfold lerp.
  apply Qplus_comp; [assumption|]. apply Qmult_comp; [apply Qplus_comp, Qopp_comp|]; assumption.
Qed.

#[export] Instance qpow_Proper : Proper (Qeq ==> eq ==> Qeq) qpow.
Proof.
  intros a a' Ha n n' <-. induction n as [|n IH]; simpl; [reflexivity|].
  apply Qmult_comp; assumption.
Qed.

Lemma lerp_error x t k : (x ~[k]~> t) - t == (1 - k) * (x - t).
Proof. unfold lerp. ring. Qed.

Lemma lerp_n_error n : forall x t k, lerp_n n x t k - t == qpow (1 - k) n * (x - t).
Proof.
  induction n as [|n IH]; intros x t k; simpl; [ring|].
  rewrite IH, lerp_error. ring.
Qed.

Lemma lerp_between lo hi x t k :
  0 <= k <= 1 -> lo <= x <= hi -> lo <= t <= hi -> lo <= (x ~[k]~> t) <= hi.
Proof. unfold lerp. intros [Hk0 Hk1] [Hx0 Hx1] [Ht0 Ht1]. split; nra. Qed.

Lemma lerp_within b x t k :
  0 <= k <= 1 -> within b x -> within b t -> within b (x ~[k]~> t).
Proof. unfold within. apply lerp_between. Qed.

Lemma lerp_min_max v0 v1 k : 0 <= k <= 1 -> Qmin v0 v1 <= (v0 ~[k]~> v1) <= Qmax v0 v1.
Proof.
  intros Hk. apply lerp_between; [exact Hk| |]; split;
    first [apply Q.le_min_l|apply Q.le_min_r|apply Q.le_max_l|apply Q.le_max_r].
Qed.

Lemma qpow_bounds a n : 0 <= a <= 1 -> 0 <= qpow a n <= 1.
Proof.
  intros Ha. induction n as [|n IH]; simpl; [lra|]. split; nra.
Qed.

Create HintDb home.
Create Rewrite HintDb home_rw.
#[export] Hint Resolve lerp_between lerp_within qpow_bounds : home.
#[export] Hint Rewrite lerp_error lerp_n_error : home_rw.

(** [qsolve] closes the linear and simple non-linear goals over [Q]
    that the components' proofs end with, after unfolding [within]. *)
Ltac qsolve := unfold within in *; first [ lra | nra ].
