(* ===== verification/JsNum.v ===== *)
(** * JavaScript numbers where they leave [Q]: infinities and [NaN]

    The components model a JavaScript number by a rational.  That is
    exact (rounding aside, see the root header) as long as no operation
    divides by zero; [x / 0] is [Infinity], [-Infinity] or [NaN] in
    JavaScript, [0] in [Q].  The handlers of src/script.js divide by
    [window.innerWidth] and [window.innerHeight] (lines 47, 163-164,
    620) with no guard, so this file gives the IEEE operations the code
    uses ([+], unary [-], binary [-], [*], [/]) on the values
    [Fin q | Infinity | -Infinity | NaN], and the lemmas that say when a
    result stays finite and that [NaN] absorbs every operation.

    Zero is the single zero of [Q]; IEEE's [-0] differs from [+0] only
    as a divisor, and every divisor of the modelled code is a window
    size, which the browser reports as [+0] at worst. *)

From Stdlib Require Import QArith Qminmax Lqa Bool.
From S2P Require Import Prelude.
Open Scope Q_scope.

Module JsNum.

Inductive num := Fin (q : Q) | PInf | NInf | NaN.

Definition is_finite (x : num) : bool := match x with Fin _ => true | _ => false end.

(** The sign of a number, [Eq] for zero and [NaN]. *)
Definition sgn (x : num) : comparison :=
  match x with Fin q => Qcompare q 0 | PInf => Gt | NInf => Lt | NaN => Eq end.

(** The infinity of a sign; a zero sign is [NaN] ([0 * Infinity], [0 / 0]). *)
Definition inf_with (c : comparison) : num :=
  match c with Gt => PInf | Lt => NInf | Eq => NaN end.

Definition sgn_mul (a b : comparison) : comparison :=
  match a, b with
  | Eq, _ | _, Eq => Eq
  | Gt, Gt | Lt, Lt => Gt
  | _, _ => Lt
  end.

Definition neg (x : num) : num :=
  match x with Fin q => Fin (- q) | PInf => NInf | NInf => PInf | NaN => NaN end.

Definition add (x y : num) : num :=
  match x, y with
  | Fin a, Fin b => Fin (a + b)
  | NaN, _ | _, NaN => NaN
  | PInf, NInf | NInf, PInf => NaN
  | PInf, _ | _, PInf => PInf
  | NInf, _ | _, NInf => NInf
  end.

Definition sub (x y : num) : num := add x (neg y).

Definition mul (x y : num) : num :=
  match x, y with
  | Fin a, Fin b => Fin (a * b)
  | NaN, _ | _, NaN => NaN
  | _, _ => inf_with (sgn_mul (sgn x) (sgn y))
  end.

(** Division; a zero divisor is [+0]. *)
Definition div (x y : num) : num :=
  match x, y with
  | Fin a, Fin b => if Qeq_bool b 0 then inf_with (Qcompare a 0) else Fin (a / b)
  | NaN, _ | _, NaN => NaN
  | Fin _, _ => Fin 0
  | _, Fin b => inf_with (sgn_mul (sgn x) (if Qeq_bool b 0 then Gt else Qcompare b 0))
  | _, _ => NaN
  end.

(** The statement [x += (t - x) * k]: [Prelude.lerp] in JavaScript numbers. *)
Definition js_lerp (x t : num) (k : Q) : num := add x (mul (sub t x) (Fin k)).

(** ** Finite operands *)

Lemma div_fin a b : ~ b == 0 -> div (Fin a) (Fin b) = Fin (a / b).
Proof.
  intros Hb. unfold div. destruct (Qeq_bool b 0) eqn:E; [|reflexivity].
  apply Qeq_bool_eq in E. contradiction.
Qed.

(** ** Leaving the finite numbers *)

(** Any number over a zero window size is [Infinity], [-Infinity] or [NaN]. *)
Lemma div_zero_nonfinite a b : b == 0 -> is_finite (div (Fin a) (Fin b)) = false.
Proof.
  intros Hb. unfold div. replace (Qeq_bool b 0) with true by (symmetry; apply Qeq_bool_iff, Hb).
  destruct (Qcompare a 0); reflexivity.
Qed.

Lemma sgn_mul_pos c k : 0 < k -> sgn_mul c (Qcompare k 0) = c.
Proof.
  intros Hk. assert (E : Qcompare k 0 = Gt) by (apply Qgt_alt; exact Hk).
  rewrite E. destruct c; reflexivity.
Qed.

(** Scaling by a positive constant keeps a value that is not finite so. *)
Lemma mul_nonfinite_pos x k : 0 < k -> is_finite x = false -> is_finite (mul x (Fin k)) = false.
Proof.
  intros Hk Hx. destruct x; try discriminate; unfold mul; cbn [sgn];
    rewrite ?sgn_mul_pos by exact Hk; reflexivity.
Qed.

(** Adding a finite value to one that is not finite gives one that is not finite. *)
Lemma add_nonfinite_fin x b : is_finite x = false -> is_finite (add x (Fin b)) = false.
Proof. destruct x; try discriminate; reflexivity. Qed.

(** ** Smoothing: [NaN] absorbs, infinities do not come back *)

(** Smoothing towards [NaN] gives [NaN]. *)
Lemma js_lerp_nan_r x k : js_lerp x NaN k = NaN.
Proof. destruct x; reflexivity. Qed.

(** Smoothing from a value that is not finite gives [NaN]: [Infinity]
    plus a step towards any target is [Infinity - Infinity] or [NaN]. *)
Lemma js_lerp_nonfinite x t k : 0 < k -> is_finite x = false -> js_lerp x t k = NaN.
Proof.
  intros Hk Hx. unfold js_lerp, sub.
  destruct x as [q| | |]; try discriminate; destruct t as [b| | |]; cbn [neg add];
    unfold mul; cbn [sgn]; rewrite ?sgn_mul_pos by exact Hk; reflexivity.
Qed.

(** Smoothing towards a target that is not finite gives a value that is
    not finite, whatever the start. *)
Lemma js_lerp_to_nonfinite x t k :
  0 < k -> is_finite t = false -> is_finite (js_lerp x t k) = false.
Proof.
  intros Hk Ht. destruct (is_finite x) eqn:Hx.
  - destruct x as [q| | |]; try discriminate. unfold js_lerp, sub.
    destruct t as [b| | |]; try discriminate; cbn [neg add];
      unfold mul; cbn [sgn]; rewrite ?sgn_mul_pos by exact Hk; reflexivity.
  - rewrite js_lerp_nonfinite by assumption. reflexivity.
Qed.

End JsNum.
