(* ===== verification/Dom.v ===== *)
(** * The page markup contract and the interfaces between components

    Every initializer of [src/script.js] and the IIFE of [src/site.js]
    start with [document.querySelector] / [getElementById] calls and
    return when an element is missing (spec section 6, "DOM contract";
    section 7, "feature silently absent").  [Dom] records which of those
    elements the page has; the components read it for their guards.

    [PreloaderIface] is what the bootstrapper ([initApp], lines 649-670)
    relies on from the preloader ([initPreloader], lines 322-378): the
    timed events it produces and the promise that the completion
    callback is the last of them and fires exactly once.  [Bootstrap]
    is proved against this class; [Preloader] provides the instance. *)

From Stdlib Require Import QArith String List.
From S2P Require Import Prelude.
Import ListNotations.

(** The elements the scripts look up, by the selector the code uses. *)
Record Dom := {
  has_three_canvas : bool;        (** [#three-canvas], line 43 *)
  has_cursor : bool;              (** [.cursor], line 213 *)
  has_cursor_glow : bool;         (** [.cursor-glow], line 214 *)
  has_preloader : bool;           (** [.preloader], line 323 *)
  has_preloader_logo : bool;      (** [.preloader-logo], line 324 *)
  has_preloader_text : bool;      (** [.preloader-text], line 325 *)
  has_preloader_bar : bool;       (** [.preloader-bar-fill], line 326 *)
  has_page_transition : bool;     (** [.page-transition], line 286 *)
  has_nav_toggle : bool;          (** [.nav-toggle], line 594 *)
  has_nav_mobile : bool;          (** [.nav-mobile], line 595 *)
  has_data_nav_toggle : bool      (** [[data-nav-toggle]], site.js line 2 *)
}.

(** A page that has every element the scripts look for. *)
Definition full_dom : Dom := {|
  has_three_canvas := true; has_cursor := true; has_cursor_glow := true;
  has_preloader := true; has_preloader_logo := true; has_preloader_text := true;
  has_preloader_bar := true; has_page_transition := true; has_nav_toggle := true;
  has_nav_mobile := true; has_data_nav_toggle := true |}.

(** What the preloader makes observable: the status texts it writes, the
    moment it takes itself out of the layout, and the call of the
    completion callback. *)
Inductive PreloaderEvent :=
| PTextSet (s : string)
| PHidden
| PCallback.

Definition is_callback (e : PreloaderEvent) : bool :=
  match e with PCallback => true | _ => false end.

(** The contract of [initPreloader callback], with times in seconds from
    the call. *)
Class PreloaderIface := {
  preloader_run : Dom -> list (Q * PreloaderEvent);
  (** the callback is the last event, and no earlier event is a callback *)
  preloader_callback_last : forall d,
    exists pre t, preloader_run d = pre ++ [(t, PCallback)] /\
      Forall (fun te => is_callback (snd te) = false) pre;
  (** without the [.preloader] element the callback fires at once *)
  preloader_absent : forall d,
    has_preloader d = false -> preloader_run d = [(0, PCallback)]
}.
