(* ===== verification/Timeline.v ===== *)
(** * GSAP timelines, as far as the scripts use them

    [initPreloader] and [initHeroAnimations] build [gsap.timeline()]s
    with [.to] and [.set], placing each child with GSAP's position
    parameter: absent (append at the end of the timeline), ["-=d"] or
    ["+=d"] (relative to the end).  The end of a timeline is the latest
    end of its children (0 when empty), and when the timeline plays, a
    child's [onComplete] fires when the playhead passes the child's end;
    the timeline's own [onComplete] fires at its end.

    This file is a model of that library behaviour, not of code under
    [src/]; it is stated here once and used by [Preloader] and
    [Hero].  Times are kept in canonical form with [Qred], as GSAP rounds
    its start times, so that computed schedules compare with [=]. *)

From Stdlib Require Import ZArith QArith Qround Qminmax Lqa Lia List Sorted Permutation.
From S2P Require Import Prelude.
Import ListNotations.

(** The position parameter of [tl.to(target, vars, position)]:
    [PEnd] for no parameter, [PRel d] for ["+=d"] and [PRel (-d)] for
    ["-=d"]. *)
Inductive Position :=
| PEnd
| PRel (d : Q).

(** GSAP's duration of a tween over [n] targets with a stagger: the last
    target starts [n - 1] staggers after the first. *)
Definition stagger_total (each stagger : Q) (n : nat) : Q :=
  each + stagger * inject_Z (Z.of_nat (Nat.pred n)).

Section Timeline.
Context {A : Type}.

(** A child of a timeline: its start, its duration and what it does. *)
Record Child := mkChild { c_start : Q; c_dur : Q; c_data : A }.

Definition c_end (c : Child) : Q := Qred (c_start c + c_dur c).

(** [tl.duration()]: the latest end of a child, 0 for an empty timeline. *)
Fixpoint tl_end (tl : list Child) : Q :=
  match tl with
  | [] => 0
  | c :: tl' => Qmax (c_end c) (tl_end tl')
  end.

Definition position_start (tl : list Child) (p : Position) : Q :=
  match p with
  | PEnd => tl_end tl
  | PRel d => Qred (tl_end tl + d)
  end.

(** [tl.to(target, vars, position)] with [vars.duration = dur]; a
    [tl.set] is the same with duration 0. *)
Definition tl_add (tl : list Child) (step : Position * Q * A) : list Child :=
  let '(p, dur, a) := step in tl ++ [mkChild (position_start tl p) dur a].

(** A chain [tl.to(..).to(..)...] on a fresh timeline. *)
Definition tl_build (steps : list (Position * Q * A)) : list Child :=
  run tl_add [] steps.

(** Children ordered by the time their [onComplete] fires; children
    that end together keep the order in which they were added. *)
Fixpoint insert_by_end (c : Child) (l : list Child) : list Child :=
  match l with
  | [] => [c]
  | c' :: l' => if Qle_bool (c_end c) (c_end c') then c :: l
                else c' :: insert_by_end c l'
  end.

Fixpoint completion_order (tl : list Child) : list Child :=
  match tl with
  | [] => []
  | c :: tl' => insert_by_end c (completion_order tl')
  end.

Definition ends_before (a b : Child) : Prop := c_end a <= c_end b.

Lemma insert_by_end_perm c l : Permutation (c :: l) (insert_by_end c l).
Proof.
  induction l as [|c' l IH]; simpl; [reflexivity|].
  destruct (Qle_bool _ _); [reflexivity|].
  rewrite perm_swap. constructor. exact IH.
Qed.

Lemma completion_order_perm tl : Permutation tl (completion_order tl).
Proof.
  induction tl as [|c tl IH]; simpl; [constructor|].
  rewrite <- insert_by_end_perm. constructor. exact IH.
Qed.

Lemma insert_by_end_sorted c l :
  Sorted ends_before l -> Sorted ends_before (insert_by_end c l).
Proof.
  induction 1 as [|c' l Hs IH Hhd]; simpl; [auto|].
  destruct (Qle_bool (c_end c) (c_end c')) eqn:E.
  - apply Qle_bool_iff in E. constructor; [constructor; auto|]. constructor. exact E.
  - assert (Hlt : c_end c' <= c_end c).
    { apply Qnot_lt_le. intros Hlt. apply Qlt_le_weak, Qle_bool_iff in Hlt. congruence. }
    constructor; [exact IH|].
    destruct l as [|c'' l]; simpl; [constructor; exact Hlt|].
    inversion Hhd; subst.
    destruct (Qle_bool (c_end c) (c_end c'')); constructor; auto.
Qed.

(** The callbacks fire in time order. *)
Lemma completion_order_sorted tl : Sorted ends_before (completion_order tl).
Proof. induction tl; simpl; auto using insert_by_end_sorted. Qed.

Lemma tl_end_ge c tl : In c tl -> c_end c <= tl_end tl.
Proof.
  induction tl as [|c' tl IH]; simpl; [tauto|].
  intros [<-|Hin]; [apply Q.le_max_l|].
  eapply Qle_trans; [apply IH, Hin|apply Q.le_max_r].
Qed.

Lemma tl_end_nonneg tl : 0 <= tl_end tl.
Proof.
  induction tl as [|c tl IH]; simpl; [lra|].
  eapply Qle_trans; [exact IH|apply Q.le_max_r].
Qed.

Lemma tl_end_app tl tl' : tl_end (tl ++ tl') == Qmax (tl_end tl) (tl_end tl').
Proof.
  induction tl as [|c tl IH]; simpl.
  - rewrite Q.max_r; [reflexivity|apply tl_end_nonneg].
  - rewrite IH, Q.max_assoc. reflexivity.
Qed.

(** Adding steps never moves the children already there. *)
Lemma run_tl_add_prefix steps : forall tl, exists rest, run tl_add tl steps = tl ++ rest.
Proof.
  induction steps as [|[[p dur] a] steps IH]; intros tl; [exists []; rewrite app_nil_r; reflexivity|].
  rewrite run_cons. destruct (IH (tl_add tl (p, dur, a))) as [rest Hr]. rewrite Hr.
  exists (mkChild (position_start tl p) dur a :: rest). unfold tl_add. rewrite <- app_assoc. reflexivity.
Qed.

(** The first step of a fresh timeline is placed against an empty one. *)
Lemma tl_build_head p dur a steps :
  exists rest, tl_build ((p, dur, a) :: steps) = mkChild (position_start [] p) dur a :: rest.
Proof. unfold tl_build. rewrite run_cons. apply run_tl_add_prefix. Qed.

(** ** Chained steps

    When no step ends before the end of the timeline it is added to
    (its offset plus its duration is nonnegative), each child starts at
    the previous child's end plus its offset: the schedule is [chain],
    a plain running sum with no maximum. *)
Definition offset (p : Position) : Q := match p with PEnd => 0 | PRel d => d end.

Fixpoint chain (e : Q) (steps : list (Position * Q * A)) : list (Q * Q) :=
  match steps with
  | [] => []
  | (p, dur, _) :: rest => (e + offset p, e + offset p + dur) :: chain (e + offset p + dur) rest
  end.

Definition chained (steps : list (Position * Q * A)) : Prop :=
  Forall (fun st => 0 <= offset (fst (fst st)) + snd (fst st)) steps.

Definition span (c : Child) : Q * Q := (c_start c, c_end c).

Definition same_span (x y : Q * Q) : Prop := fst x == fst y /\ snd x == snd y.

Lemma same_spans_refl l : Forall2 same_span l l.
Proof. induction l; constructor; [split; reflexivity|assumption]. Qed.

Lemma same_spans_trans l1 l2 l3 :
  Forall2 same_span l1 l2 -> Forall2 same_span l2 l3 -> Forall2 same_span l1 l3.
Proof.
  intros H12. revert l3. induction H12 as [|x y l1 l2 [Hf Hs] H IH]; intros l3 H23;
    inversion H23 as [|? z ? l3' [Hf' Hs'] H']; subst; constructor; [|apply IH, H'].
  split; [rewrite Hf; exact Hf'|rewrite Hs; exact Hs'].
Qed.

Lemma chain_Qeq steps : forall e1 e2, e1 == e2 -> Forall2 same_span (chain e1 steps) (chain e2 steps).
Proof.
  induction steps as [|[[p dur] a] steps IH]; intros e1 e2 He; constructor.
  - split; simpl; rewrite He; reflexivity.
  - apply IH. rewrite He. reflexivity.
Qed.

Lemma position_start_eq tl p : position_start tl p == tl_end tl + offset p.
Proof. destruct p; cbn [position_start offset]; [ring|apply Qred_correct]. Qed.

Lemma run_tl_add_chain steps : forall tl e, tl_end tl == e -> chained steps ->
  Forall2 same_span (map span (run tl_add tl steps)) (map span tl ++ chain e steps).
Proof.
  induction steps as [|[[p dur] a] steps IH]; intros tl e He Hch.
  - rewrite app_nil_r. apply same_spans_refl.
  - inversion Hch as [|? ? Hst Hrest]; subst. cbn [fst snd] in Hst. rewrite run_cons.
    set (c := mkChild (position_start tl p) dur a).
    change (tl_add tl (p, dur, a)) with (tl ++ [c]).
    assert (Hc : c_end c == e + offset p + dur)
      by (unfold c_end, c; cbn [c_start c_dur]; rewrite Qred_correct, position_start_eq, He; reflexivity).
    assert (He0 : 0 <= e) by (rewrite <- He; apply tl_end_nonneg).
    eapply same_spans_trans; [apply (IH (tl ++ [c]) _ (Qeq_refl _) Hrest)|].
    rewrite map_app, <- app_assoc. apply Forall2_app; [apply same_spans_refl|].
    constructor.
    + split; cbn [span fst snd]; [unfold c; cbn [c_start]; rewrite position_start_eq, He; reflexivity|exact Hc].
    + apply chain_Qeq. rewrite tl_end_app. cbn [tl_end]. rewrite (Q.max_l (c_end c) 0) by lra.
      rewrite He, Hc. apply Q.max_r. lra.
Qed.

(** The end of a chained timeline: the last running sum. *)
Fixpoint chain_end (e : Q) (steps : list (Position * Q * A)) : Q :=
  match steps with
  | [] => e
  | (p, dur, _) :: rest => chain_end (e + offset p + dur) rest
  end.

Lemma tl_end_snoc_chained tl p dur a :
  0 <= offset p + dur ->
  tl_end (tl_add tl (p, dur, a)) == tl_end tl + offset p + dur.
Proof.
  intros Hst. unfold tl_add. rewrite tl_end_app. cbn [tl_end]. unfold c_end. cbn [c_start c_dur].
  rewrite Qred_correct, position_start_eq. pose proof (tl_end_nonneg tl).
  rewrite (Q.max_l _ 0) by lra. apply Q.max_r. lra.
Qed.

Lemma run_tl_add_end steps : forall tl e, tl_end tl == e -> chained steps ->
  tl_end (run tl_add tl steps) == chain_end e steps.
Proof.
  induction steps as [|[[p dur] a] steps IH]; intros tl e He Hch; [exact He|].
  inversion Hch as [|? ? Hst Hrest]; subst. cbn [fst snd] in Hst. rewrite run_cons. cbn [chain_end].
  apply IH; [|exact Hrest]. rewrite tl_end_snoc_chained by exact Hst. rewrite He. reflexivity.
Qed.

(** A timeline built from chained steps follows [chain] from 0. *)
Lemma tl_build_chain steps :
  chained steps -> Forall2 same_span (map span (tl_build steps)) (chain 0 steps).
Proof. intros H. apply (run_tl_add_chain steps [] 0); [reflexivity|exact H]. Qed.

Lemma tl_build_end steps : chained steps -> tl_end (tl_build steps) == chain_end 0 steps.
Proof. intros H. apply (run_tl_add_end steps [] 0); [reflexivity|exact H]. Qed.

End Timeline.

Arguments Child : clear implicits.
