(* ===== verification/Preloader.v ===== *)
(** * The preloader sequence ([initPreloader], src/script.js lines 322-378)

    [initPreloader callback] looks up four elements; without [.preloader]
    it calls [callback] at once.  Otherwise it builds one GSAP timeline of
    fifteen children (lines 346-377), whose [onComplete]s write three of
    the four [loadingTexts] into [.preloader-text] (when that element
    exists) and whose last child sets [display: none] on the preloader;
    the timeline's own [onComplete] calls [callback].

    [preloader_steps] is the chain of [.to]/[.set] calls, literal by
    literal; [initPreloader] turns the schedule GSAP computes for it
    ([Timeline]) into the timed events of [PreloaderEvent].  The
    instance [Preloader_iface] discharges the contract [PreloaderIface]
    the bootstrapper is proved against. *)

From Stdlib Require Import QArith Qminmax Lqa Lia List String Sorted.
From S2P Require Import Prelude Dom Timeline.
Import ListNotations.
Open Scope string_scope.
Open Scope Q_scope.
Open Scope list_scope.

Module Preloader.

(** [const loadingTexts = [...]], lines 333-338. *)
Definition loadingTexts : list string :=
  ["Descending..."; "Awakening..."; "Unearthing..."; "Enter..."].

(** The elements the tweens target. *)
Inductive PTarget := PreloaderLogo | PreloaderText | PreloaderBarFill | PreloaderEl.

(** The properties the tweens animate or set. *)
Inductive PVar :=
| Opacity (v : Q)
| Width (pct : Q)          (** [width: '25%'] etc. *)
| YPercent (v : Q)
| DisplayNone.             (** [.set(preloader, { display: 'none' })] *)

(** A tween: targets, end values, easing, and the index of the
    [loadingTexts] entry its [onComplete] writes. *)
Record PTween := mkPTween {
  pt_targets : list PTarget;
  pt_vars : list PVar;
  pt_ease : option string;
  pt_set_text : option nat
}.

(** The chain of lines 346-377: position, duration, tween. *)
Definition preloader_steps : list (Position * Q * PTween) := [
  (PEnd, 1#2, mkPTween [PreloaderLogo] [Opacity 1] None None);
  (PRel (-(1#5)), 2#5, mkPTween [PreloaderText] [Opacity 1] None None);
  (PEnd, 4#5, mkPTween [PreloaderBarFill] [Width 25] (Some "power2.inOut") None);
  (PEnd, 1#5, mkPTween [PreloaderText] [Opacity 0] None (Some 1%nat));
  (PEnd, 1#5, mkPTween [PreloaderText] [Opacity 1] None None);
  (PEnd, 3#5, mkPTween [PreloaderBarFill] [Width 50] (Some "power2.inOut") None);
  (PEnd, 1#5, mkPTween [PreloaderText] [Opacity 0] None (Some 2%nat));
  (PEnd, 1#5, mkPTween [PreloaderText] [Opacity 1] None None);
  (PEnd, 1#2, mkPTween [PreloaderBarFill] [Width 80] (Some "power2.inOut") None);
  (PEnd, 1#5, mkPTween [PreloaderText] [Opacity 0] None (Some 3%nat));
  (PEnd, 1#5, mkPTween [PreloaderText] [Opacity 1] None None);
  (PEnd, 3#10, mkPTween [PreloaderBarFill] [Width 100] (Some "power2.inOut") None);
  (PRel (3#10), 2#5, mkPTween [PreloaderText; PreloaderLogo] [Opacity 0] None None);
  (PEnd, 1, mkPTween [PreloaderEl] [YPercent (-100)] (Some "power4.inOut") None);
  (PEnd, 0, mkPTween [PreloaderEl] [DisplayNone] None None)
].

Definition preloader_timeline : list (Child PTween) := tl_build preloader_steps.

Definition is_display_none (v : PVar) : bool :=
  match v with DisplayNone => true | _ => false end.

(** What a child makes observable when it completes: the text write
    of its [onComplete] (guarded by [if (preloaderText)]) and the
    [display: none] of the final [.set]. *)
Definition child_events (text_present : bool) (c : Child PTween)
  : list (Q * PreloaderEvent) :=
  (match pt_set_text (c_data c) with
   | Some i => if text_present then [(c_end c, PTextSet (nth i loadingTexts ""))] else []
   | None => []
   end) ++
  (if existsb is_display_none (pt_vars (c_data c)) then [(c_end c, PHidden)] else []).

(** [initPreloader(callback)]: the early return, or the played
    timeline followed by its [onComplete]. *)
Definition initPreloader (d : Dom) : list (Q * PreloaderEvent) :=
  if negb (has_preloader d) then [(0, PCallback)]
  else flat_map (child_events (has_preloader_text d)) (completion_order preloader_timeline)
       ++ [(tl_end preloader_timeline, PCallback)].


Lemma child_events_no_callback b c :
  Forall (fun te => is_callback (snd te) = false) (child_events b c).
Proof.
  unfold child_events. apply Forall_app. split.
  - destruct (pt_set_text _); [destruct b|]; repeat constructor.
  - destruct (existsb _ _); repeat constructor.
Qed.

Lemma flat_map_child_events_no_callback b l :
  Forall (fun te => is_callback (snd te) = false) (flat_map (child_events b) l).
Proof.
  induction l as [|c l IH]; simpl; [constructor|].
  apply Forall_app. split; [apply child_events_no_callback|exact IH].
Qed.

Lemma initPreloader_callback_last d :
  exists pre t, initPreloader d = pre ++ [(t, PCallback)] /\
    Forall (fun te => is_callback (snd te) = false) pre.
Proof.
  unfold initPreloader. destruct (has_preloader d); cbn [negb].
  - eexists _, _. split; [reflexivity|]. apply flat_map_child_events_no_callback.
  - exists [], 0. split; [reflexivity|constructor].
Qed.

Lemma initPreloader_absent d :
  has_preloader d = false -> initPreloader d = [(0, PCallback)].
Proof. intros Hd. unfold initPreloader. rewrite Hd. reflexivity. Qed.

#[export] Instance Preloader_iface : PreloaderIface := {
  preloader_run := initPreloader;
  preloader_callback_last := initPreloader_callback_last;
  preloader_absent := initPreloader_absent
}.

(** C5: on every page, what [initPreloader] makes observable: without
    [.preloader] only the callback, at once; with it, the status texts
    "Awakening..." at 1.7 s, "Unearthing..." at 2.7 s and "Enter..." at
    3.6 s (only when [.preloader-text] exists), then [display: none] at
    5.8 s and the completion callback at 5.8 s, after it.  The times are
    those GSAP computes from the fifteen positions and durations; the
    missing logo or bar changes nothing (their tweens keep their time). *)
Theorem initPreloader_schedule d :
  initPreloader d =
    if has_preloader d then
      (if has_preloader_text d then
         [(17#10, PTextSet "Awakening..."); (27#10, PTextSet "Unearthing...");
          (18#5, PTextSet "Enter...")] else [])
      ++ [(29#5, PHidden); (29#5, PCallback)]
    else [(0, PCallback)].
Proof. destruct d as [? ? ? [|] ? [|] ? ? ? ? ?]; vm_compute; reflexivity. Qed.


Lemma preloader_end : tl_end preloader_timeline = 29#5.
Proof. vm_compute. reflexivity. Qed.

End Preloader.

