(* ===== verification/Bootstrap.v ===== *)
(** * The bootstrapper: session flag and [initApp] (src/script.js lines 649-680)

    At script evaluation the code reads [sessionStorage.getItem('visited')]:
    when it is falsy ([null] or the empty string) this is the first load
    of the session, the key is set to ['true'] and [initApp(false)] is
    registered for [DOMContentLoaded]; otherwise [initApp(true)].
    [initApp] calls six initializers in a fixed order, then the four page
    effects either at once ([skipPreloader]) or from the preloader's
    completion callback.

    The trace of a page load is a list of [BootEvent]s: the calls of the
    initializers and, interleaved, the preloader's own events.  Session
    storage is a [gmap string string]; a session is a sequence of page
    loads sharing it.  Everything in the [WithPreloader] section is
    proved from the [PreloaderIface] contract alone; the [Preloader]
    instance makes it concrete. *)

From Stdlib Require Import QArith List.
From stdpp Require Import base gmap strings.
From S2P Require Import Prelude Dom Timeline Preloader.
Import ListNotations.
Import Preloader.

Module Bootstrap.

(** The functions [initApp] calls. *)
Inductive InitCall :=
| InitLenis | InitThreeJS | InitCursor | InitMobileNav | InitResizeHandler
| InitVisibilityHandler | InitPreloader | InitScrollAnimations
| InitHeroAnimations | InitMagneticButtons | InitPageTransitions.

#[export] Instance InitCall_eq_dec : EqDecision InitCall.
Proof. solve_decision. Defined.

Inductive BootEvent :=
| Call (c : InitCall)
| Preload (t : Q) (e : PreloaderEvent).

(** Lines 650-655, in this order. *)
Definition base_inits : list InitCall :=
  [InitLenis; InitThreeJS; InitCursor; InitMobileNav; InitResizeHandler;
   InitVisibilityHandler].

(** Lines 658-661 and 664-667, in this order. *)
Definition page_effects : list InitCall :=
  [InitScrollAnimations; InitHeroAnimations; InitMagneticButtons; InitPageTransitions].

Definition is_page_effect (e : BootEvent) : bool :=
  match e with Call c => bool_decide (c ∈ page_effects) | Preload _ _ => false end.

Definition is_preload (e : BootEvent) : bool :=
  match e with Preload _ _ => true | Call _ => false end.

Definition calls (c : InitCall) (e : BootEvent) : bool :=
  match e with Call c' => bool_decide (c = c') | Preload _ _ => false end.

Section WithPreloader.
Context `{PreloaderIface}.

(** A preloader event; the completion callback runs the page effects. *)
Definition on_preloader_event (te : Q * PreloaderEvent) : list BootEvent :=
  Preload (fst te) (snd te) :: (if is_callback (snd te) then map Call page_effects else []).

(** [initApp(skipPreloader)], lines 649-670. *)
Definition initApp (skipPreloader : bool) (d : Dom) : list BootEvent :=
  map Call base_inits ++
  (if skipPreloader then map Call page_effects
   else Call InitPreloader :: flat_map on_preloader_event (preloader_run d)).

(** [!sessionStorage.getItem('visited')], line 673: [null] and [''] are falsy. *)
Definition isFirstLoad (st : gmap string string) : bool :=
  match st !! "visited" with
  | None => true
  | Some v => bool_decide (v = "")
  end.

(** Lines 673-680: one page load, from the storage the session has. *)
Definition page_load (st : gmap string string) (d : Dom)
  : gmap string string * list BootEvent :=
  if isFirstLoad st then (<["visited" := "true"]> st, initApp false d)
  else (st, initApp true d).

(** The traces of the successive page loads of one browsing session. *)
Fixpoint session (st : gmap string string) (ds : list Dom) : list (list BootEvent) :=
  match ds with
  | [] => []
  | d :: ds' => let '(st', tr) := page_load st d in tr :: session st' ds'
  end.

Definition runs_preloader (tr : list BootEvent) : bool :=
  existsb (calls InitPreloader) tr.

Definition preload_of (te : Q * PreloaderEvent) : BootEvent := Preload (fst te) (snd te).

Lemma flat_map_on_preloader_event pre :
  Forall (fun te => is_callback (snd te) = false) pre ->
  flat_map on_preloader_event pre = map preload_of pre.
Proof.
  induction 1 as [|te pre Hte Hpre IH]; [reflexivity|].
  cbn [flat_map map]. rewrite IH. unfold on_preloader_event at 1. rewrite Hte. reflexivity.
Qed.

Lemma count_calls_preloads c evs : count_if (calls c) (map preload_of evs) = 0%nat.
Proof. apply count_if_none. intros x Hx. apply in_map_iff in Hx as [te [<- _]]. reflexivity. Qed.

Lemma isFirstLoad_after_insert st : isFirstLoad (<["visited" := "true"]> st) = false.
Proof. unfold isFirstLoad. rewrite lookup_insert_eq. reflexivity. Qed.

Lemma runs_preloader_initApp skip d : runs_preloader (initApp skip d) = negb skip.
Proof.
  unfold runs_preloader, initApp. rewrite existsb_app.
  destruct skip; reflexivity.
Qed.

Lemma session_not_first st ds :
  isFirstLoad st = false -> map runs_preloader (session st ds) = repeat false (length ds).
Proof.
  intros Hst. induction ds as [|d ds IH]; [reflexivity|].
  cbn [session]. unfold page_load. rewrite Hst. cbv beta iota. cbn [map].
  rewrite runs_preloader_initApp, IH. reflexivity.
Qed.

(** C1: in a browsing session that starts without the ["visited"]
    flag, the preloader sequence is started on the first page load and
    on no later one. *)
Theorem session_preloader_first_only st ds :
  isFirstLoad st = true ->
  map runs_preloader (session st ds) =
    match ds with [] => [] | _ :: ds' => true :: repeat false (length ds') end.
Proof.
  intros Hst. destruct ds as [|d ds]; [reflexivity|].
  cbn [session]. unfold page_load. rewrite Hst. cbv beta iota. cbn [map].
  rewrite runs_preloader_initApp, session_not_first by apply isFirstLoad_after_insert.
  reflexivity.
Qed.

(** C2: on a load that plays the preloader, [initApp] calls the six
    base initializers in source order, then [initPreloader]; the
    preloader's events follow, the completion callback last, and only
    after it the four page effects run, in source order. *)
Theorem initApp_effects_after_preloader d :
  exists evs t,
    Forall (fun te => is_callback (snd te) = false) evs /\
    initApp false d =
      map Call base_inits ++ Call InitPreloader ::
      map preload_of evs ++ Preload t PCallback :: map Call page_effects.
Proof.
  destruct (preloader_callback_last d) as (pre & t & Heq & Hf).
  exists pre, t. split; [exact Hf|].
  unfold initApp. rewrite Heq, flat_map_app, flat_map_on_preloader_event by exact Hf.
  cbn [flat_map]. unfold on_preloader_event at 1. cbn. reflexivity.
Qed.

(** C3: whether or not the preloader plays, each of the four page
    effects is initialized exactly once per page load. *)
Theorem page_effects_once skip d c :
  c ∈ page_effects -> count_if (calls c) (initApp skip d) = 1%nat.
Proof.
  intros Hc.
  assert (Hcases : c = InitScrollAnimations \/ c = InitHeroAnimations \/
                   c = InitMagneticButtons \/ c = InitPageTransitions).
  { repeat (apply elem_of_cons in Hc as [Hc|Hc]; [subst; tauto|]).
    apply elem_of_nil in Hc as []. }
  destruct skip.
  - destruct Hcases as [-> | [-> | [-> | ->]]]; reflexivity.
  - destruct (preloader_callback_last d) as (pre & t & Heq & Hf).
    unfold initApp. rewrite Heq, flat_map_app, flat_map_on_preloader_event by exact Hf.
    rewrite count_if_app. cbn [count_if flat_map]. unfold on_preloader_event at 1.
    cbn [fst snd is_callback app]. rewrite count_if_app, count_calls_preloads.
    destruct Hcases as [-> | [-> | [-> | ->]]]; reflexivity.
Qed.

(** C4: if the first page of the session has no [.preloader] element,
    the flag is set all the same, so the preloader sequence (its texts
    and its exit) is never shown in that session, on any page. *)
Theorem first_page_without_preloader st d ds :
  isFirstLoad st = true -> has_preloader d = false ->
  Forall (Forall (fun e => match e with Preload _ e' => e' = PCallback | Call _ => True end))
         (session st (d :: ds)).
Proof.
  intros Hst Hd. simpl. unfold page_load. rewrite Hst. constructor.
  - unfold initApp. rewrite (preloader_absent d Hd). simpl.
    repeat constructor.
  - generalize (isFirstLoad_after_insert st). generalize (<["visited":="true"]> st).
    induction ds as [|d' ds IH]; intros st' Hst'; simpl; [constructor|].
    unfold page_load. rewrite Hst'. constructor; [|now apply IH].
    repeat constructor.
Qed.
End WithPreloader.

(** A page like [full_dom] but without the [.preloader] element. *)
Definition dom_without_preloader : Dom :=
  {| has_three_canvas := true; has_cursor := true; has_cursor_glow := true;
     has_preloader := false; has_preloader_logo := false; has_preloader_text := false;
     has_preloader_bar := false; has_page_transition := true; has_nav_toggle := true;
     has_nav_mobile := true; has_data_nav_toggle := true |}.

Lemma session_preloader_first_only_witness :
  isFirstLoad ∅ = true /\
  map runs_preloader (session ∅ [full_dom; full_dom; full_dom]) = [true; false; false].
Proof.
  split; [reflexivity|].
  apply (session_preloader_first_only ∅ [full_dom; full_dom; full_dom]). reflexivity.
Defined.

Lemma page_effects_once_witness :
  InitHeroAnimations ∈ page_effects /\
  count_if (calls InitHeroAnimations) (initApp false full_dom) = 1%nat.
Proof.
  assert (H : InitHeroAnimations ∈ page_effects) by (apply list_elem_of_In; simpl; tauto).
  split; [exact H|]. apply (page_effects_once false full_dom InitHeroAnimations H).
Defined.

Lemma first_page_without_preloader_witness :
  isFirstLoad ∅ = true /\ has_preloader dom_without_preloader = false /\
  Forall (Forall (fun e => match e with Preload _ e' => e' = PCallback | Call _ => True end))
         (session ∅ [dom_without_preloader; full_dom]).
Proof.
  split; [reflexivity|]. split; [reflexivity|].
  apply (first_page_without_preloader ∅ dom_without_preloader [full_dom]); reflexivity.
Defined.
End Bootstrap.
