(* ===== verification/Particles.v ===== *)
(** * The particle field of [initThreeJS] (src/script.js lines 57-88)

    2000 particles, each drawing five numbers from [Math.random] in the
    order of lines 69, 70, 71, 77 and 83: its radius in [[3, 15)], the
    angles [theta] and [phi] (through [Math.acos]), the colour choice
    (gold when the draw exceeds 0.75) and its size in [[0.5, 3)].  The
    three [Float32Array]s are filled at [i * 3 + k] and [i].

    The random stream, [Math.sin], [Math.cos], [Math.acos], [Math.PI] and
    three.js's [Color] conversion of a hex value to its [r, g, b] are the
    [Variable]s of the section; the theorems assume of them only what
    they use ([0 <= random k < 1]; [sin x ^ 2 + cos x ^ 2 = 1]).  The
    32-bit rounding of [Float32Array] is not modelled. *)

From Stdlib Require Import ZArith QArith Qminmax Lqa Lia List.
From S2P Require Import Prelude.
Import ListNotations.
Open Scope Q_scope.

Module Particles.

(** [const particleCount = 2000], line 59. *)
Definition particleCount : nat := 2000.

(** [0xD4AF37] and [0xF5F5F0], lines 65-66. *)
Definition goldHex : Z := 13938487.
Definition whiteHex : Z := 16119280.

(** JavaScript's [a < b] on numbers. *)
Definition Qltb (a b : Q) : bool := if Qlt_le_dec a b then true else false.

Section Generation.
Variables (sin cos acos : Q -> Q) (PI : Q).
Variable random : nat -> Q.
Variable color_rgb : Z -> Q * Q * Q.

Record Particle := mkParticle {
  p_radius : Q; p_x : Q; p_y : Q; p_z : Q; p_gold : bool; p_size : Q
}.

(** One turn of the loop of lines 68-84. *)
Definition make_particle (i : nat) : Particle :=
  let radius := random (5 * i) * 12 + 3 in
  let theta := random (5 * i + 1) * PI * 2 in
  let phi := acos (2 * random (5 * i + 2) - 1) in
  let mixRatio := random (5 * i + 3) in
  {| p_radius := radius;
     p_x := radius * sin phi * cos theta;
     p_y := radius * sin phi * sin theta;
     p_z := radius * cos phi - 8;
     p_gold := Qltb (3#4) mixRatio;
     p_size := random (5 * i + 4) * (5#2) + (1#2) |}.

Definition particle_rgb (p : Particle) : Q * Q * Q :=
  color_rgb (if p_gold p then goldHex else whiteHex).

(** The three buffers, lines 61-63 and 73-83. *)
Definition positions (n : nat) : list Q :=
  flat_map (fun i => let p := make_particle i in [p_x p; p_y p; p_z p]) (seq 0 n).

Definition colors (n : nat) : list Q :=
  flat_map (fun i => let c := particle_rgb (make_particle i) in
                     [fst (fst c); snd (fst c); snd c]) (seq 0 n).

Definition sizes (n : nat) : list Q := map (fun i => p_size (make_particle i)) (seq 0 n).

(** The displacement of the vertex shader, lines 110-114: [pos.y]
    moves with the attribute [position.x], [pos.x] with [position.y];
    [z] is untouched. *)
Definition vertex_pos (uTime uIntensity x y z : Q) : Q * Q * Q :=
  (x + cos (uTime * (1#5) + y * (1#5)) * (1#10) * uIntensity,
   y + sin (uTime * (3#10) + x * (1#5)) * (1#10) * uIntensity,
   z).

Lemma positions_nth n i k :
  (i < n)%nat -> (k < 3)%nat ->
  nth_error (positions n) (3 * i + k) =
    nth_error (let p := make_particle i in [p_x p; p_y p; p_z p]) k.
Proof. intros Hi Hk. unfold positions. rewrite (flat_map_seq_chunk 3); reflexivity || assumption. Qed.

Lemma sizes_nth n i : (i < n)%nat -> nth_error (sizes n) i = Some (p_size (make_particle i)).
Proof. intros Hi. unfold sizes. rewrite nth_error_map, nth_error_seq. apply Nat.ltb_lt in Hi. rewrite Hi. reflexivity. Qed.

Section Trig.
Hypothesis random_unit : forall k, 0 <= random k < 1.
Hypothesis pythagoras : forall a, sin a * sin a + cos a * cos a == 1.

Lemma trig_bounds a : within 1 (sin a) /\ within 1 (cos a).
Proof. pose proof (pythagoras a). split; qsolve. Qed.

Lemma make_particle_shell i :
  let p := make_particle i in
  p_x p * p_x p + p_y p * p_y p + (p_z p + 8) * (p_z p + 8) == p_radius p * p_radius p.
Proof.
  unfold make_particle; cbn [p_x p_y p_z p_radius]. set (r := random (5 * i) * 12 + 3). set (phi := acos _). set (th := random _ * PI * 2).
  transitivity (r * r * (sin phi * sin phi * (sin th * sin th + cos th * cos th) + cos phi * cos phi));
    [ring|]. rewrite pythagoras.
  transitivity (r * r * (sin phi * sin phi + cos phi * cos phi)); [ring|]. rewrite pythagoras. ring.
Qed.

(** C11: every particle of the cloud lies in the spherical shell of
    radii 3 (included) and 15 (excluded) around [(0, 0, -8)], and every
    particle size is in [[0.5, 3)], whatever [Math.random] returns in
    [[0, 1)]. *)
Theorem particles_in_shell i x y z sz :
  (i < particleCount)%nat ->
  nth_error (positions particleCount) (3 * i) = Some x ->
  nth_error (positions particleCount) (3 * i + 1) = Some y ->
  nth_error (positions particleCount) (3 * i + 2) = Some z ->
  nth_error (sizes particleCount) i = Some sz ->
  9 <= x * x + y * y + (z + 8) * (z + 8) < 225 /\ 1#2 <= sz < 3.
Proof.
  intros Hi Hx Hy Hz Hs. generalize dependent particleCount. intros n Hi Hx Hy Hz Hs.
  rewrite <- (PeanoNat.Nat.add_0_r (3 * i)), positions_nth in Hx by lia.
  rewrite positions_nth in Hy, Hz by lia. rewrite sizes_nth in Hs by exact Hi.
  cbn [nth_error] in Hx, Hy, Hz.
  replace x with (p_x (make_particle i)) by congruence. replace y with (p_y (make_particle i)) by congruence.
  replace z with (p_z (make_particle i)) by congruence. replace sz with (p_size (make_particle i)) by congruence.
  rewrite (make_particle_shell i).
  change (p_radius (make_particle i)) with (random (5 * i) * 12 + 3).
  change (p_size (make_particle i)) with (random (5 * i + 4) * (5#2) + (1#2)).
  destruct (random_unit (5 * i)), (random_unit (5 * i + 4)).
  set (r := random (5 * i) * 12 + 3). assert (3 <= r < 15) by (unfold r; lra).
  assert (0 <= (15 - r) * (r - 3)) by (apply Qmult_le_0_compat; lra).
  clearbody r. split; split; [nra|lra|lra|lra].
Qed.

(** The vertex shader moves each particle by at most
    [0.1 * uIntensity] along [x] and along [y], and not along [z]. *)
Theorem vertex_displacement_bound uTime uIntensity x y z :
  0 <= uIntensity ->
  let '(x', y', z') := vertex_pos uTime uIntensity x y z in
  within (uIntensity / 10) (x' - x) /\ within (uIntensity / 10) (y' - y) /\ z' = z.
Proof.
  intros HI. simpl. unfold Qdiv. change (/ 10) with (1#10).
  destruct (trig_bounds (uTime * (1#5) + y * (1#5))) as [_ Hc].
  destruct (trig_bounds (uTime * (3#10) + x * (1#5))) as [Hs _].
  split; [|split; [|reflexivity]]; qsolve.
Qed.
End Trig.

End Generation.

(** A concrete environment: a constant draw of one half and the angle
    whose sine and cosine are [3/5] and [4/5]. *)
Definition half_random (_ : nat) : Q := 1#2.
Definition sin35 (_ : Q) : Q := 3#5.
Definition cos45 (_ : Q) : Q := 4#5.
Definition grey (_ : Z) : Q * Q * Q := (1#2, 1#2, 1#2).

Lemma particles_in_shell_witness :
  exists x y z sz,
  nth_error (positions sin35 cos45 (fun _ => 0) 0 half_random particleCount) (3 * 5) = Some x /\
  nth_error (positions sin35 cos45 (fun _ => 0) 0 half_random particleCount) (3 * 5 + 1) = Some y /\
  nth_error (positions sin35 cos45 (fun _ => 0) 0 half_random particleCount) (3 * 5 + 2) = Some z /\
  nth_error (sizes sin35 cos45 (fun _ => 0) 0 half_random particleCount) 5 = Some sz /\
  9 <= x * x + y * y + (z + 8) * (z + 8) < 225 /\ 1#2 <= sz < 3.
Proof.
  do 4 eexists. split; [reflexivity|]. split; [reflexivity|]. split; [reflexivity|].
  split; [reflexivity|].
  apply (particles_in_shell sin35 cos45 (fun _ => 0) 0 half_random
           (fun k => conj (Qle_bool_imp_le 0 (1#2) eq_refl) eq_refl)
           (fun a => eq_refl) 5);
    [unfold particleCount; lia|reflexivity..].
Defined.

End Particles.
