(* ===== verification/FrameLoop.v ===== *)
(** * The atmospheric background: [initThreeJS] and [animateThreeJS]
      (src/script.js lines 36-203)

    The module-level variables of lines 36-40 ([mouse], [time], the
    camera, the particle cloud, the three rings) become the record
    [Three]; the [mousemove] listener of lines 162-165 is
    [onMouseMove]; one call of [animateThreeJS] (lines 171-203) is one
    [animateThreeJS] step.  [initThreeJS] returns early without a
    [#three-canvas]; otherwise it sizes the camera and the renderer to
    the window (lines 47-55), builds the particle buffers of
    [Particles], the shader uniforms (lines 92-97) and the rings of lines
    150-157, puts the camera at [z = 5] and starts the loop.  The
    renderer state the resize handler rewrites is the sub-record [View];
    what no handler changes after [initThreeJS] is [Setup].

    [Math.sin], [Math.cos], [Math.acos], [Math.PI], [Math.random],
    three.js's [Color] and the window's [innerWidth], [innerHeight] and
    [devicePixelRatio] are [Variable]s of the section.  The WebGL calls
    ([renderer.render], [camera.lookAt]) are library calls;
    [frames_rendered] counts them. *)

From Stdlib Require Import ZArith QArith Qminmax Lqa Lia List.
From S2P Require Import Prelude Dom Particles.
Import ListNotations.
Open Scope Q_scope.

Module FrameLoop.

(** [let mouse = { x: 0, y: 0, targetX: 0, targetY: 0 }], line 38. *)
Record Mouse := mkMouse { mx : Q; my : Q; targetX : Q; targetY : Q }.

(** One sonar ring, lines 150-157. *)
Record Ring := mkRing { ring_z : Q; ring_scale : Q; ring_opacity : Q; ring_rot_z : Q }.

(** What the [resize] listener rewrites: [camera.aspect], the
    renderer's size and pixel ratio, the [uPixelRatio] uniform. *)
Record View := mkView {
  camera_aspect : Q;
  renderer_width : Q; renderer_height : Q;
  pixel_ratio : Q;
  u_pixel_ratio : Q
}.

(** What [initThreeJS] sets once: clear colour, fog, the [uIntensity]
    uniform and the particle buffers. *)
Record Setup := mkSetup {
  clear_color : Z;
  fog : Z * Q * Q;            (** [new THREE.Fog(color, near, far)] *)
  u_intensity : Q;
  buf_position : list Q; buf_color : list Q; buf_size : list Q
}.

(** The state [animateThreeJS] reads and writes. *)
Record Three := mkThree {
  time : Q;                   (** [let time], line 39 *)
  mouse : Mouse;
  cam_x : Q; cam_y : Q; cam_z : Q;
  u_time : Q;                 (** [uniforms.uTime.value] *)
  u_mouse_x : Q; u_mouse_y : Q;  (** [uniforms.uMouse.value] *)
  part_rot_x : Q; part_rot_y : Q;
  rings : list Ring;
  frames_rendered : nat;      (** calls of [renderer.render] *)
  view : View;
  setup : Setup
}.

(** [Math.min(window.devicePixelRatio, 2)], lines 51, 95, 623, 625. *)
Definition capped_ratio (dpr : Q) : Q := Qmin dpr 2.

(** The view for a window of the given size, lines 47, 50-51, 95 and
    620-625 alike. *)
Definition view_for (innerWidth innerHeight dpr : Q) : View :=
  mkView (innerWidth / innerHeight) innerWidth innerHeight (capped_ratio dpr) (capped_ratio dpr).

Definition set_view (v : View) (s : Three) : Three :=
  {| time := time s; mouse := mouse s; cam_x := cam_x s; cam_y := cam_y s; cam_z := cam_z s;
     u_time := u_time s; u_mouse_x := u_mouse_x s; u_mouse_y := u_mouse_y s;
     part_rot_x := part_rot_x s; part_rot_y := part_rot_y s; rings := rings s;
     frames_rendered := frames_rendered s; view := v; setup := setup s |}.

(** The [mousemove] listener, lines 162-165. *)
Definition onMouseMove (innerWidth innerHeight clientX clientY : Q) (m : Mouse) : Mouse :=
  {| mx := mx m; my := my m;
     targetX := (clientX / innerWidth) * 2 - 1;
     targetY := - (clientY / innerHeight) * 2 + 1 |}.

(** Ring [i] of the loop of lines 150-157. *)
Definition make_ring (i : nat) : Ring :=
  let q := inject_Z (Z.of_nat i) in
  {| ring_z := -8 - q * 3; ring_scale := 1 + q * (4#5);
     ring_opacity := (3#50) - q * (3#200); ring_rot_z := 0 |}.

(** [i % 2 === 0 ? 1 : -1], line 199. *)
Definition ring_dir (i : nat) : Q := if Nat.even i then 1 else -1.

(** [rings.forEach((ring, i) => { ring.rotation.z = time * 0.05 * ... })],
    lines 198-200, from index [i]. *)
Fixpoint spin_rings_from (i : nat) (t : Q) (rs : list Ring) : list Ring :=
  match rs with
  | [] => []
  | r :: rs' => {| ring_z := ring_z r; ring_scale := ring_scale r;
                   ring_opacity := ring_opacity r;
                   ring_rot_z := t * (1#20) * ring_dir i |} :: spin_rings_from (S i) t rs'
  end.

Definition spin_rings (t : Q) (rs : list Ring) : list Ring := spin_rings_from 0 t rs.

Section Frame.
Variables (sin cos acos : Q -> Q) (PI : Q) (random : nat -> Q) (color_rgb : Z -> Q * Q * Q).
Variables innerWidth innerHeight devicePixelRatio : Q.

(** One frame, lines 171-203, statement by statement: the clock
    (0.005), the pointer smoothing (0.04), the uniforms, the particle
    rotation, the camera easing (0.015) toward the new pointer, the
    rings, the render. *)
Definition animateThreeJS (s : Three) : Three :=
  let t := time s + (1#200) in
  let m := mouse s in
  let x := mx m ~[1#25]~> targetX m in
  let y := my m ~[1#25]~> targetY m in
  {| time := t;
     mouse := mkMouse x y (targetX m) (targetY m);
     u_time := t; u_mouse_x := x; u_mouse_y := y;
     part_rot_y := t * (3#100);
     part_rot_x := sin (t * (2#25)) * (2#25);
     cam_x := cam_x s ~[3#200]~> (x * (2#5));
     cam_y := cam_y s ~[3#200]~> (y * (1#4));
     cam_z := cam_z s;
     rings := spin_rings t (rings s);
     frames_rendered := S (frames_rendered s);
     view := view s; setup := setup s |}.

(** [initThreeJS]: nothing without the canvas (line 44); otherwise the
    window's view, clear colour [0x050505] (line 52), fog
    [(0x050505, 1, 18)] (line 55), the particle buffers, the uniforms
    [uTime = 0], [uMouse = (0, 0)], [uIntensity = 1], three rings, camera
    at [z = 5] (line 159), and then the first frame, which line 168 runs
    synchronously. *)
Definition initThreeJS (d : Dom) : option Three :=
  if has_three_canvas d then
    Some (animateThreeJS {| time := 0; mouse := mkMouse 0 0 0 0; cam_x := 0; cam_y := 0; cam_z := 5;
            u_time := 0; u_mouse_x := 0; u_mouse_y := 0; part_rot_x := 0; part_rot_y := 0;
            rings := map make_ring (seq 0 3); frames_rendered := 0;
            view := view_for innerWidth innerHeight devicePixelRatio;
            setup := {| clear_color := 328965; fog := (328965%Z, 1, 18); u_intensity := 1;
                        buf_position := Particles.positions sin cos acos PI random Particles.particleCount;
                        buf_color := Particles.colors sin cos acos PI random color_rgb Particles.particleCount;
                        buf_size := Particles.sizes sin cos acos PI random Particles.particleCount |} |})
  else None.

(** What reaches the background: pointer moves and display frames. *)
Inductive FEvent :=
| MouseMove (clientX clientY : Q)
| AnimationFrame.

Definition frame_step (s : Three) (e : FEvent) : Three :=
  match e with
  | MouseMove cx cy =>
      {| time := time s; mouse := onMouseMove innerWidth innerHeight cx cy (mouse s);
         cam_x := cam_x s; cam_y := cam_y s; cam_z := cam_z s; u_time := u_time s;
         u_mouse_x := u_mouse_x s; u_mouse_y := u_mouse_y s; part_rot_x := part_rot_x s;
         part_rot_y := part_rot_y s; rings := rings s; frames_rendered := frames_rendered s;
         view := view s; setup := setup s |}
  | AnimationFrame => animateThreeJS s
  end.

(** A pointer event inside the viewport. *)
Definition in_viewport (e : FEvent) : Prop :=
  match e with
  | MouseMove cx cy => 0 <= cx <= innerWidth /\ 0 <= cy <= innerHeight
  | AnimationFrame => True
  end.

(** The ranges the spec promises: smoothed and raw pointer in
    [[-1, 1]], camera offset within [0.4] and [0.25], clock nonnegative. *)
Definition frame_inv (s : Three) : Prop :=
  within 1 (mx (mouse s)) /\ within 1 (my (mouse s)) /\
  within 1 (targetX (mouse s)) /\ within 1 (targetY (mouse s)) /\
  within (2#5) (cam_x s) /\ within (1#4) (cam_y s) /\ 0 <= time s.

Lemma unit_ratio (a w : Q) : 0 < w -> 0 <= a <= w -> 0 <= a / w <= 1.
Proof.
  intros Hw [Ha0 Ha1]. split.
  - apply Qle_shift_div_l; [exact Hw|]. lra.
  - apply Qle_shift_div_r; [exact Hw|]. lra.
Qed.

Lemma onMouseMove_within w h cx cy m :
  0 < w -> 0 < h -> 0 <= cx <= w -> 0 <= cy <= h ->
  within 1 (targetX (onMouseMove w h cx cy m)) /\ within 1 (targetY (onMouseMove w h cx cy m)).
Proof.
  intros Hw Hh Hx Hy. simpl.
  pose proof (unit_ratio cx w Hw Hx). pose proof (unit_ratio cy h Hh Hy). qsolve.
Qed.

Lemma animateThreeJS_inv s : frame_inv s -> frame_inv (animateThreeJS s).
Proof.
  unfold frame_inv. intros (Hx & Hy & Htx & Hty & Hcx & Hcy & Ht). simpl.
  assert (Hx' : within 1 (mx (mouse s) ~[1#25]~> targetX (mouse s))) by (apply lerp_within; qsolve).
  assert (Hy' : within 1 (my (mouse s) ~[1#25]~> targetY (mouse s))) by (apply lerp_within; qsolve).
  repeat split; try (apply lerp_within; qsolve); qsolve.
Qed.

Hypothesis viewport_pos : 0 < innerWidth /\ 0 < innerHeight.

Lemma frame_step_inv s e : in_viewport e -> frame_inv s -> frame_inv (frame_step s e).
Proof.
  destruct e as [cx cy|]; simpl; [|intros _; apply animateThreeJS_inv].
  intros [Hcx Hcy] Hs. destruct viewport_pos as [Hw Hh].
  destruct (onMouseMove_within innerWidth innerHeight cx cy (mouse s) Hw Hh Hcx Hcy).
  unfold frame_inv in *. simpl. tauto.
Qed.

(** C7: from the state [initThreeJS] sets up, after any sequence of
    pointer moves inside a nonempty viewport and display frames, the raw
    and smoothed pointer stay in [[-1, 1]], the camera offset within
    [0.4] horizontally and [0.25] vertically, and the clock nonnegative. *)
Theorem background_ranges d s0 es :
  initThreeJS d = Some s0 -> Forall in_viewport es -> frame_inv (run frame_step s0 es).
Proof.
  intros Hinit Hes. apply (run_preserves_on frame_step in_viewport frame_inv frame_step_inv es s0 Hes).
  unfold initThreeJS in Hinit. destruct (has_three_canvas d); inversion Hinit; subst.
  apply animateThreeJS_inv. unfold frame_inv; simpl; qsolve.
Qed.

(** [n] display frames with no pointer event. *)
Definition frames (n : nat) (s : Three) : Three := run frame_step s (repeat AnimationFrame n).

(** C8: over [n] frames without pointer events the clock advances by
    exactly [n * 0.005], [n] frames are rendered, and the smoothed
    pointer's distance to its target shrinks by the factor [0.96] per
    frame, on both axes. *)
Theorem frames_clock_and_pointer n : forall s,
  time (frames n s) == time s + inject_Z (Z.of_nat n) * (1#200) /\
  frames_rendered (frames n s) = (frames_rendered s + n)%nat /\
  mx (mouse (frames n s)) - targetX (mouse s) ==
    qpow (24#25) n * (mx (mouse s) - targetX (mouse s)) /\
  my (mouse (frames n s)) - targetY (mouse s) ==
    qpow (24#25) n * (my (mouse s) - targetY (mouse s)).
Proof.
  induction n as [|n IH]; intros s.
  - unfold frames. simpl. repeat split; [ring|lia|ring|ring].
  - unfold frames. cbn [repeat]. rewrite run_cons. fold (frames n (frame_step s AnimationFrame)).
    destruct (IH (animateThreeJS s)) as (Ht & Hf & Hx & Hy). cbn -[Qmult Qplus Qminus] in *.
    repeat split.
    + rewrite Ht. setoid_rewrite inject_Z_S. ring.
    + rewrite Hf. lia.
    + rewrite Hx, lerp_error. ring.
    + rewrite Hy, lerp_error. ring.
Qed.

Lemma ring_dir_S i : ring_dir (S i) == - ring_dir i.
Proof. unfold ring_dir. rewrite Nat.even_succ, <- Nat.negb_even. destruct (Nat.even i); reflexivity. Qed.

Lemma spin_rings_from_nth k t rs i r :
  nth_error (spin_rings_from k t rs) i = Some r -> ring_rot_z r = t * (1#20) * ring_dir (k + i).
Proof.
  revert k i. induction rs as [|r' rs IH]; intros k [|i] H; simpl in H; try discriminate.
  - inversion H. simpl. rewrite Nat.add_0_r. reflexivity.
  - rewrite (IH _ _ H). do 2 f_equal. lia.
Qed.

(** After every frame, neighbouring rings turn by the same angle
    [time * 0.05] in opposite directions. *)
Theorem rings_counter_rotate s i r1 r2 :
  nth_error (rings (animateThreeJS s)) i = Some r1 ->
  nth_error (rings (animateThreeJS s)) (S i) = Some r2 ->
  ring_rot_z r1 == - ring_rot_z r2 /\
  (ring_rot_z r1 == time (animateThreeJS s) * (1#20) \/
   ring_rot_z r1 == - (time (animateThreeJS s) * (1#20))).
Proof.
  unfold animateThreeJS. cbn [rings time]. unfold spin_rings. intros H1 H2.
  rewrite (spin_rings_from_nth _ _ _ _ _ H1), (spin_rings_from_nth _ _ _ _ _ H2), !Nat.add_0_l.
  setoid_rewrite ring_dir_S. unfold ring_dir.
  destruct (Nat.even i); (split; [ring|]); [left|right]; ring.
Qed.

End Frame.

(** A 1280x720 window at device pixel ratio 2, with the concrete
    environment of [Particles]. *)
Definition init_1280x720 (d : Dom) : option Three :=
  initThreeJS Particles.sin35 Particles.cos45 (fun _ => 0) 0 Particles.half_random Particles.grey
    1280 720 2 d.

Definition initial_three : Three :=
  match init_1280x720 full_dom with
  | Some s => s
  | None => mkThree 0 (mkMouse 0 0 0 0) 0 0 0 0 0 0 0 0 [] 0 (view_for 1 1 1) (mkSetup 0 (0%Z, 0, 0) 0 [] [] [])
  end.

Lemma background_ranges_witness :
  init_1280x720 full_dom = Some initial_three /\
  frame_inv (run (frame_step Particles.sin35 1280 720) initial_three
               [MouseMove 640 100; AnimationFrame; AnimationFrame]).
Proof.
  split; [reflexivity|].
  apply (background_ranges Particles.sin35 Particles.cos45 (fun _ => 0) 0 Particles.half_random
           Particles.grey 1280 720 2 (conj eq_refl eq_refl) full_dom); [reflexivity|].
  repeat constructor; simpl; discriminate.
Defined.

End FrameLoop.
