(* ===== verification/NavToggle.v ===== *)
(** * The navigation toggle of [src/site.js]

    The IIFE finds the first [[data-nav-toggle]] element and returns
    without one (line 3).  Otherwise it closes the navigation (line 18)
    and installs three listeners: [click] on the toggle (lines 20-23),
    [keydown] on the window (lines 26-28) and [click] on the document
    (lines 31-41).  The state is two strings in the DOM:
    [document.body.dataset.navOpen] and the toggle's [aria-expanded]
    attribute; [isOpen] compares the first with ['true'].

    A click is dispatched the way the browser bubbles it: the toggle's
    listener runs first when the target is inside the toggle, then the
    document's.  A click target is described by the [closest] queries
    the code makes on it.

    [Spec] is the transition table of spec section 4.7 on a boolean;
    [nav_refines] shows that, on a page with one toggle that is not a
    link of the menu, every event moves the DOM strings exactly as the
    table moves the boolean. *)

From Stdlib Require Import Bool String List.
From S2P Require Import Prelude Dom.
Import ListNotations.
Open Scope string_scope.

Module NavToggle.

(** [document.body.dataset.navOpen], the toggle's [aria-expanded], and
    whether the listeners were installed. *)
Record NavState := mkNav {
  navOpen : option string;
  ariaExpanded : option string;
  installed : bool
}.

(** A click target, by what [target.closest(...)] finds (lines 33-39) and
    whether the toggle's own listener is on its propagation path. *)
Record ClickTarget := mkTarget {
  is_element : bool;        (** [target instanceof Element] *)
  in_toggle_el : bool;      (** inside the first [[data-nav-toggle]], [navToggle] *)
  in_any_toggle : bool;     (** [target.closest('[data-nav-toggle]')] *)
  in_nav_link : bool;       (** [target.closest('.nav-links a')] *)
  in_nav_links : bool       (** [target.closest('.nav-links')] *)
}.

Inductive NavEvent :=
| Click (t : ClickTarget)
| KeyDown (key : string).

(** [closeNav], lines 5-8. *)
Definition closeNav (s : NavState) : NavState :=
  {| navOpen := Some "false"; ariaExpanded := Some "false"; installed := installed s |}.

(** [openNav], lines 10-13. *)
Definition openNav (s : NavState) : NavState :=
  {| navOpen := Some "true"; ariaExpanded := Some "true"; installed := installed s |}.

(** [isOpen], line 15. *)
Definition isOpen (s : NavState) : bool :=
  match navOpen s with Some v => String.eqb v "true" | None => false end.

(** The IIFE, lines 1-18: nothing without a toggle, else closed. *)
Definition init (has_toggle : bool) (s : NavState) : NavState :=
  if has_toggle then closeNav {| navOpen := navOpen s; ariaExpanded := ariaExpanded s;
                                 installed := true |}
  else s.

(** The toggle's [click] listener, lines 20-23. *)
Definition onToggleClick (s : NavState) : NavState :=
  if isOpen s then closeNav s else openNav s.

(** The window's [keydown] listener, lines 26-28. *)
Definition onKeyDown (key : string) (s : NavState) : NavState :=
  if String.eqb key "Escape" then closeNav s else s.

(** The document's [click] listener, lines 31-41: the nav-link close,
    then the outside-click close, which reads [isOpen] again. *)
Definition onDocumentClick (t : ClickTarget) (s : NavState) : NavState :=
  if negb (is_element t) then s
  else
    let s1 := if in_nav_link t then closeNav s else s in
    if negb (in_any_toggle t) && negb (in_nav_links t) && isOpen s1 then closeNav s1 else s1.

(** One event, delivered to the listeners on its path in bubbling order. *)
Definition dispatch (s : NavState) (e : NavEvent) : NavState :=
  if negb (installed s) then s
  else match e with
       | Click t => onDocumentClick t (if in_toggle_el t then onToggleClick s else s)
       | KeyDown k => onKeyDown k s
       end.

(** ** The specification's transition table (section 4.7) *)

Module Spec.
Inductive Input :=
| ToggleClick | EscapeKey | OtherKey | NavLinkClick | InsideMenuClick | OutsideClick
| NonElementClick.

Definition step (open : bool) (i : Input) : bool :=
  match i with
  | ToggleClick => negb open
  | EscapeKey | NavLinkClick | OutsideClick => false
  | OtherKey | InsideMenuClick | NonElementClick => open
  end.
End Spec.

(** Which row of the table a concrete event is. *)
Definition classify (e : NavEvent) : Spec.Input :=
  match e with
  | KeyDown k => if String.eqb k "Escape" then Spec.EscapeKey else Spec.OtherKey
  | Click t =>
      if in_toggle_el t then Spec.ToggleClick
      else if negb (is_element t) then Spec.NonElementClick
      else if in_nav_link t then Spec.NavLinkClick
      else if in_nav_links t then Spec.InsideMenuClick
      else Spec.OutsideClick
  end.

(** The page has a single toggle, it is not a link of the menu, and the
    [closest] answers are those of one DOM tree. *)
Definition well_formed (e : NavEvent) : Prop :=
  match e with
  | KeyDown _ => True
  | Click t =>
      (in_toggle_el t = true -> is_element t = true -> in_any_toggle t = true) /\
      (in_any_toggle t = true -> in_toggle_el t = true) /\
      (in_toggle_el t = true -> in_nav_link t = false) /\
      (in_nav_link t = true -> in_nav_links t = true)
  end.

(** The two attributes agree and hold ['true'] or ['false']. *)
Definition consistent (s : NavState) : Prop :=
  installed s = true /\
  ((navOpen s = Some "true" /\ ariaExpanded s = Some "true") \/
   (navOpen s = Some "false" /\ ariaExpanded s = Some "false")).

(** Discharges the impossible combinations of [closest] answers. *)
Ltac wf_cases :=
  repeat match goal with
         | H : true = true -> _ |- _ => specialize (H eq_refl)
         | H : false = true -> _ |- _ => clear H
         | H : _ /\ _ |- _ => destruct H
         end; try discriminate.

Ltac solve_consistent :=
  unfold consistent; simpl;
  split; [reflexivity|first [left; split; reflexivity | right; split; reflexivity]].

Lemma consistent_cases s :
  consistent s ->
  s = mkNav (Some "true") (Some "true") true \/ s = mkNav (Some "false") (Some "false") true.
Proof.
  destruct s as [no ae inst]. unfold consistent. simpl.
  intros [-> [[-> ->]|[-> ->]]]; [left|right]; reflexivity.
Qed.

Lemma dispatch_consistent s e : consistent s -> consistent (dispatch s e).
Proof.
  intros Hs. destruct (consistent_cases s Hs) as [->| ->];
    destruct e as [[[] [] [] [] []]|k]; cbn; unfold onKeyDown;
    try (destruct (String.eqb k "Escape")); solve_consistent.
Qed.

Lemma dispatch_refines s e :
  consistent s -> well_formed e -> isOpen (dispatch s e) = Spec.step (isOpen s) (classify e).
Proof.
  intros Hs Hwf. destruct (consistent_cases s Hs) as [->| ->];
    destruct e as [[[] [] [] [] []]|k]; cbn in Hwf |- *; unfold onKeyDown; wf_cases;
    try reflexivity; destruct (String.eqb k "Escape"); reflexivity.
Qed.

(** C12: once [site.js] has run on a page with a toggle, the two
    attributes it maintains ([data-nav-open] on the body,
    [aria-expanded] on the toggle) always agree and hold ['true'] or
    ['false'], whatever events follow and whatever the markup held before;
    right after the script runs the navigation is closed. *)
Theorem nav_attributes_consistent s0 es :
  let s := init true s0 in
  isOpen s = false /\ consistent (run dispatch s es).
Proof.
  split; [reflexivity|].
  apply run_preserves; [apply dispatch_consistent|solve_consistent].
Qed.

(** C13: on a page with one toggle that is not a link of the menu,
    every trace of clicks and key presses moves the DOM state exactly as
    the transition table of spec section 4.7 moves an open/closed flag:
    toggle click flips, Escape, a menu link or an outside click close,
    a click inside the menu elsewhere or another key changes nothing. *)
Theorem nav_refines es : forall s,
  consistent s -> Forall well_formed es ->
  isOpen (run dispatch s es) = run Spec.step (isOpen s) (map classify es).
Proof.
  induction es as [|e es IH]; intros s Hs Hes; [reflexivity|].
  inversion Hes; subst. simpl.
  rewrite IH by auto using dispatch_consistent.
  rewrite dispatch_refines by assumption. reflexivity.
Qed.

(** Without a [[data-nav-toggle]] element the script installs no
    listener, and no event ever changes the navigation state. *)
Theorem no_toggle_inert s0 es :
  installed s0 = false -> run dispatch (init false s0) es = s0.
Proof.
  intros H. simpl. induction es as [|e es IH]; [reflexivity|].
  simpl. unfold dispatch at 2. rewrite H. exact IH.
Qed.

(** C14: only the first [[data-nav-toggle]] element gets the click
    listener; a click on any other toggle control that is not a menu
    link neither opens nor closes the navigation (the document listener
    skips toggles). *)
Theorem second_toggle_inert s t :
  consistent s -> is_element t = true -> in_toggle_el t = false ->
  in_any_toggle t = true -> in_nav_link t = false -> dispatch s (Click t) = s.
Proof.
  intros Hs He Hf Ha Hl. destruct (consistent_cases s Hs) as [->| ->];
    destruct t as [[] [] [] [] []]; cbn in *; congruence.
Qed.

(** The closed state right after the script runs, and a second toggle. *)
Definition closed_after_init : NavState := init true (mkNav None None false).
Definition second_toggle : ClickTarget := mkTarget true false true false false.
Definition toggle_click : ClickTarget := mkTarget true true true false false.

Lemma nav_refines_witness :
  consistent closed_after_init /\
  isOpen (run dispatch closed_after_init [Click toggle_click; KeyDown "Tab"]) = true.
Proof.
  assert (Hc : consistent closed_after_init) by solve_consistent.
  split; [exact Hc|].
  rewrite (nav_refines [Click toggle_click; KeyDown "Tab"] closed_after_init Hc).
  - reflexivity.
  - repeat constructor; discriminate.
Defined.

Lemma second_toggle_inert_witness :
  consistent (openNav closed_after_init) /\
  dispatch (openNav closed_after_init) (Click second_toggle) = openNav closed_after_init.
Proof.
  assert (Hc : consistent (openNav closed_after_init)) by solve_consistent.
  split; [exact Hc|]. apply second_toggle_inert; [exact Hc|reflexivity..].
Defined.

End NavToggle.
