(* ===== verification/PageTransition.v ===== *)
(** * Page transitions ([initPageTransitions], src/script.js lines 284-317)

    At initialization the code selects the links [a[href$=".html"]] and
    the [.page-transition] overlay, and returns when the overlay is
    missing (line 288).  Each selected link gets a [click] listener: an
    [href] starting with ['http'] or ['#'] is left to the browser (line
    295); any other is prevented and a 0.6 s tween moves the overlay to
    [y: 0], whose [onComplete] assigns [window.location.href] (lines
    297-306).  On load the overlay is tweened to [y: '-100%'] (lines
    311-316).

    Hrefs are [string]s; [endsWith] is the attribute-suffix selector and
    [String.prefix] is [startsWith].  The state records the overlay
    tweens started, the destinations whose cover tween is running (all
    last 0.6 s, so they complete in the order they started) and the
    navigations: the browser following a link itself ([Follow]) or the
    code assigning [location.href] ([Assign]). *)

From Stdlib Require Import Bool String List Lia PeanoNat.
From S2P Require Import Prelude Dom.
Import ListNotations.
Open Scope string_scope.
Open Scope list_scope.

Module PageTransition.

(** [s.endsWith(suffix)], as the selector [[href$=suffix]] tests it. *)
Definition endsWith (suffix s : string) : bool :=
  let n := String.length s in
  let k := String.length suffix in
  Nat.leb k n && String.eqb (substring (n - k) k s) suffix.

(** [s.startsWith(p)]. *)
Definition startsWith (p s : string) : bool := String.prefix p s.

(** The overlay tweens: the cover of a click ([y: 0]) and the reveal on
    load ([y: '-100%'], delay 0.1). *)
Inductive OverlayTween := CoverTween | RevealTween.

Inductive Navigation :=
| Follow (href : string)    (** the browser's default action on the link *)
| Assign (href : string).   (** [window.location.href = href], line 304 *)

Record PTState := mkPT {
  listening : bool;              (** the click listeners were installed *)
  tweens : list OverlayTween;
  pending : list string;         (** running cover tweens' destinations *)
  navigations : list Navigation
}.

(** [initPageTransitions], lines 284-317. *)
Definition initPageTransitions (d : Dom) : PTState :=
  if has_page_transition d then mkPT true [RevealTween] [] []
  else mkPT false [] [] [].

(** Whether a link carries the listener: selected by [a[href$=".html"]]. *)
Definition selected (href : string) : bool := endsWith ".html" href.

(** What the listener does with a click, lines 292-306. *)
Inductive ClickAction := FollowNow | CoverThenNavigate.

Definition click_action (listening : bool) (href : string) : ClickAction :=
  if listening && selected href then
    if startsWith "http" href || startsWith "#" href then FollowNow else CoverThenNavigate
  else FollowNow.

Inductive PTEvent :=
| LinkClick (href : string)
| CoverComplete.              (** the oldest running cover tween ends *)

Definition pt_step (s : PTState) (e : PTEvent) : PTState :=
  match e with
  | LinkClick h =>
      match click_action (listening s) h with
      | FollowNow => mkPT (listening s) (tweens s) (pending s) (navigations s ++ [Follow h])
      | CoverThenNavigate =>
          mkPT (listening s) (tweens s ++ [CoverTween]) (pending s ++ [h]) (navigations s)
      end
  | CoverComplete =>
      match pending s with
      | [] => s
      | h :: rest => mkPT (listening s) (tweens s) rest (navigations s ++ [Assign h])
      end
  end.

(** The destinations the code assigns, in order. *)
Definition assigned (s : PTState) : list string :=
  flat_map (fun n => match n with Assign h => [h] | Follow _ => [] end) (navigations s).

(** The clicks of a trace the listener intercepts, in order. *)
Definition intercepted (listening : bool) (es : list PTEvent) : list string :=
  flat_map (fun e => match e with
                     | LinkClick h => match click_action listening h with
                                      | CoverThenNavigate => [h] | FollowNow => [] end
                     | CoverComplete => []
                     end) es.

(** ** String lemmas *)

Open Scope string_scope.

Lemma length_append_str (p s : string) : String.length (p ++ s) = String.length p + String.length s.
Proof. induction p as [|a p IH]; simpl; [reflexivity|]. now rewrite IH. Qed.

Lemma substring_append (p s : string) n : substring (String.length p) n (p ++ s) = substring 0 n s.
Proof. induction p as [|a p IH]; simpl; [reflexivity|]. exact IH. Qed.

Lemma substring_whole (s : string) : substring 0 (String.length s) s = s.
Proof. induction s as [|a s IH]; simpl; [reflexivity|]. now rewrite IH. Qed.

(** The selector matches every href that ends with the suffix. *)
Lemma endsWith_append suffix p : endsWith suffix (p ++ suffix) = true.
Proof.
  unfold endsWith. rewrite length_append_str.
  replace (String.length p + String.length suffix - String.length suffix) with (String.length p) by lia.
  rewrite substring_append, substring_whole, String.eqb_refl, andb_true_r.
  apply PeanoNat.Nat.leb_le. lia.
Qed.

Lemma prefix_append q r : String.prefix q (q ++ r) = true.
Proof.
  induction q as [|a q IH]; simpl; [destruct r; reflexivity|].
  destruct (Ascii.ascii_dec a a); [exact IH|congruence].
Qed.

(** Appending [r] does not change whether [q] is a prefix, when no
    nonempty tail of [q] is a prefix of [r]. *)
Lemma prefix_append_noise q p r :
  (forall q1 q2, q = q1 ++ q2 -> q2 <> "" -> String.prefix q2 r = false) ->
  String.prefix q (p ++ r) = String.prefix q p.
Proof.
  revert q. induction p as [|a p IH]; intros q Hq.
  - destruct q as [|b q]; simpl; [destruct r; reflexivity|].
    apply (Hq "" (String b q)); [reflexivity|discriminate].
  - destruct q as [|b q]; simpl; [destruct (p ++ r); destruct p; reflexivity|].
    destruct (Ascii.ascii_dec b a); [|reflexivity].
    apply IH. intros q1 q2 -> Hne. apply (Hq (String b q1) q2); [reflexivity|exact Hne].
Qed.

(** A string is its first [m] characters followed by the rest. *)
Lemma substring_split s : forall m, m <= String.length s ->
  s = substring 0 m s ++ substring m (String.length s - m) s.
Proof.
  induction s as [|a s IH]; intros [|m] Hm; simpl in *; try lia; try reflexivity.
  - rewrite substring_whole. reflexivity.
  - f_equal. rewrite (IH m) at 1 by lia. reflexivity.
Qed.

Lemma endsWith_inv suffix s : endsWith suffix s = true -> exists q, s = q ++ suffix.
Proof.
  unfold endsWith. intros H. apply andb_prop in H as [Hk Hs].
  apply PeanoNat.Nat.leb_le in Hk. apply String.eqb_eq in Hs.
  exists (substring 0 (String.length s - String.length suffix) s).
  pose proof (substring_split s (String.length s - String.length suffix) ltac:(lia)) as E.
  replace (String.length s - (String.length s - String.length suffix)) with (String.length suffix) in E by lia.
  rewrite Hs in E. exact E.
Qed.

Lemma prefix_inv q s : String.prefix q s = true -> exists r, s = q ++ r.
Proof.
  revert s. induction q as [|a q IH]; intros [|b s] H; simpl in H.
  - exists ""; reflexivity.
  - exists (String b s). reflexivity.
  - discriminate.
  - destruct (Ascii.ascii_dec a b) as [<-|]; [|discriminate].
    destruct (IH s H) as [r ->]. exists r. reflexivity.
Qed.

(** Enumerates the ways of splitting a literal string. *)
Ltac split_literal :=
  let q1 := fresh "q1" in
  intros q1 ?q2 E Hne;
  repeat (destruct q1 as [|? q1]; simpl in E;
          [subst; first [reflexivity | congruence]
          |first [discriminate | injection E as ? E; subst]]).

Lemma http_html_noise p : startsWith "http" (p ++ ".html") = startsWith "http" p.
Proof. apply prefix_append_noise. split_literal. Qed.

Lemma hash_html_noise p : startsWith "#" (p ++ ".html") = startsWith "#" p.
Proof. apply prefix_append_noise. split_literal. Qed.

(** ** Properties *)

(** C15: a click on a link whose href starts with ['#'] or ['http'] is
    left to the browser, whether or not the overlay exists; a click on
    any other [.html] link is prevented and navigates only when the
    cover tween completes. *)
Theorem click_action_spec :
  (forall l rest, click_action l ("#" ++ rest) = FollowNow) /\
  (forall l rest, click_action l ("http" ++ rest) = FollowNow) /\
  (forall p, startsWith "http" p = false -> startsWith "#" p = false ->
             click_action true (p ++ ".html") = CoverThenNavigate).
Proof.
  split; [|split].
  - intros l rest. unfold click_action, startsWith.
    rewrite prefix_append, orb_true_r. destruct (l && selected _); reflexivity.
  - intros l rest. unfold click_action, startsWith.
    rewrite prefix_append. destruct (l && selected _); reflexivity.
  - intros p Hh Hs. unfold click_action, selected.
    rewrite endsWith_append, http_html_noise, hash_html_noise, Hh, Hs. reflexivity.
Qed.

(** The two string tests the link handling uses are exactly
    their textual meaning: [endsWith suffix s] (the CSS attribute
    selector [a[href$=".html"]]) holds exactly when [s] is some string
    followed by [suffix], and [startsWith p s] ([String.prototype.startsWith])
    exactly when [s] is [p] followed by some string. *)
Theorem selector_tests_spec suffix p s :
  BoolSpec (exists q, s = q ++ suffix) (~ exists q, s = q ++ suffix) (endsWith suffix s) /\
  BoolSpec (exists r, s = p ++ r) (~ exists r, s = p ++ r) (startsWith p s).
Proof.
  split.
  - destruct (endsWith suffix s) eqn:E; constructor; [apply endsWith_inv, E|].
    intros [q ->]. rewrite endsWith_append in E. discriminate.
  - unfold startsWith. destruct (String.prefix p s) eqn:E; constructor; [apply prefix_inv, E|].
    intros [r ->]. rewrite prefix_append in E. discriminate.
Qed.

Open Scope list_scope.

Lemma intercepted_cons l e es : intercepted l (e :: es) = intercepted l [e] ++ intercepted l es.
Proof. unfold intercepted. simpl. rewrite app_nil_r. reflexivity. Qed.

Lemma pt_step_progress s e :
  listening (pt_step s e) = listening s /\
  assigned (pt_step s e) ++ pending (pt_step s e) =
    assigned s ++ pending s ++ intercepted (listening s) [e].
Proof.
  unfold assigned, intercepted. destruct e as [h|]; simpl.
  - destruct (click_action (listening s) h); simpl;
      rewrite ?flat_map_app, <- ?app_assoc; simpl; rewrite ?app_nil_r; auto.
  - destruct (pending s) as [|h rest] eqn:E; simpl; rewrite ?E, ?app_nil_r; [auto|].
    rewrite flat_map_app, <- app_assoc. simpl. auto.
Qed.

Lemma run_pt_progress es : forall s,
  assigned (run pt_step s es) ++ pending (run pt_step s es) =
    assigned s ++ pending s ++ intercepted (listening s) es.
Proof.
  induction es as [|e es IH]; intros s; [simpl; rewrite app_nil_r; reflexivity|].
  destruct (pt_step_progress s e) as [Hl Hp].
  rewrite run_cons, IH, Hl, app_assoc, Hp, (intercepted_cons _ e es), <- !app_assoc.
  reflexivity.
Qed.

Lemma assigned_no_complete es : forall s,
  Forall (fun e => e <> CoverComplete) es -> assigned (run pt_step s es) = assigned s.
Proof.
  induction es as [|e es IH]; intros s Hes; [reflexivity|].
  inversion Hes as [|? ? He Hes']; subst. simpl. rewrite IH by exact Hes'.
  unfold assigned. destruct e as [h|]; [|congruence]. simpl.
  destruct (click_action (listening s) h); simpl; rewrite ?flat_map_app, ?app_nil_r; reflexivity.
Qed.

(** C16: from page load, the destinations the code assigns to
    [location.href], followed by those whose cover tween is still
    running, are exactly the intercepted clicks in click order: every
    intercepted link is navigated to once, after its cover animation,
    in order, and no other; before any cover tween completes nothing is
    assigned; and without the overlay nothing is intercepted. *)
Theorem navigation_after_cover d es :
  let s := run pt_step (initPageTransitions d) es in
  assigned s ++ pending s = intercepted (has_page_transition d) es /\
  (Forall (fun e => e <> CoverComplete) es -> assigned s = []) /\
  (has_page_transition d = false -> intercepted false es = []).
Proof.
  split; [|split].
  - rewrite run_pt_progress. unfold initPageTransitions. destruct (has_page_transition d); reflexivity.
  - intros Hes. rewrite assigned_no_complete by exact Hes.
    unfold initPageTransitions. destruct (has_page_transition d); reflexivity.
  - intros _. induction es as [|e es IH]; [reflexivity|].
    rewrite intercepted_cons, IH. destruct e; reflexivity.
Qed.

End PageTransition.
