(* ===== verification/Load.v ===== *)
(** * A page load in time: when the page effects start
      (src/script.js lines 284-317 and 649-680)

    [initApp] is an ordered trace ([Bootstrap]); the preloader's events
    carry their times ([Preloader]).  A call in the trace happens at the
    time of the last preloader event before it (the base initializers
    and the calls of a skipped preloader at 0 s, the page effects of a
    played one inside the completion callback).  [call_time] reads that
    time off the trace.

    The page transitions are one of the page effects, so their link
    listeners and their uncover tween exist only from that time on; a
    click at time [tc] meets [PageTransition]'s state as
    [initPageTransitions] left it if it has run by then, and no listener
    otherwise. *)

From Stdlib Require Import QArith Qminmax Lqa List String Bool.
From stdpp Require Import base gmap strings.
From S2P Require Import Prelude Dom Timeline Preloader Bootstrap PageTransition.
Import ListNotations Preloader Bootstrap.
Open Scope Q_scope.

Module Load.

(** When the trace reaches [Call c]: [now] is the time of the last
    preloader event passed. *)
Fixpoint call_time (c : InitCall) (now : Q) (tr : list BootEvent) : option Q :=
  match tr with
  | [] => None
  | Call c' :: tr' => if bool_decide (c = c') then Some now else call_time c now tr'
  | Preload t _ :: tr' => call_time c t tr'
  end.

(** The page transitions as a click at time [tc] finds them. *)
Definition transitions_at (tr : list BootEvent) (d : Dom) (tc : Q) : PageTransition.PTState :=
  match call_time InitPageTransitions 0 tr with
  | Some t => if Qle_bool t tc then PageTransition.initPageTransitions d
              else PageTransition.mkPT false [] [] []
  | None => PageTransition.mkPT false [] [] []
  end.

Lemma call_time_calls c now cs tr :
  ~ In c cs -> call_time c now (map Call cs ++ tr) = call_time c now tr.
Proof.
  induction cs as [|c' cs IH]; intros Hn; [reflexivity|]. cbn [map app call_time].
  rewrite bool_decide_false by (intros ->; apply Hn; left; reflexivity).
  apply IH. intros H. apply Hn. right. exact H.
Qed.

Lemma call_time_preloads c now pre tr :
  call_time c now (map preload_of pre ++ tr) = call_time c (fold_left (fun _ te => fst te) pre now) tr.
Proof. revert now. induction pre as [|te pre IH]; intros now; [reflexivity|]. apply IH. Qed.

(** On a load that plays the preloader, the page transitions start at
    the completion callback's time. *)
Lemma transitions_time_played d :
  exists t, call_time InitPageTransitions 0 (initApp false d) = Some t /\
            (has_preloader d = true -> t = tl_end preloader_timeline).
Proof.
  destruct (initPreloader_callback_last d) as (pre & t & Heq & Hf).
  exists t. unfold initApp. cbn [preloader_run Preloader_iface].
  rewrite Heq, flat_map_app, flat_map_on_preloader_event by exact Hf.
  split.
  - rewrite call_time_calls by (cbn; intuition discriminate). cbn [app call_time].
    rewrite bool_decide_false by discriminate.
    rewrite call_time_preloads. reflexivity.
  - intros Hp. unfold initPreloader in Heq. rewrite Hp in Heq. cbn [negb] in Heq.
    apply app_inj_tail in Heq as [_ Heq]. apply (f_equal fst) in Heq. cbn [fst] in Heq.
    symmetry. exact Heq.
Qed.

(** The transitions of a page with the overlay, as a click at [tc] finds
    them, once installed at [t] or not yet. *)
Lemma transitions_at_installed tr d t tc :
  call_time InitPageTransitions 0 tr = Some t -> has_page_transition d = true ->
  transitions_at tr d tc =
    if Qle_bool t tc then PageTransition.mkPT true [PageTransition.RevealTween] [] []
    else PageTransition.mkPT false [] [] [].
Proof.
  intros Ht Hpt. unfold transitions_at, PageTransition.initPageTransitions. rewrite Ht, Hpt. reflexivity.
Qed.

(** C17: on the first load of a session, on a page with [.preloader] and
    [.page-transition], the page transitions are installed only when the
    preloader completes, 5.8 s after [DOMContentLoaded]; until then a
    relative [.html] link is followed at once, with no cover, and the
    uncover tween has not started.  On later loads they are installed at
    once and every such click is covered. *)
Theorem transitions_wait_for_preloader st d tc h :
  has_preloader d = true -> has_page_transition d = true -> 0 <= tc ->
  PageTransition.selected h = true -> PageTransition.startsWith "http" h = false ->
  PageTransition.startsWith "#" h = false ->
  let tr := snd (page_load st d) in
  let early := isFirstLoad st && negb (Qle_bool (29#5) tc) in
  call_time InitPageTransitions 0 tr = Some (if isFirstLoad st then 29#5 else 0) /\
  PageTransition.click_action (PageTransition.listening (transitions_at tr d tc)) h =
    (if early then PageTransition.FollowNow else PageTransition.CoverThenNavigate) /\
  PageTransition.tweens (transitions_at tr d tc) = (if early then [] else [PageTransition.RevealTween]).
Proof.
  intros Hp Hpt Htc Hsel Hhttp Hhash. cbv zeta. unfold page_load.
  assert (Hcall : call_time InitPageTransitions 0 (snd (if isFirstLoad st
            then (<["visited":="true"]> st, initApp false d) else (st, initApp true d))) =
          Some (if isFirstLoad st then 29#5 else 0)).
  { destruct (isFirstLoad st); cbn [snd]; [|reflexivity].
    destruct (transitions_time_played d) as (t & Ht & Hte). rewrite Ht, (Hte Hp), preloader_end. reflexivity. }
  split; [exact Hcall|]. rewrite (transitions_at_installed _ _ _ tc Hcall Hpt).
  assert (H0 : Qle_bool 0 tc = true) by (apply Qle_bool_iff, Htc).
  unfold PageTransition.click_action. rewrite Hsel, Hhttp, Hhash.
  destruct (isFirstLoad st); cbn [andb negb]; [destruct (Qle_bool (29#5) tc)|rewrite H0]; split; reflexivity.
Qed.

End Load.

Lemma transitions_wait_for_preloader_witness :
  has_preloader full_dom = true /\ has_page_transition full_dom = true /\ 0 <= 3 /\
  PageTransition.selected "about.html" = true /\ PageTransition.startsWith "http" "about.html" = false /\
  PageTransition.startsWith "#" "about.html" = false /\
  PageTransition.click_action
    (PageTransition.listening (Load.transitions_at (snd (page_load ∅ full_dom)) full_dom 3)) "about.html" =
    PageTransition.FollowNow.
Proof.
  do 6 (split; [reflexivity || discriminate|]).
  exact (proj1 (proj2 (Load.transitions_wait_for_preloader ∅ full_dom 3 "about.html"
                          eq_refl eq_refl ltac:(discriminate) eq_refl eq_refl eq_refl))).
Defined.
