(* ===== verification/ScrollTrigger.v ===== *)
(** * Scroll-triggered reveals ([initScrollAnimations], src/script.js lines 383-505)

    Every element of the five reveal classes gets a [gsap.fromTo] tween
    from a hidden state to a shown state, with a ScrollTrigger
    [start: 'top 85%'] and [toggleActions: 'play none none reverse']
    (lines 387-469); card groups get a staggered tween with
    [start: 'top 80%'] (lines 486-504); [.parallax-text] is scrubbed
    (lines 472-483) and modelled with the other scrubbed tweens in
    [Hero].

    The code's part is data: the variants' from/to values, durations,
    easings, start positions and the toggle-actions string, which
    [toggle_actions_of] reads the way ScrollTrigger does
    ([split(" ")]).  ScrollTrigger's part is stated once as
    [trigger_update]: from the previous and the new clamped progress it
    decides which of the four callbacks fires (enter, leave, enter back,
    leave back) and which action runs, following the library's rule,
    including its "shot past" case where one scroll jumps over the whole
    range.  The theorems show what the code's configuration makes of
    that rule. *)

From Stdlib Require Import Bool String Ascii List QArith Qminmax Lqa Lia.
From S2P Require Import Prelude Timeline.
Import ListNotations.
Open Scope Q_scope.

Module ScrollTrigger.

(** ** Toggle actions *)

Inductive Action := APlay | APause | AResume | AReset | ARestart | AComplete | AReverse | ANone.

Definition action_name (a : Action) : string :=
  match a with
  | APlay => "play" | APause => "pause" | AResume => "resume" | AReset => "reset"
  | ARestart => "restart" | AComplete => "complete" | AReverse => "reverse" | ANone => "none"
  end%string.

Definition action_of_name (s : string) : option Action :=
  if String.eqb s "play" then Some APlay
  else if String.eqb s "pause" then Some APause
  else if String.eqb s "resume" then Some AResume
  else if String.eqb s "reset" then Some AReset
  else if String.eqb s "restart" then Some ARestart
  else if String.eqb s "complete" then Some AComplete
  else if String.eqb s "reverse" then Some AReverse
  else if String.eqb s "none" then Some ANone
  else None.

(** [s.split(" ")]. *)
Fixpoint split_space (s : string) : list string :=
  match s with
  | EmptyString => [EmptyString]
  | String c s' =>
      if Ascii.eqb c " "%char then EmptyString :: split_space s'
      else match split_space s' with
           | [] => [String c EmptyString]
           | w :: ws => String c w :: ws
           end
  end.

Fixpoint all_some {A} (l : list (option A)) : option (list A) :=
  match l with
  | [] => Some []
  | Some x :: l' => option_map (cons x) (all_some l')
  | None :: _ => None
  end.

Definition toggle_actions_of (s : string) : option (list Action) :=
  all_some (map action_of_name (split_space s)).

Definition toggle_actions_string (acts : list Action) : string :=
  String.concat " " (map action_name acts).

(** The literal of lines 398, 415, 432, 449, 466 and 500. *)
Definition reveal_toggle_actions : string := "play none none reverse".

(** ** ScrollTrigger's update rule *)

Definition clamp01 (x : Q) : Q := Qmax 0 (Qmin 1 x).

(** The animation a trigger controls: not started, or last played
    forwards or backwards. *)
Inductive AnimDir := Idle | Forward | Backward.

Definition run_action (a : Action) (d : AnimDir) : AnimDir :=
  match a with
  | APlay | AResume | ARestart | AComplete => Forward
  | AReverse | AReset => Backward
  | APause | ANone => d
  end.

Definition nth_action (acts : list Action) (i : nat) : Action := nth i acts ANone.

Definition is_active (p : Q) : bool := negb (Qeq_bool p 0) && negb (Qle_bool 1 p).

(** One update from clamped progress [prev] to [clipped]: the callback
    index (0 enter, 1 leave, 2 enter back, 3 leave back) and the action,
    with the "did not toggle" substitution of the library. *)
Definition trigger_update (acts : list Action) (prev clipped : Q) (d : AnimDir) : AnimDir :=
  let active := is_active clipped in
  let was_active := is_active prev in
  let toggled := xorb active was_active in
  let changed := toggled || xorb (negb (Qeq_bool clipped 0)) (negb (Qeq_bool prev 0)) in
  if negb changed then d
  else
    let st := if negb (Qeq_bool clipped 0) && Qeq_bool prev 0 then 0%nat
              else if Qeq_bool clipped 1 then 1%nat
              else if Qeq_bool prev 1 then 2%nat
              else 3%nat in
    let next := nth_action acts (S st) in
    let a := if negb toggled && negb (match next with ANone => true | _ => false end)
             then next else nth_action acts st in
    run_action a d.

(** ** The reveal configuration *)

Inductive Variant := Reveal | RevealLeft | RevealRight | RevealScale | RevealFade.

Inductive TProp := Opacity | X | Y | Scale.

(** A [fromTo]: the animated properties with their hidden and shown
    values, the duration and the easing. *)
Record RevealTween := mkReveal {
  rt_props : list (TProp * Q * Q);
  rt_duration : Q;
  rt_ease : string;
  rt_start_frac : Q       (** [start: 'top P%'], as the fraction P/100 *)
}.

(** Lines 387-469. *)
Definition reveal_tween (v : Variant) : RevealTween :=
  match v with
  | Reveal => mkReveal [(Opacity, 0, 1); (Y, 50, 0)] 1 "power4.out" (17#20)
  | RevealLeft => mkReveal [(Opacity, 0, 1); (X, -50, 0)] 1 "power4.out" (17#20)
  | RevealRight => mkReveal [(Opacity, 0, 1); (X, 50, 0)] 1 "power4.out" (17#20)
  | RevealScale => mkReveal [(Opacity, 0, 1); (Scale, 95#100, 1)] 1 "power4.out" (17#20)
  | RevealFade => mkReveal [(Opacity, 0, 1)] (6#5) "power2.out" (17#20)
  end.

(** Lines 489-502: each card of a group. *)
Definition card_tween : RevealTween := mkReveal [(Opacity, 0, 1); (Y, 60, 0)] (4#5) "power4.out" (4#5).
Definition card_stagger : Q := 3#20.

(** Where the trigger starts: the element's top meets the fraction
    [frac] of the viewport height; it ends at the default ['bottom top']. *)
Definition trigger_start (elemTop vh frac : Q) : Q := elemTop - vh * frac.
Definition trigger_end (elemTop elemHeight : Q) : Q := elemTop + elemHeight.

Definition progress (start stop y : Q) : Q := clamp01 ((y - start) / (stop - start)).

(** A trigger's state: the last clamped progress and the animation. *)
Record Trigger := mkTrigger { tr_prev : Q; tr_anim : AnimDir }.

Definition trigger_init : Trigger := mkTrigger 0 Idle.

Definition on_scroll (acts : list Action) (start stop : Q) (t : Trigger) (y : Q) : Trigger :=
  let c := progress start stop y in
  mkTrigger c (trigger_update acts (tr_prev t) c (tr_anim t)).

(** The values a property shows once the animation settles. *)
Definition settled_value (rt : RevealTween) (d : AnimDir) (p : TProp) : option Q :=
  match find (fun '(p', _, _) => match p, p' with
                                 | Opacity, Opacity | X, X | Y, Y | Scale, Scale => true
                                 | _, _ => false end) (rt_props rt) with
  | Some (_, hidden, shown) => Some (match d with Forward => shown | _ => hidden end)
  | None => None
  end.

(** What the literal means. *)
Definition reveal_actions : list Action :=
  match toggle_actions_of reveal_toggle_actions with Some a => a | None => [] end.

(** ** Lemmas *)

Lemma clamp01_bounds x : 0 <= clamp01 x <= 1.
Proof.
  unfold clamp01. split; [apply Q.le_max_l|].
  apply Q.max_lub; [lra|apply Q.le_min_l].
Qed.

Lemma clamp01_pos x : 0 < clamp01 x <-> 0 < x.
Proof.
  unfold clamp01. destruct (Q.min_spec 1 x) as [[H1 ->]|[H1 ->]];
    destruct (Q.max_spec 0 x) as [[H2 E2]|[H2 E2]];
    try (rewrite Q.max_r by lra); try (rewrite Q.max_l by lra); split; intros; lra.
Qed.

Lemma progress_bounds start stop y : 0 <= progress start stop y <= 1.
Proof. apply clamp01_bounds. Qed.

Lemma progress_pos start stop y :
  start < stop -> (0 < progress start stop y <-> start < y).
Proof.
  intros Hs. unfold progress. rewrite clamp01_pos. split; intros H.
  - apply Qnot_le_lt. intros Hy.
    assert (Hle : (y - start) / (stop - start) <= 0) by (apply Qle_shift_div_r; lra). lra.
  - apply Qlt_shift_div_l; lra.
Qed.

Lemma progress_mono start stop y1 y2 :
  start < stop -> y1 <= y2 -> progress start stop y1 <= progress start stop y2.
Proof.
  intros Hs Hy. unfold progress, clamp01. apply Q.max_le_compat_l, Q.min_le_compat_l.
  unfold Qdiv. apply Qmult_le_compat_r; [lra|]. apply Qinv_le_0_compat. lra.
Qed.

Lemma progress_before start stop y : start < stop -> y <= start -> progress start stop y == 0.
Proof.
  intros Hs Hy. unfold progress, clamp01.
  assert (H : (y - start) / (stop - start) <= 0) by (apply Qle_shift_div_r; lra).
  rewrite Q.min_r by lra. apply Q.max_l. exact H.
Qed.

Lemma progress_after start stop y : start < stop -> stop <= y -> progress start stop y == 1.
Proof.
  intros Hs Hy. unfold progress, clamp01.
  assert (H : 1 <= (y - start) / (stop - start)) by (apply Qle_shift_div_l; lra).
  rewrite Q.min_l by exact H. apply Q.max_r. lra.
Qed.

(** A progress value is at the start, strictly inside, or at the end,
    and the tests of [trigger_update] say which. *)
Lemma progress_cases c : 0 <= c <= 1 ->
  (c == 0 /\ Qeq_bool c 0 = true /\ Qle_bool 1 c = false /\ Qeq_bool c 1 = false) \/
  (0 < c /\ Qeq_bool c 0 = false /\ Qle_bool 1 c = false /\ Qeq_bool c 1 = false) \/
  (0 < c /\ Qeq_bool c 0 = false /\ Qle_bool 1 c = true /\ Qeq_bool c 1 = true).
Proof.
  intros Hc. destruct (Qeq_dec c 0) as [E0|N0].
  - left. split; [exact E0|]. split; [apply Qeq_bool_iff; exact E0|].
    split; [apply not_true_iff_false; rewrite Qle_bool_iff; lra|].
    apply not_true_iff_false; rewrite Qeq_bool_iff; lra.
  - destruct (Qeq_dec c 1) as [E1|N1].
    + right; right. repeat split; try lra.
      * apply not_true_iff_false; rewrite Qeq_bool_iff; exact N0.
      * apply Qle_bool_iff; lra.
      * apply Qeq_bool_iff; exact E1.
    + right; left.
      assert (0 < c) by (destruct Hc as [Hc _]; apply Qle_lteq in Hc as [?|?]; [lra|]; exfalso; apply N0; symmetry; assumption).
      repeat split; try lra; apply not_true_iff_false.
      * rewrite Qeq_bool_iff; exact N0.
      * rewrite Qle_bool_iff; intros ?; apply N1; lra.
      * rewrite Qeq_bool_iff; exact N1.
Qed.

(** The reveal invariant: past the start the animation was last played
    forwards, at the start it was not. *)
Definition reveal_inv (t : Trigger) : Prop :=
  0 <= tr_prev t <= 1 /\
  (0 < tr_prev t -> tr_anim t = Forward) /\
  (tr_prev t == 0 -> tr_anim t <> Forward).

Lemma reveal_actions_value : reveal_actions = [APlay; ANone; ANone; AReverse].
Proof. vm_compute. reflexivity. Qed.

Lemma trigger_update_reveal prev c d :
  0 <= prev <= 1 -> 0 <= c <= 1 -> reveal_inv (mkTrigger prev d) ->
  reveal_inv (mkTrigger c (trigger_update reveal_actions prev c d)).
Proof.
  rewrite reveal_actions_value. unfold reveal_inv. simpl. intros Hp Hc (_ & Hf & Hn).
  unfold trigger_update, is_active. cbv zeta.
  destruct (progress_cases c Hc) as [(E & ? & ? & ?)|[(P & ? & ? & ?)|(P & ? & ? & ?)]];
  destruct (progress_cases prev Hp) as [(E' & ? & ? & ?)|[(P' & ? & ? & ?)|(P' & ? & ? & ?)]];
  repeat match goal with H : ?b = ?v |- context [?b] => rewrite H end;
  simpl; repeat split; try lra; intros; try discriminate; try reflexivity;
  try (apply Hf; lra); try (apply Hn; lra); lra.
Qed.

Lemma on_scroll_reveal start stop t y :
  reveal_inv t -> reveal_inv (on_scroll reveal_actions start stop t y).
Proof.
  intros Ht. destruct t as [prev d]. unfold on_scroll. simpl.
  apply trigger_update_reveal; [apply Ht|apply progress_bounds|exact Ht].
Qed.

Lemma reveal_run_inv start stop ys :
  reveal_inv (run (on_scroll reveal_actions start stop) trigger_init ys).
Proof.
  apply run_preserves; [intros; apply on_scroll_reveal; assumption|].
  unfold reveal_inv; simpl. repeat split; try lra; discriminate.
Qed.

(** After any scroll positions ending at [y], a reveal trigger's
    animation was last played forwards exactly when [y] is past its
    start. *)
Lemma reveal_anim_iff start stop ys y :
  start < stop ->
  (tr_anim (run (on_scroll reveal_actions start stop) trigger_init (ys ++ [y])) = Forward <-> start < y).
Proof.
  intros Hs. set (t := run _ trigger_init (ys ++ [y])).
  assert (Hinv := reveal_run_inv start stop (ys ++ [y])). fold t in Hinv. destruct Hinv as (Hb & Hf & Hn).
  assert (Hp : tr_prev t = progress start stop y) by (unfold t; rewrite run_app; reflexivity).
  rewrite Hp in Hb, Hf, Hn. rewrite <- (progress_pos _ _ y Hs).
  split; [|exact Hf]. intros HF. apply Qnot_le_lt. intros Hle.
  apply Hn; [apply Qle_antisym; [exact Hle|apply Hb]|exact HF].
Qed.

(** C18: for every reveal variant, after any sequence of scroll
    positions the element's animation was last played forwards exactly
    when the last position is past the trigger start (its top above 85%
    of the viewport height), and its opacity then settles at 1;
    otherwise it settles back at 0.  The reveal reverses when scrolled
    back above the start, whatever jumps the scroll makes. *)
Theorem reveal_follows_scroll v elemTop elemHeight vh ys y :
  0 <= elemHeight -> 0 < vh ->
  let start := trigger_start elemTop vh (rt_start_frac (reveal_tween v)) in
  let t := run (on_scroll reveal_actions start (trigger_end elemTop elemHeight))
               trigger_init (ys ++ [y]) in
  (tr_anim t = Forward <-> start < y) /\
  (start < y -> settled_value (reveal_tween v) (tr_anim t) Opacity = Some 1) /\
  (y <= start -> settled_value (reveal_tween v) (tr_anim t) Opacity = Some 0).
Proof.
  intros Hh Hvh start t.
  assert (Hs : start < trigger_end elemTop elemHeight)
    by (unfold start, trigger_start, trigger_end; destruct v; simpl; lra).
  pose proof (reveal_anim_iff start (trigger_end elemTop elemHeight) ys y Hs) as Hiff. fold t in Hiff.
  split; [exact Hiff|split]; intros Hy.
  - rewrite (proj2 Hiff Hy). destruct v; reflexivity.
  - assert (HnF : tr_anim t <> Forward) by (intros HF; apply Hiff in HF; lra).
    destruct (tr_anim t); [destruct v; reflexivity|contradiction|destruct v; reflexivity].
Qed.

Lemma reveal_follows_scroll_witness :
  0 <= 200 /\ 0 < 800 /\
  tr_anim (run (on_scroll reveal_actions (trigger_start 1000 800 (17#20)) (trigger_end 1000 200))
               trigger_init ([0; 1200] ++ [500])) = Forward.
Proof.
  assert (H1 : 0 <= 200) by (vm_compute; discriminate).
  assert (H2 : 0 < 800) by reflexivity.
  split; [exact H1|]. split; [exact H2|].
  apply (proj2 (proj1 (reveal_follows_scroll Reveal 1000 200 800 [0; 1200] 500 H1 H2))).
  reflexivity.
Defined.

End ScrollTrigger.

