(* ===== verification/Hero.v ===== *)
(** * The hero section ([initHeroAnimations], src/script.js lines 510-588)

    The entrance is one [gsap.timeline({ delay: 0.2 })] to which each
    hero element present in the page adds one tween (lines 518-546),
    all but the first placed with a ["-=d"] position; the title is
    animated word by word, with a stagger of 0.15 s, when it has
    [span]s, and as one block otherwise (lines 528-535).  The
    [.scroll-line] pulse (lines 549-556) repeats for ever and is not
    part of the timeline.  Independently, the banner and the title are
    bound to the scroll position through the hero section by scrubbed
    tweens (lines 560-587), as are the [.parallax-text] headings of
    [initScrollAnimations] (lines 472-483).

    The timeline is built with [Timeline]'s model of GSAP; a staggered
    tween lasts its per-target duration plus one stagger per further
    target.  A scrub is a small state machine: the scroll sets the
    target progress, and the animation's playhead eases from where it
    was toward it ([ScrubFrame e] with [e] the ease's value in
    [[0, 1]]); the shown value is the tween's start value plus the
    playhead times the change. *)

From Stdlib Require Import ZArith QArith Qround Qminmax Lqa Lia List String Bool.
From S2P Require Import Prelude Timeline ScrollTrigger.
Import ScrollTrigger.
Import ListNotations.
Open Scope Q_scope.

Module Hero.

(** Which hero elements the page has (lines 511-516), and how many
    [span]s the title holds (line 529). *)
Record HeroDom := mkHeroDom {
  has_eyebrow : bool; has_banner : bool; has_title : bool; title_spans : nat;
  has_subtitle : bool; has_cta : bool; has_scroll_indicator : bool
}.

Inductive HTarget := Eyebrow | Banner | TitleSpans | TitleBlock | Subtitle | Cta | ScrollIndicator.

Inductive HProp := HOpacity (v : Q) | HY (v : Q) | HScale (v : Q).

(** One [tl.to(targets, vars, position)]: the targets, the end values,
    [duration], [stagger] and [ease]. *)
Record HTween := mkHTween {
  ht_target : HTarget; ht_count : nat; ht_props : list HProp;
  ht_each : Q; ht_stagger : Q; ht_ease : string
}.

Definition hero_step (p : Position) (t : HTween) : Position * Q * HTween :=
  (p, stagger_total (ht_each t) (ht_stagger t) (ht_count t), t).

Definition opt {X} (b : bool) (x : X) : list X := if b then [x] else [].

(** The title's tween, lines 529-534: word by word when it has spans,
    as one block otherwise. *)
Definition title_tween (spans : nat) : HTween :=
  if Nat.ltb 0 spans then mkHTween TitleSpans spans [HOpacity 1; HY 0] 1 (3#20) "power4.out"
  else mkHTween TitleBlock 1 [HOpacity 1; HY 0] 1 0 "power4.out".

(** Lines 520-546, in order. *)
Definition hero_steps (h : HeroDom) : list (Position * Q * HTween) :=
  opt (has_eyebrow h)
    (hero_step PEnd (mkHTween Eyebrow 1 [HOpacity 1; HY 0] (4#5) 0 "power3.out")) ++
  opt (has_banner h)
    (hero_step (PRel (-(2#5))) (mkHTween Banner 1 [HOpacity 1; HScale 1] (6#5) 0 "power4.out")) ++
  opt (has_title h) (hero_step (PRel (-(4#5))) (title_tween (title_spans h))) ++
  opt (has_subtitle h)
    (hero_step (PRel (-(1#2))) (mkHTween Subtitle 1 [HOpacity 1; HY 0] (4#5) 0 "power3.out")) ++
  opt (has_cta h)
    (hero_step (PRel (-(3#10))) (mkHTween Cta 1 [HOpacity 1; HY 0] (3#5) 0 "power3.out")) ++
  opt (has_scroll_indicator h)
    (hero_step (PRel (-(1#5))) (mkHTween ScrollIndicator 1 [HOpacity 1] (4#5) 0 "power1.out")).

Definition hero_timeline (h : HeroDom) : list (Child HTween) := tl_build (hero_steps h).

(** [gsap.timeline({ delay: 0.2 })], line 518: timeline time 0 is 0.2 s
    after [initHeroAnimations] runs. *)
Definition hero_delay : Q := 1#5.

(** When target [j] of a child starts, in timeline time. *)
Definition target_start (c : Child HTween) (j : nat) : Q :=
  c_start c + ht_stagger (c_data c) * inject_Z (Z.of_nat j).

(** A hero with every element and [k] title spans. *)
Definition full_hero (k : nat) : HeroDom := mkHeroDom true true true k true true true.


(** ** The entrance *)


(** The title tween's length, one block or [k] spans. *)
Definition title_extra (k : nat) : Q := (3#20) * inject_Z (Z.of_nat (Nat.pred (Nat.max 1 k))).

Lemma title_extra_nonneg k : 0 <= title_extra k.
Proof. unfold title_extra. pose proof (inject_nat_nonneg (Nat.pred (Nat.max 1 k))). lra. Qed.

Lemma title_duration k :
  stagger_total (ht_each (title_tween k)) (ht_stagger (title_tween k)) (ht_count (title_tween k))
  == 1 + title_extra k.
Proof.
  unfold title_tween, title_extra, stagger_total. destruct k as [|k]; cbn -[Qmult Qplus]; ring.
Qed.

(** Arithmetic on the schedule of the full hero: the title's length
    first, then the constant steps. *)
Ltac hero_arith k :=
  cbn [fst snd offset hero_step]; try setoid_rewrite (title_duration k);
  unfold stagger_total, title_extra; cbn [ht_each ht_stagger ht_count]; ring.

Lemma hero_full_chained k : chained (hero_steps (full_hero k)).
Proof.
  pose proof (title_extra_nonneg k). unfold chained. cbn.
  repeat constructor; cbn [fst snd offset hero_step]; try setoid_rewrite (title_duration k);
    unfold stagger_total; cbn [ht_each ht_stagger ht_count]; lra.
Qed.

(** C21: with every hero element, the entrance timeline places the
    eyebrow at [[0, 0.8]], the banner at [[0.4, 1.6]], the title at
    [[0.8, 1.8 + s]], the subtitle at [[1.3 + s, 2.1 + s]], the call to
    action at [[1.8 + s, 2.4 + s]] and the scroll indicator at
    [[2.2 + s, 3 + s]], where [s = 0.15 (k - 1)] for a title of [k >= 1]
    spans and [0] for a title without spans; with the 0.2 s delay the
    entrance is over [3.2 + s] s after it starts. *)
Theorem hero_full_schedule k :
  let s := title_extra k in
  Forall2 same_span (map span (hero_timeline (full_hero k)))
    [(0, 4#5); (2#5, 8#5); (4#5, (9#5) + s); ((13#10) + s, (21#10) + s); ((9#5) + s, (12#5) + s);
     ((11#5) + s, 3 + s)] /\
  hero_delay + tl_end (hero_timeline (full_hero k)) == (16#5) + s.
Proof.
  intros s. unfold hero_timeline. split.
  - eapply same_spans_trans; [apply tl_build_chain, hero_full_chained|].
    cbn. repeat constructor; unfold s; hero_arith k.
  - rewrite tl_build_end by apply hero_full_chained. cbn. unfold s, hero_delay. hero_arith k.
Qed.

(** C22: without an eyebrow, the first element the timeline animates
    still has its ["-=d"] position, measured from the end of an empty
    timeline: it is placed at least 0.2 s before the timeline's start,
    so it begins part-way through its own tween. *)
Theorem hero_first_step_before_start h :
  has_eyebrow h = false -> hero_steps h <> [] ->
  exists c rest, hero_timeline h = c :: rest /\ c_start c <= -(1#5).
Proof.
  destruct h as [e b t k sub cta ind]; cbn [has_eyebrow]. intros -> Hne.
  unfold hero_timeline, hero_steps in *. cbn [has_eyebrow has_banner has_title has_subtitle has_cta
    has_scroll_indicator title_spans opt app hero_step] in *.
  destruct b, t, sub, cta, ind; cbn [opt app] in *; unfold hero_step in *; try (exfalso; apply Hne; reflexivity);
    match goal with |- context [tl_build ((?p, ?d, ?a) :: ?st)] =>
      destruct (tl_build_head p d a st) as [rest ->] end;
    do 2 eexists; (split; [reflexivity|]); apply Qle_bool_imp_le; reflexivity.
Qed.

(** ** Scrubbed tweens *)

(** A scrubbed [gsap.to] tween: the scroll positions at which its
    trigger starts and ends, the end value of each property, and the
    [scrub] lag in seconds. *)
Record ScrubTween := mkScrubTween {
  sc_start : Q; sc_end : Q; sc_to : list (string * Q); sc_lag : Q
}.

(** Lines 561-572: [trigger: '.hero'], [start: 'top top'] (the hero's
    top at the viewport's top), [end: 'bottom top'], [scrub: 1]. *)
Definition banner_scrub (heroTop heroHeight : Q) : ScrubTween :=
  mkScrubTween heroTop (heroTop + heroHeight)
    [("yPercent"%string, -20); ("scale"%string, 19#20); ("opacity"%string, 1#2)] 1.

(** Lines 576-586. *)
Definition title_scrub (heroTop heroHeight : Q) : ScrubTween :=
  mkScrubTween heroTop (heroTop + heroHeight) [("yPercent"%string, -30); ("opacity"%string, 3#10)] 1.

(** Lines 472-483: [start: 'top bottom'] (the heading's top at the
    viewport's bottom), [end: 'bottom top'], [scrub: 1.5]. *)
Definition parallax_scrub (elemTop elemHeight innerHeight : Q) : ScrubTween :=
  mkScrubTween (elemTop - innerHeight) (elemTop + elemHeight) [("yPercent"%string, -25)] (3#2).

Fixpoint lookup_prop (name : string) (l : list (string * Q)) : option Q :=
  match l with
  | [] => None
  | (k, v) :: l' => if String.eqb name k then Some v else lookup_prop name l'
  end.

(** The scrub's state: where the current catch-up started, the
    progress it heads for, and the animation's playhead. *)
Record ScrubState := mkScrubState { ss_from : Q; ss_target : Q; ss_playhead : Q }.

Definition scrub_init : ScrubState := mkScrubState 0 0 0.

(** A scroll to position [y], or a frame at which the catch-up's ease
    has reached [e]. *)
Inductive ScrubEvent := SScroll (y : Q) | SFrame (e : Q).

Definition scrub_step (sc : ScrubTween) (s : ScrubState) (ev : ScrubEvent) : ScrubState :=
  match ev with
  | SScroll y => mkScrubState (ss_playhead s) (progress (sc_start sc) (sc_end sc) y) (ss_playhead s)
  | SFrame e => mkScrubState (ss_from s) (ss_target s) (ss_from s ~[e]~> ss_target s)
  end.

(** What property [name] shows when its value before the tween was [v0]. *)
Definition scrub_value (sc : ScrubTween) (name : string) (v0 : Q) (s : ScrubState) : option Q :=
  option_map (fun v1 => v0 ~[ss_playhead s]~> v1) (lookup_prop name (sc_to sc)).

(** After a scroll and a catch-up that has run to its end, the
    playhead is the trigger's progress at that scroll position. *)
Lemma scrub_settled_playhead sc s y :
  ss_playhead (run (scrub_step sc) s [SScroll y; SFrame 1]) == progress (sc_start sc) (sc_end sc) y.
Proof. cbn [run fold_left scrub_step ss_from ss_target ss_playhead]. unfold lerp. ring. Qed.

Lemma scrub_value_settled sc s y name v0 v1 :
  lookup_prop name (sc_to sc) = Some v1 ->
  exists v, scrub_value sc name v0 (run (scrub_step sc) s [SScroll y; SFrame 1]) = Some v /\
    v == v0 + (v1 - v0) * progress (sc_start sc) (sc_end sc) y.
Proof.
  intros Hl. unfold scrub_value. rewrite Hl. eexists. split; [reflexivity|].
  unfold lerp. rewrite scrub_settled_playhead. reflexivity.
Qed.

(** C23: once the scrub has caught up with a scroll to [y], the banner
    shows [yPercent = -20 p], [scale] and [opacity] moved the fraction
    [p] of the way from the values [s0], [o0] they had before the
    tween to 0.95 and 0.5, where [p] is the fraction of the hero's
    height scrolled past its top, clamped to [[0, 1]]: the start values
    above the hero, the end values once it has scrolled out. *)
Theorem banner_settled heroTop heroHeight s y s0 o0 :
  0 < heroHeight ->
  let sc := banner_scrub heroTop heroHeight in
  let st := run (scrub_step sc) s [SScroll y; SFrame 1] in
  let p := progress heroTop (heroTop + heroHeight) y in
  exists yp sv ov,
    scrub_value sc "yPercent" 0 st = Some yp /\ scrub_value sc "scale" s0 st = Some sv /\
    scrub_value sc "opacity" o0 st = Some ov /\
    yp == -20 * p /\ sv == s0 + ((19#20) - s0) * p /\ ov == o0 + ((1#2) - o0) * p /\
    (y <= heroTop -> yp == 0 /\ sv == s0 /\ ov == o0) /\
    (heroTop + heroHeight <= y -> yp == -20 /\ sv == 19#20 /\ ov == 1#2).
Proof.
  intros Hh. cbv zeta. set (sc := banner_scrub heroTop heroHeight).
  set (p := progress heroTop (heroTop + heroHeight) y).
  destruct (scrub_value_settled sc s y "yPercent" 0 (-20) eq_refl) as [yp [Hy Ey]].
  destruct (scrub_value_settled sc s y "scale" s0 (19#20) eq_refl) as [sv [Hs Es]].
  destruct (scrub_value_settled sc s y "opacity" o0 (1#2) eq_refl) as [ov [Ho Eo]].
  exists yp, sv, ov. cbn [sc_start sc_end sc banner_scrub] in Ey, Es, Eo. fold p in Ey, Es, Eo.
  do 3 (split; [assumption|]).
  split; [rewrite Ey; ring|]. split; [rewrite Es; ring|]. split; [rewrite Eo; ring|].
  split; intros Hy'.
  - assert (Hp : p == 0) by (apply progress_before; lra).
    rewrite Hp in Ey, Es, Eo. split; [rewrite Ey; ring|split; [rewrite Es; ring|rewrite Eo; ring]].
  - assert (Hp : p == 1) by (apply progress_after; lra).
    rewrite Hp in Ey, Es, Eo. split; [rewrite Ey; ring|split; [rewrite Es; ring|rewrite Eo; ring]].
Qed.

(** C24: once caught up, a [.parallax-text] heading's [yPercent] only
    decreases as the page scrolls down: it is 0 until the heading's top
    reaches the bottom of the viewport and -25 once its bottom has
    passed the top, and between -25 and 0 in between. *)
Theorem parallax_heading_settled elemTop elemHeight innerHeight s y1 y2 :
  0 < elemHeight + innerHeight -> y1 <= y2 ->
  let sc := parallax_scrub elemTop elemHeight innerHeight in
  exists v1 v2,
    scrub_value sc "yPercent" 0 (run (scrub_step sc) s [SScroll y1; SFrame 1]) = Some v1 /\
    scrub_value sc "yPercent" 0 (run (scrub_step sc) s [SScroll y2; SFrame 1]) = Some v2 /\
    -25 <= v2 <= v1 /\ v1 <= 0 /\
    (y1 <= elemTop - innerHeight -> v1 == 0) /\ (elemTop + elemHeight <= y2 -> v2 == -25).
Proof.
  intros Hh Hy sc.
  destruct (scrub_value_settled sc s y1 "yPercent" 0 (-25) eq_refl) as [v1 [H1 E1]].
  destruct (scrub_value_settled sc s y2 "yPercent" 0 (-25) eq_refl) as [v2 [H2 E2]].
  exists v1, v2. cbn [sc_start sc_end sc parallax_scrub] in E1, E2.
  assert (Hs : elemTop - innerHeight < elemTop + elemHeight) by lra.
  pose proof (progress_mono _ _ y1 y2 Hs Hy). pose proof (progress_bounds (elemTop - innerHeight) (elemTop + elemHeight) y1).
  pose proof (progress_bounds (elemTop - innerHeight) (elemTop + elemHeight) y2).
  repeat split; try assumption; try (rewrite E1; lra); try (rewrite E2; lra); try (rewrite E1, E2; lra).
  - intros Hb. rewrite E1, (progress_before _ _ y1 Hs Hb). ring.
  - intros Ha. rewrite E2, (progress_after _ _ y2 Hs Ha). ring.
Qed.

(** ** The scroll-line pulse (lines 549-556)

    [gsap.to('.scroll-line', { scaleY: 0.5, repeat: -1, yoyo: true,
    duration: 1.5, ease: 'power2.inOut' })], created when the page has
    a scroll indicator: iteration [i] covers [[1.5 i, 1.5 (i + 1))], and
    odd iterations play backwards (GSAP's yoyo applies the ease to the
    reversed progress).  [s0] is the line's [scaleY] before the tween. *)
Definition pulse_duration : Q := 3#2.

Definition pulse_iteration (t : Q) : Z := Qfloor (t / pulse_duration).

Definition pulse_progress (t : Q) : Q :=
  let i := pulse_iteration t in
  let local := (t - pulse_duration * inject_Z i) / pulse_duration in
  if Z.even i then local else 1 - local.

Definition scroll_line_scale (h : HeroDom) (ease : Q -> Q) (s0 t : Q) : option Q :=
  if has_scroll_indicator h then Some (s0 ~[ease (pulse_progress t)]~> (1#2)) else None.

Lemma pulse_progress_bounds t : 0 <= pulse_progress t <= 1.
Proof.
  unfold pulse_progress, pulse_iteration, pulse_duration.
  set (x := t / (3#2)). pose proof (Qfloor_le x) as H1. pose proof (Qlt_floor x) as H2.
  rewrite inject_Z_plus in H2. change (inject_Z 1) with 1 in H2.
  assert (E : (t - (3#2) * inject_Z (Qfloor x)) / (3#2) == x - inject_Z (Qfloor x))
    by (unfold x; field).
  destruct (Z.even (Qfloor x)); rewrite E; lra.
Qed.

Lemma pulse_progress_at z :
  pulse_progress ((3#2) * inject_Z z) == if Z.even z then 0 else 1.
Proof.
  unfold pulse_progress, pulse_iteration, pulse_duration.
  assert (Hz : (3#2) * inject_Z z / (3#2) == inject_Z z) by field.
  rewrite (Qfloor_comp _ _ Hz), Qfloor_Z. destruct (Z.even z); unfold Qdiv; ring.
Qed.

Section Pulse.
Variable ease : Q -> Q.
Hypothesis ease_0 : ease 0 == 0.
Hypothesis ease_1 : ease 1 == 1.
Hypothesis ease_unit : forall x, 0 <= x <= 1 -> 0 <= ease x <= 1.
Hypothesis ease_Qeq : forall a b, a == b -> ease a == ease b.

(** C25: with a scroll indicator, the line's scale always lies between
    its initial value and 0.5, and the pulse never stops: after any
    time [t] the line is again fully contracted (0.5) and again back at
    its initial value. *)
Theorem scroll_line_pulses h s0 :
  has_scroll_indicator h = true ->
  (forall t, exists v, scroll_line_scale h ease s0 t = Some v /\ Qmin s0 (1#2) <= v <= Qmax s0 (1#2)) /\
  (forall t, exists t1 v1, t <= t1 /\ scroll_line_scale h ease s0 t1 = Some v1 /\ v1 == 1#2) /\
  (forall t, exists t2 v2, t <= t2 /\ scroll_line_scale h ease s0 t2 = Some v2 /\ v2 == s0).
Proof.
  intros Hi. unfold scroll_line_scale. rewrite Hi.
  split; [|split]; intros t.
  - eexists. split; [reflexivity|]. apply lerp_min_max, ease_unit, pulse_progress_bounds.
  - set (m := Qceiling (t / 3)). exists ((3#2) * inject_Z (2 * m + 1)). eexists.
    split; [|split; [reflexivity|]].
    + pose proof (Qle_ceiling (t / 3)) as Hc. fold m in Hc.
      rewrite inject_Z_plus, inject_Z_mult. change (inject_Z 2) with 2. change (inject_Z 1) with 1.
      assert (t <= 3 * inject_Z m) by (setoid_replace t with (3 * (t / 3)) at 1 by field; lra).
      lra.
    + rewrite (ease_Qeq _ _ (pulse_progress_at _)).
      rewrite Z.even_add, Z.even_mul. cbn [Z.even orb Bool.eqb]. rewrite ease_1. unfold lerp. ring.
  - set (m := Qceiling (t / 3)). exists ((3#2) * inject_Z (2 * m)). eexists.
    split; [|split; [reflexivity|]].
    + pose proof (Qle_ceiling (t / 3)) as Hc. fold m in Hc.
      rewrite inject_Z_mult. change (inject_Z 2) with 2.
      assert (t <= 3 * inject_Z m) by (setoid_replace t with (3 * (t / 3)) at 1 by field; lra).
      lra.
    + rewrite (ease_Qeq _ _ (pulse_progress_at _)).
      rewrite Z.even_mul. cbn [Z.even orb]. rewrite ease_0. unfold lerp. ring.
Qed.
End Pulse.

End Hero.

Lemma banner_settled_witness :
  0 < 800 /\
  exists yp sv ov,
    Hero.scrub_value (Hero.banner_scrub 0 800) "yPercent" 0
      (run (Hero.scrub_step (Hero.banner_scrub 0 800)) Hero.scrub_init [Hero.SScroll 400; Hero.SFrame 1]) = Some yp /\
    Hero.scrub_value (Hero.banner_scrub 0 800) "scale" 1
      (run (Hero.scrub_step (Hero.banner_scrub 0 800)) Hero.scrub_init [Hero.SScroll 400; Hero.SFrame 1]) = Some sv /\
    Hero.scrub_value (Hero.banner_scrub 0 800) "opacity" 1
      (run (Hero.scrub_step (Hero.banner_scrub 0 800)) Hero.scrub_init [Hero.SScroll 400; Hero.SFrame 1]) = Some ov /\
    yp == -10.
Proof.
  split; [reflexivity|].
  destruct (Hero.banner_settled 0 800 Hero.scrub_init 400 1 1 eq_refl)
    as (yp & sv & ov & Hy & Hs & Ho & Ey & _).
  exists yp, sv, ov. do 3 (split; [assumption|]). rewrite Ey. reflexivity.
Defined.

Lemma parallax_heading_settled_witness :
  0 < 100 + 720 /\ 200 <= 900 /\
  exists v1 v2,
    Hero.scrub_value (Hero.parallax_scrub 1000 100 720) "yPercent" 0
      (run (Hero.scrub_step (Hero.parallax_scrub 1000 100 720)) Hero.scrub_init [Hero.SScroll 200; Hero.SFrame 1]) = Some v1 /\
    Hero.scrub_value (Hero.parallax_scrub 1000 100 720) "yPercent" 0
      (run (Hero.scrub_step (Hero.parallax_scrub 1000 100 720)) Hero.scrub_init [Hero.SScroll 900; Hero.SFrame 1]) = Some v2 /\
    v2 <= v1.
Proof.
  split; [reflexivity|]. split; [discriminate|].
  destruct (Hero.parallax_heading_settled 1000 100 720 Hero.scrub_init 200 900 eq_refl)
    as (v1 & v2 & H1 & H2 & [_ Hle] & _); [discriminate|].
  exists v1, v2. split; [exact H1|]. split; [exact H2|exact Hle].
Defined.

Lemma hero_first_step_before_start_witness :
  Hero.has_eyebrow (Hero.mkHeroDom false true true 3 true true true) = false /\
  exists c rest, Hero.hero_timeline (Hero.mkHeroDom false true true 3 true true true) = c :: rest /\
    c_start c <= -(1#5).
Proof.
  split; [reflexivity|].
  apply (Hero.hero_first_step_before_start (Hero.mkHeroDom false true true 3 true true true) eq_refl).
  discriminate.
Defined.

Lemma scroll_line_pulses_witness :
  Hero.has_scroll_indicator (Hero.full_hero 3) = true /\
  exists t1 v1, 10 <= t1 /\ Hero.scroll_line_scale (Hero.full_hero 3) (fun x => x) 1 t1 = Some v1 /\ v1 == 1#2.
Proof.
  split; [reflexivity|].
  destruct (Hero.scroll_line_pulses (fun x => x) (Qeq_refl 0) (Qeq_refl 1) (fun x Hx => Hx)
              (fun a b Hab => Hab) (Hero.full_hero 3) 1 eq_refl) as (_ & H & _).
  apply H.
Defined.
