(* ===== verification/Lenis.v ===== *)
(** * Smooth scrolling: the options of [initLenis] (src/script.js lines 11-31)

    [initLenis] creates Lenis with a duration of 1.2 s and the easing
    [t => Math.min(1, 1.001 - Math.pow(2, -10 * t))] (lines 12-22),
    forwards Lenis's scroll events to ScrollTrigger and drives it from
    GSAP's ticker (the ticker hook is [Viewport.onTick]).  With a
    [duration], Lenis animates a scroll from [from] to [to] by
    [from + (to - from) * easing (clamp (elapsed / duration))], and
    takes the end value exactly once the linear progress reaches 1;
    that library rule is [animate_value].

    [Math.pow(2, x)] is the section variable [exp2], assumed only to be
    monotone with [2^0 = 1] and [2^-10 = 1/1024]. *)

From Stdlib Require Import QArith Qminmax Lqa Lia Bool String.
From S2P Require Import Prelude.
Open Scope Q_scope.

Module Lenis.

(** The options object of lines 12-22. *)
Record LenisOptions := mkLenisOptions {
  duration : Q; direction : string; gestureDirection : string; smooth : bool;
  mouseMultiplier : Q; smoothTouch : bool; touchMultiplier : Q; infinite : bool
}.

Definition lenis_options : LenisOptions :=
  mkLenisOptions (6#5) "vertical" "vertical" true 1 false 2 false.

Section Easing.
Variable exp2 : Q -> Q.

(** The [easing] option, line 14. *)
Definition easing (t : Q) : Q := Qmin 1 ((1001#1000) - exp2 (-10 * t)).

(** Lenis's linear progress [clamp(0, currentTime / duration, 1)]; the
    animation is complete when it reaches 1. *)
Definition linear_progress (elapsed : Q) : Q := Qmax 0 (Qmin 1 (elapsed / duration lenis_options)).

Definition completed (elapsed : Q) : bool := Qle_bool 1 (linear_progress elapsed).

(** Lenis's duration-based animation of one scroll, [elapsed] seconds
    after it started. *)
Definition animate_value (from to elapsed : Q) : Q :=
  if completed elapsed then to else from + (to - from) * easing (linear_progress elapsed).

Hypothesis exp2_mono : forall a b, a <= b -> exp2 a <= exp2 b.
Hypothesis exp2_0 : exp2 0 == 1.
Hypothesis exp2_m10 : exp2 (-10) == 1#1024.

Lemma exp2_Qeq a b : a == b -> exp2 a == exp2 b.
Proof. intros H. apply Qle_antisym; apply exp2_mono; rewrite H; apply Qle_refl. Qed.

Lemma easing_mono t1 t2 : t1 <= t2 -> easing t1 <= easing t2.
Proof.
  intros H. unfold easing. apply Q.min_le_compat_l.
  assert (exp2 (-10 * t2) <= exp2 (-10 * t1)) by (apply exp2_mono; lra). lra.
Qed.

Lemma easing_bounds t : 0 <= t -> 1#1000 <= easing t <= 1.
Proof.
  intros Ht. unfold easing. split; [|apply Q.le_min_l].
  assert (exp2 (-10 * t) <= exp2 0) by (apply exp2_mono; lra).
  apply Q.min_glb; lra.
Qed.

Lemma easing_at_0 : easing 0 == 1#1000.
Proof.
  unfold easing. rewrite (exp2_Qeq (-10 * 0) 0) by reflexivity. rewrite exp2_0.
  apply Q.min_r. discriminate.
Qed.

Lemma easing_at_1 : easing 1 == 1.
Proof.
  unfold easing. rewrite (exp2_Qeq (-10 * 1) (-10)) by reflexivity. rewrite exp2_m10.
  apply Q.min_l. discriminate.
Qed.

(** The animation is complete exactly from 1.2 s on. *)
Lemma completed_iff elapsed : completed elapsed = true <-> 6#5 <= elapsed.
Proof.
  unfold completed, linear_progress. cbn [duration lenis_options]. rewrite Qle_bool_iff.
  split; intros H.
  - destruct (Qlt_le_dec elapsed (6#5)) as [Hl|]; [|assumption]. exfalso.
    assert (elapsed / (6#5) < 1) by (apply Qlt_shift_div_r; [reflexivity|lra]).
    assert (Qmax 0 (Qmin 1 (elapsed / (6#5))) < 1); [|lra].
    apply Q.max_lub_lt; [reflexivity|]. rewrite Q.min_r by lra. assumption.
  - assert (1 <= elapsed / (6#5)) by (apply Qle_shift_div_l; [reflexivity|lra]).
    rewrite Q.min_l by assumption. rewrite Q.max_r by lra. apply Qle_refl.
Qed.

(** From 1.2 s on, the animation sits on its target. *)
Lemma animate_value_done from to elapsed : 6#5 <= elapsed -> animate_value from to elapsed = to.
Proof. intros H. unfold animate_value. apply completed_iff in H. rewrite H. reflexivity. Qed.

(** C26: a smooth scroll from [from] to [to] never leaves the segment
    between them, jumps 0.1% of the way on its first frame, and sits
    exactly on [to] from 1.2 s on. *)
Theorem lenis_scroll_lands from to elapsed :
  0 <= elapsed ->
  Qmin from to <= animate_value from to elapsed <= Qmax from to /\
  animate_value from to 0 == from + (to - from) * (1#1000) /\
  (6#5 <= elapsed -> animate_value from to elapsed = to).
Proof.
  intros He. unfold animate_value, completed, linear_progress. cbn [duration lenis_options].
  set (p := Qmax 0 (Qmin 1 (elapsed / (6#5)))).
  assert (Hp : 0 <= p <= 1) by (split; [apply Q.le_max_l|apply Q.max_lub; [discriminate|apply Q.le_min_l]]).
  split; [|split].
  - destruct (Qle_bool 1 p); [split; [apply Q.le_min_r|apply Q.le_max_r]|].
    destruct (easing_bounds p (proj1 Hp)). apply lerp_min_max. lra.
  - replace (Qle_bool 1 (Qmax 0 (Qmin 1 (0 / (6#5))))) with false by reflexivity.
    change (Qmax 0 (Qmin 1 (0 / (6#5)))) with 0. rewrite easing_at_0. reflexivity.
  - intros H. unfold p. fold (animate_value from to elapsed). apply animate_value_done, H.
Qed.

End Easing.
End Lenis.

(** A monotone stand-in for [Math.pow(2, x)]: exact at [0] and [-10],
    linear between. *)
Definition exp2_pl (x : Q) : Q :=
  if Qle_bool x (-10) then 1#1024 else if Qle_bool x 0 then 1 + x * (1023#10240) else 1 + x.

Lemma exp2_pl_mono a b : a <= b -> exp2_pl a <= exp2_pl b.
Proof.
  intros H. unfold exp2_pl.
  destruct (Qle_bool a (-10)) eqn:A1; destruct (Qle_bool b (-10)) eqn:B1;
  destruct (Qle_bool a 0) eqn:A2; destruct (Qle_bool b 0) eqn:B2;
  repeat match goal with
         | E : Qle_bool _ _ = true |- _ => apply Qle_bool_iff in E
         | E : Qle_bool _ _ = false |- _ =>
             apply not_true_iff_false in E; rewrite Qle_bool_iff in E; apply Qnot_le_lt in E
         end; lra.
Qed.

Lemma lenis_scroll_lands_witness :
  0 <= 2 /\ Lenis.animate_value exp2_pl 0 500 2 = 500.
Proof.
  split; [discriminate|].
  apply (Lenis.lenis_scroll_lands exp2_pl exp2_pl_mono ltac:(reflexivity) 0 500 2); discriminate.
Defined.
