(* ===== verification/Scene.v ===== *)
(** * The scroll scene: [initScrollAnimations] over a page, driven by Lenis
      (src/script.js lines 24 and 383-505)

    [initScrollAnimations] walks the page: for each of the five reveal
    classes, in the order of lines 387-469, every element carrying the
    class ([gsap.utils.toArray], document order) gets its own tween and
    ScrollTrigger; every [.parallax-text] heading gets a scrubbed tween
    (lines 472-483); every [.cards-stagger] group gets one staggered
    tween over its cards with one trigger (lines 486-504).  An element
    with two reveal classes gets two triggers.

    [initLenis] forwards every scroll event of Lenis to
    [ScrollTrigger.update] (line 24), which updates every trigger with
    the new scroll position.  A scene is the list of registered triggers
    with their states and the list of scrubbed tweens with theirs;
    [scene_step] is one Lenis scroll event, or one frame of the scrubs'
    catch-up (all heading scrubs restart at the same scroll event and
    have the same lag, so they share the ease fraction). *)

From Stdlib Require Import QArith Qminmax Lqa Lia List String Bool.
From S2P Require Import Prelude Timeline ScrollTrigger Hero Lenis.
Import ListNotations.
Open Scope Q_scope.

Module Scene.
Import ScrollTrigger.

Definition variant_eqb (a b : Variant) : bool :=
  match a, b with
  | Reveal, Reveal | RevealLeft, RevealLeft | RevealRight, RevealRight
  | RevealScale, RevealScale | RevealFade, RevealFade => true
  | _, _ => false
  end.

(** An element as the scroll code sees it: its reveal classes, its top
    (page coordinates) and its height. *)
Record Elem := mkElem { el_classes : list Variant; el_top : Q; el_height : Q }.

(** A [.cards-stagger] group: its top, its height, its [.card]s. *)
Record Group := mkGroup { g_top : Q; g_height : Q; g_cards : nat }.

Record Page := mkPage {
  elems : list Elem;
  headings : list (Q * Q);     (** top and height of each [.parallax-text] *)
  groups : list Group;
  vh : Q                       (** [window.innerHeight] *)
}.

(** [gsap.utils.toArray('.reveal...')]: the elements with the class. *)
Definition has_class (v : Variant) (e : Elem) : bool := existsb (variant_eqb v) (el_classes e).

(** A registered trigger: the tween it controls, the number of its
    targets, its scroll range and its state. *)
Record RTrigger := mkRTrigger {
  rg_tween : RevealTween; rg_targets : nat; rg_start : Q; rg_end : Q; rg_state : Trigger
}.

(** Lines 388-400 (and their four copies): [trigger: elem],
    [start: 'top 85%'], the default end ['bottom top']. *)
Definition reveal_trigger (vh : Q) (v : Variant) (e : Elem) : RTrigger :=
  mkRTrigger (reveal_tween v) 1 (trigger_start (el_top e) vh (rt_start_frac (reveal_tween v)))
             (trigger_end (el_top e) (el_height e)) trigger_init.

(** Lines 489-503: one tween over the group's cards, [start: 'top 80%']. *)
Definition group_trigger (vh : Q) (g : Group) : RTrigger :=
  mkRTrigger card_tween (g_cards g) (trigger_start (g_top g) vh (rt_start_frac card_tween))
             (trigger_end (g_top g) (g_height g)) trigger_init.

(** The five [forEach] loops of lines 387-469, in the code's order. *)
Definition reveal_classes : list Variant := [Reveal; RevealLeft; RevealRight; RevealScale; RevealFade].

Record Scene := mkScene {
  sc_triggers : list RTrigger;
  sc_scrubs : list (Hero.ScrubTween * Hero.ScrubState)
}.

(** [initScrollAnimations], lines 383-505. *)
Definition initScrollAnimations (p : Page) : Scene :=
  mkScene
    (flat_map (fun v => map (reveal_trigger (vh p) v) (filter (has_class v) (elems p))) reveal_classes
     ++ map (group_trigger (vh p)) (groups p))
    (map (fun hd => (Hero.parallax_scrub (fst hd) (snd hd) (vh p), Hero.scrub_init)) (headings p)).

(** ScrollTrigger's update of one trigger at scroll position [y]. *)
Definition update_trigger (y : Q) (t : RTrigger) : RTrigger :=
  mkRTrigger (rg_tween t) (rg_targets t) (rg_start t) (rg_end t)
             (on_scroll reveal_actions (rg_start t) (rg_end t) (rg_state t) y).

Definition update_scrub (ev : Hero.ScrubEvent) (sc : Hero.ScrubTween * Hero.ScrubState)
  : Hero.ScrubTween * Hero.ScrubState :=
  (fst sc, Hero.scrub_step (fst sc) (snd sc) ev).

Inductive SceneEvent :=
| LenisScroll (y : Q)      (** [lenis.on('scroll', ScrollTrigger.update)], line 24 *)
| ScrubFrame (e : Q).      (** a frame of the scrubs' catch-up, ease fraction [e] *)

Definition scene_step (s : Scene) (ev : SceneEvent) : Scene :=
  match ev with
  | LenisScroll y => mkScene (map (update_trigger y) (sc_triggers s))
                             (map (update_scrub (Hero.SScroll y)) (sc_scrubs s))
  | ScrubFrame e => mkScene (sc_triggers s) (map (update_scrub (Hero.SFrame e)) (sc_scrubs s))
  end.

(** The scroll positions a trace hands to ScrollTrigger. *)
Definition scrolls (es : list SceneEvent) : list Q :=
  flat_map (fun ev => match ev with LenisScroll y => [y] | ScrubFrame _ => [] end) es.

(** A trigger run on its own over scroll positions [ys]. *)
Definition run_alone (ys : list Q) (t : RTrigger) : RTrigger :=
  mkRTrigger (rg_tween t) (rg_targets t) (rg_start t) (rg_end t)
             (run (on_scroll reveal_actions (rg_start t) (rg_end t)) (rg_state t) ys).

(** ** Each trigger sees every scroll position *)

Lemma run_alone_nil t : run_alone [] t = t.
Proof. destruct t; reflexivity. Qed.

Lemma scene_triggers_run es : forall s,
  sc_triggers (run scene_step s es) = map (run_alone (scrolls es)) (sc_triggers s).
Proof.
  induction es as [|ev es IH]; intros s.
  - cbn. symmetry. rewrite <- map_id. apply map_ext, run_alone_nil.
  - rewrite run_cons, IH. destruct ev as [y|e]; cbn [scene_step sc_triggers scrolls flat_map app];
      [rewrite map_map; apply map_ext; intros t; reflexivity|reflexivity].
Qed.

Lemma scrolls_app es es' : scrolls (es ++ es') = scrolls es ++ scrolls es'.
Proof. apply flat_map_app. Qed.

Lemma reveal_classes_all v : In v reveal_classes.
Proof. destruct v; cbn; tauto. Qed.

Lemma reveal_trigger_in p v e :
  In e (elems p) -> has_class v e = true ->
  In (reveal_trigger (vh p) v e) (sc_triggers (initScrollAnimations p)).
Proof.
  intros He Hv. cbn [sc_triggers initScrollAnimations]. apply in_or_app. left.
  apply in_flat_map. exists v. split; [apply reveal_classes_all|].
  apply in_map, filter_In. tauto.
Qed.

Lemma group_trigger_in p g :
  In g (groups p) -> In (group_trigger (vh p) g) (sc_triggers (initScrollAnimations p)).
Proof. intros Hg. cbn [sc_triggers initScrollAnimations]. apply in_or_app. right. apply in_map, Hg. Qed.

(** A trigger whose range is not empty follows the last scroll position. *)
Lemma run_alone_follows t ys y :
  rg_state t = trigger_init -> rg_start t < rg_end t ->
  (tr_anim (rg_state (run_alone (ys ++ [y]) t)) = Forward <-> rg_start (run_alone (ys ++ [y]) t) < y).
Proof. intros Hi Hs. cbn [run_alone rg_state rg_start]. rewrite Hi. apply reveal_anim_iff, Hs. Qed.

Section WithLenis.
Variable exp2 : Q -> Q.

(** C19: on a page with a positive viewport height, after any scroll
    events and a smooth scroll of Lenis to [to] that has run for its
    1.2 s, every element of every reveal class has its own trigger, and
    its reveal was last played forwards exactly when [to] is past the
    element's start (its top above 85% of the viewport); likewise every
    card group, with one trigger for all its cards. *)
Theorem scene_reveals_follow_scroll p es from to elapsed :
  0 < vh p -> Forall (fun e => 0 <= el_height e) (elems p) -> Forall (fun g => 0 <= g_height g) (groups p) ->
  6#5 <= elapsed ->
  let s := run scene_step (initScrollAnimations p) (es ++ [LenisScroll (Lenis.animate_value exp2 from to elapsed)]) in
  (forall e v, In e (elems p) -> has_class v e = true ->
     exists t, In t (sc_triggers s) /\ rg_tween t = reveal_tween v /\
       rg_start t = trigger_start (el_top e) (vh p) (17#20) /\ (tr_anim (rg_state t) = Forward <-> rg_start t < to)) /\
  (forall g, In g (groups p) ->
     exists t, In t (sc_triggers s) /\ rg_tween t = card_tween /\ rg_targets t = g_cards g /\
       rg_start t = trigger_start (g_top g) (vh p) (4#5) /\ (tr_anim (rg_state t) = Forward <-> rg_start t < to)).
Proof.
  intros Hvh He Hg Hel. cbv zeta. rewrite (Lenis.animate_value_done exp2 from to elapsed Hel).
  rewrite scene_triggers_run, scrolls_app. cbn [scrolls flat_map app].
  split.
  - intros e v Hin Hv. exists (run_alone (scrolls es ++ [to]) (reveal_trigger (vh p) v e)).
    pose proof (proj1 (Forall_forall _ _) He e Hin) as Hh.
    split; [apply (in_map (run_alone _)), reveal_trigger_in; assumption|].
    split; [reflexivity|]. split; [destruct v; reflexivity|].
    apply run_alone_follows; [reflexivity|].
    cbn [reveal_trigger rg_start rg_end]. unfold trigger_start, trigger_end. cbv beta in Hh.
    destruct v; cbn [reveal_tween rt_start_frac]; lra.
  - intros g Hin. exists (run_alone (scrolls es ++ [to]) (group_trigger (vh p) g)).
    pose proof (proj1 (Forall_forall _ _) Hg g Hin) as Hh.
    split; [apply (in_map (run_alone _)), group_trigger_in; assumption|].
    split; [reflexivity|]. split; [reflexivity|]. split; [reflexivity|].
    apply run_alone_follows; [reflexivity|].
    cbn [group_trigger rg_start rg_end card_tween rt_start_frac]. unfold trigger_start, trigger_end.
    cbv beta in Hh. lra.
Qed.
End WithLenis.

End Scene.

(** A page with two revealed elements (one with two reveal classes), a
    heading and a group of three cards, in an 800 px viewport. *)
Definition sample_page : Scene.Page :=
  Scene.mkPage [Scene.mkElem [ScrollTrigger.Reveal; ScrollTrigger.RevealFade] 1000 200;
                Scene.mkElem [ScrollTrigger.RevealLeft] 3000 100]
               [(2000, 80)] [Scene.mkGroup 1500 400 3] 800.

Lemma scene_reveals_follow_scroll_witness :
  0 < Scene.vh sample_page /\
  exists t, In t (Scene.sc_triggers (run Scene.scene_step (Scene.initScrollAnimations sample_page)
                   ([Scene.LenisScroll 100] ++ [Scene.LenisScroll (Lenis.animate_value exp2_pl 100 1200 2)]))) /\
    ScrollTrigger.tr_anim (Scene.rg_state t) = ScrollTrigger.Forward.
Proof.
  assert (Hv : 0 < Scene.vh sample_page) by reflexivity.
  split; [exact Hv|].
  destruct (Scene.scene_reveals_follow_scroll exp2_pl sample_page [Scene.LenisScroll 100] 100 1200 2 Hv
              ltac:(repeat constructor; cbn; discriminate) ltac:(repeat constructor; cbn; discriminate)
              ltac:(discriminate)) as [Hr _].
  destruct (Hr (Scene.mkElem [ScrollTrigger.Reveal; ScrollTrigger.RevealFade] 1000 200) ScrollTrigger.Reveal
              (or_introl eq_refl) eq_refl) as (t & Hin & _ & Hs & Hiff).
  exists t. split; [exact Hin|]. apply Hiff. rewrite Hs. reflexivity.
Defined.
