(* ===== verification/Magnetic.v ===== *)
(** * Magnetic buttons ([initMagneticButtons], src/script.js lines 253-279)

    Each [.btn-magnetic] gets two listeners.  On [mousemove] the offset
    of the pointer from the centre of [btn.getBoundingClientRect()] is
    scaled by 0.25 and tweened into the button's [x]/[y] (lines
    257-268); on [mouseleave] [x]/[y] are tweened back to 0 with an
    elastic ease (lines 270-277).

    GSAP's [x]/[y] are CSS transforms, and [getBoundingClientRect]
    reports the transformed box: the rectangle the handler measures is
    the button's layout box moved by the offset already rendered.  The
    state is the rendered offset and the target of the last tween;
    [settle] is a tween reaching its target. *)

From Stdlib Require Import QArith Qminmax Lqa Lia List String.
From S2P Require Import Prelude.
Import ListNotations.
Open Scope Q_scope.

Module Magnetic.

Record Rect := mkRect { left : Q; top : Q; width : Q; height : Q }.

Record Button := mkButton {
  rendered_x : Q; rendered_y : Q;     (** the transform on screen *)
  target_x : Q; target_y : Q;         (** the last tween's end values *)
  tween_duration : Q; tween_ease : string
}.

(** [btn.getBoundingClientRect()]: the layout box [base] moved by the
    rendered transform. *)
Definition bounding_rect (base : Rect) (b : Button) : Rect :=
  mkRect (left base + rendered_x b) (top base + rendered_y b) (width base) (height base).

(** The [mousemove] listener, lines 257-268. *)
Definition onMouseMove (base : Rect) (clientX clientY : Q) (b : Button) : Button :=
  let rect := bounding_rect base b in
  let x := clientX - left rect - width rect / 2 in
  let y := clientY - top rect - height rect / 2 in
  mkButton (rendered_x b) (rendered_y b) (x * (1#4)) (y * (1#4)) (3#10) "power2.out".

(** The [mouseleave] listener, lines 270-277. *)
Definition onMouseLeave (b : Button) : Button :=
  mkButton (rendered_x b) (rendered_y b) 0 0 (1#2) "elastic.out(1, 0.5)".

(** The running tween reaches its end values. *)
Definition settle (b : Button) : Button :=
  mkButton (target_x b) (target_y b) (target_x b) (target_y b) (tween_duration b) (tween_ease b).

Inductive MEvent := Move (clientX clientY : Q) | Leave | Settle.

Definition magnetic_step (base : Rect) (b : Button) (e : MEvent) : Button :=
  match e with
  | Move cx cy => onMouseMove base cx cy b
  | Leave => onMouseLeave b
  | Settle => settle b
  end.

Definition at_rest : Button := mkButton 0 0 0 0 0 "".

(** The pointer inside a rectangle, edges included. *)
Definition inside (r : Rect) (cx cy : Q) : Prop :=
  left r <= cx <= left r + width r /\ top r <= cy <= top r + height r.

(** [n] times: the pointer moves at the same place and the tween
    completes. *)
Fixpoint hold (base : Rect) (cx cy : Q) (n : nat) (b : Button) : Button :=
  match n with
  | O => b
  | S n' => hold base cx cy n' (settle (onMouseMove base cx cy b))
  end.

(** ** Properties *)

(** A pointer at the centre of the box the button occupies gives
    a zero target offset, a pointer anywhere on the button gives a
    target within an eighth of its size on each axis, and leaving the
    button always targets [(0, 0)]. *)
Theorem magnetic_offsets base b cx cy :
  let r := bounding_rect base b in
  (cx == left r + width r / 2 -> cy == top r + height r / 2 ->
     target_x (onMouseMove base cx cy b) == 0 /\ target_y (onMouseMove base cx cy b) == 0) /\
  (inside r cx cy ->
     within (width r / 8) (target_x (onMouseMove base cx cy b)) /\
     within (height r / 8) (target_y (onMouseMove base cx cy b))) /\
  target_x (onMouseLeave b) == 0 /\ target_y (onMouseLeave b) == 0.
Proof.
  intros r. unfold r, bounding_rect, inside, within. simpl. unfold Qdiv.
  change (/ 2) with (1#2). change (/ 8) with (1#8).
  repeat split; intros; lra.
Qed.

(** C27: with the pointer held still at offset [dx, dy] from the
    button's resting centre, each move-and-settle maps the rendered
    offset [o] to [(d - o) / 4], so it converges to [d / 5], not to the
    [d / 4] of the handler's factor: after [n] rounds the distance to
    [d / 5] is the initial one times [(-1/4)^n]. *)
Theorem magnetic_hold_converges base cx cy n : forall b,
  let dx := cx - (left base + width base / 2) in
  let dy := cy - (top base + height base / 2) in
  rendered_x (hold base cx cy n b) - dx / 5 == qpow (-(1#4)) n * (rendered_x b - dx / 5) /\
  rendered_y (hold base cx cy n b) - dy / 5 == qpow (-(1#4)) n * (rendered_y b - dy / 5).
Proof.
  induction n as [|n IH]; intros b dx dy; simpl; [split; ring|].
  destruct (IH (settle (onMouseMove base cx cy b))) as [Hx Hy]. fold dx dy in Hx, Hy.
  simpl in Hx, Hy. rewrite Hx, Hy. unfold dx, dy. split; field.
Qed.

End Magnetic.
