(* ===== verification/MobileNav.v ===== *)
(** * The mobile navigation of [src/script.js] ([initMobileNav], lines 593-612)

    Independent of [site.js]: it needs both [.nav-toggle] and
    [.nav-mobile] (line 597).  A click on the toggle calls
    [classList.toggle('active')] on the menu and on the toggle, each on
    its own (lines 599-602); a click on a [.nav-link] of the menu
    removes [active] from both (lines 605-611).  The state is whether
    each element has the class; the markup decides where it starts. *)

From Stdlib Require Import Bool List.
From S2P Require Import Prelude Dom.
Import ListNotations.

Module MobileNav.

Record MNState := mkMN {
  nav_active : bool;       (** [mobileNav.classList.contains('active')] *)
  toggle_active : bool;    (** [toggle.classList.contains('active')] *)
  mn_listening : bool
}.

Inductive MNEvent := ToggleClick | MobileLinkClick.

(** [initMobileNav], lines 593-597: the listeners need both elements. *)
Definition initMobileNav (d : Dom) (s : MNState) : MNState :=
  mkMN (nav_active s) (toggle_active s) (has_nav_toggle d && has_nav_mobile d).

(** The two listeners, lines 599-611. *)
Definition mn_step (s : MNState) (e : MNEvent) : MNState :=
  if negb (mn_listening s) then s
  else match e with
       | ToggleClick => mkMN (negb (nav_active s)) (negb (toggle_active s)) true
       | MobileLinkClick => mkMN false false true
       end.

(** C28: on a page with both elements, the menu's and the toggle's
    [active] classes differ after a trace exactly when they differed in
    the markup and no menu link has been clicked since: toggling keeps
    any mismatch, only a link click brings them back in step.  With
    matching markup they always agree. *)
Theorem mobile_nav_classes d s0 es :
  has_nav_toggle d = true -> has_nav_mobile d = true ->
  let s := run mn_step (initMobileNav d s0) es in
  xorb (nav_active s) (toggle_active s) =
    (if existsb (fun e => match e with MobileLinkClick => true | _ => false end) es
     then false else xorb (nav_active s0) (toggle_active s0)) /\
  (nav_active s0 = toggle_active s0 -> nav_active s = toggle_active s).
Proof.
  intros Ht Hm. unfold initMobileNav. rewrite Ht, Hm. simpl.
  generalize (nav_active s0) (toggle_active s0). intros a b.
  revert a b. induction es as [|e es IH]; intros a b; [split; [reflexivity|intros H; exact H]|].
  rewrite run_cons. destruct e.
  - change (mn_step (mkMN a b true) ToggleClick) with (mkMN (negb a) (negb b) true).
    destruct (IH (negb a) (negb b)) as [H1 H2]. split.
    + rewrite H1. simpl existsb. destruct (existsb _ es); [reflexivity|].
      destruct a, b; reflexivity.
    + intros ->. apply H2. reflexivity.
  - change (mn_step (mkMN a b true) MobileLinkClick) with (mkMN false false true).
    destruct (IH false false) as [H1 H2]. split.
    + rewrite H1. simpl existsb. destruct (existsb _ es); reflexivity.
    + intros _. apply H2. reflexivity.
Qed.

Lemma mobile_nav_classes_witness :
  has_nav_toggle full_dom = true /\ has_nav_mobile full_dom = true /\
  xorb (nav_active (run mn_step (initMobileNav full_dom (mkMN true false false)) [ToggleClick]))
       (toggle_active (run mn_step (initMobileNav full_dom (mkMN true false false)) [ToggleClick]))
    = true.
Proof.
  split; [reflexivity|]. split; [reflexivity|].
  rewrite (proj1 (mobile_nav_classes full_dom (mkMN true false false) [ToggleClick] eq_refl eq_refl)).
  reflexivity.
Defined.

End MobileNav.
