(* ===== verification/Cursor.v ===== *)
(** * The custom cursor ([initCursor], [updateCursor], src/script.js lines 208-248)

    [initCursor] returns without a [.cursor] element (line 216).
    Otherwise a [mousemove] listener stores the raw pointer (lines
    218-221), [updateCursor] starts its own [requestAnimationFrame] loop
    (lines 233-248): it puts the cursor at the raw pointer and moves the
    glow 8% of the way toward it, and every link, button, card, bento
    cell and nav link adds the [hover] class on [mouseenter] and removes
    it on [mouseleave] (lines 226-230).

    The styles are the numbers before ['px']; [hover] is whether the
    class is in the cursor's class list (a set). *)

From Stdlib Require Import Bool QArith Qminmax Lqa Lia List.
From S2P Require Import Prelude Dom.
Import ListNotations.
Open Scope Q_scope.

Module Cursor.

Record CursorState := mkCursor {
  cursorX : Q; cursorY : Q;          (** lines 209, 219-220 *)
  glowX : Q; glowY : Q;              (** line 210 *)
  cursor_left : Q; cursor_top : Q;   (** [cursor.style.left/top] *)
  glow_left : Q; glow_top : Q;       (** [cursorGlow.style.left/top] *)
  hover : bool;                      (** [cursor.classList.contains('hover')] *)
  has_glow : bool;                   (** [cursorGlow] was found *)
  active : bool                      (** [cursor] was found: listeners and loop run *)
}.

(** One call of [updateCursor], lines 233-248. *)
Definition updateCursor (s : CursorState) : CursorState :=
  if negb (active s) then s
  else
    let gx := glowX s ~[2#25]~> cursorX s in
    let gy := glowY s ~[2#25]~> cursorY s in
    mkCursor (cursorX s) (cursorY s) gx gy (cursorX s) (cursorY s)
             (if has_glow s then gx else glow_left s) (if has_glow s then gy else glow_top s)
             (hover s) (has_glow s) (active s).

(** [initCursor], lines 212-231: the globals of lines 209-210 at 0, the
    early return without [.cursor] (which [updateCursor] also makes),
    then the synchronous first [updateCursor()] of line 223. *)
Definition initCursor (d : Dom) : CursorState :=
  updateCursor (mkCursor 0 0 0 0 0 0 0 0 false (has_cursor_glow d) (has_cursor d)).

Inductive CEvent :=
| CMouseMove (clientX clientY : Q)
| CFrame
| HoverEnter      (** [mouseenter] on one of the hover elements *)
| HoverLeave.     (** [mouseleave] on one of them *)

Definition cursor_step (s : CursorState) (e : CEvent) : CursorState :=
  if negb (active s) then s
  else match e with
       | CMouseMove cx cy =>
           mkCursor cx cy (glowX s) (glowY s) (cursor_left s) (cursor_top s)
                    (glow_left s) (glow_top s) (hover s) (has_glow s) (active s)
       | CFrame => updateCursor s
       | HoverEnter =>
           mkCursor (cursorX s) (cursorY s) (glowX s) (glowY s) (cursor_left s) (cursor_top s)
                    (glow_left s) (glow_top s) true (has_glow s) (active s)
       | HoverLeave =>
           mkCursor (cursorX s) (cursorY s) (glowX s) (glowY s) (cursor_left s) (cursor_top s)
                    (glow_left s) (glow_top s) false (has_glow s) (active s)
       end.

(** The last hover event of a trace, if any. *)
Fixpoint last_hover (es : list CEvent) : option bool :=
  match es with
  | [] => None
  | e :: es' =>
      match last_hover es' with
      | Some b => Some b
      | None => match e with HoverEnter => Some true | HoverLeave => Some false | _ => None end
      end
  end.

(** One frame: the cursor sits exactly at the raw pointer, the glow
    (when present, its style too) moves 8% of the way toward it, and
    the raw pointer, the glow's presence and the loop stay. *)
Lemma cursor_frame s :
  active s = true ->
  let s' := cursor_step s CFrame in
  cursor_left s' = cursorX s /\ cursor_top s' = cursorY s /\
  glowX s' - cursorX s == (23#25) * (glowX s - cursorX s) /\
  glowY s' - cursorY s == (23#25) * (glowY s - cursorY s) /\
  (has_glow s = true -> glow_left s' = glowX s' /\ glow_top s' = glowY s') /\
  cursorX s' = cursorX s /\ cursorY s' = cursorY s /\ has_glow s' = has_glow s /\ active s' = true.
Proof.
  intros Ha. unfold cursor_step, updateCursor. rewrite Ha. simpl.
  split; [reflexivity|]. split; [reflexivity|].
  split; [unfold lerp; ring|]. split; [unfold lerp; ring|].
  split; [intros ->; split; reflexivity|]. repeat split; assumption.
Qed.

(** C30: with the pointer still, after [n] frames of [updateCursor]
    the cursor's [left]/[top] are exactly the pointer's coordinates
    (from the first frame on), and the glow's distance to the pointer is
    its initial distance times [0.92 ^ n] on each axis, its style
    following it when [.cursor-glow] exists. *)
Theorem cursor_frames n : forall s,
  active s = true ->
  let s' := run cursor_step s (repeat CFrame n) in
  glowX s' - cursorX s == qpow (23#25) n * (glowX s - cursorX s) /\
  glowY s' - cursorY s == qpow (23#25) n * (glowY s - cursorY s) /\
  ((0 < n)%nat -> cursor_left s' = cursorX s /\ cursor_top s' = cursorY s /\
     (has_glow s = true -> glow_left s' = glowX s' /\ glow_top s' = glowY s')).
Proof.
  induction n as [|n IH]; intros s Ha; cbv zeta.
  - cbn. split; [ring|]. split; [ring|]. lia.
  - cbn [repeat]. rewrite run_cons.
    destruct (cursor_frame s Ha) as (Hl & Ht & Hgx & Hgy & Hg & Hx & Hy & Hh & Ha').
    set (s1 := cursor_step s CFrame) in *.
    destruct (IH s1 Ha') as (Hx' & Hy' & Hrest). cbv zeta in Hx', Hy', Hrest.
    rewrite Hx in Hx'. rewrite Hy in Hy'. cbn [qpow].
    split; [rewrite Hx', Hgx; ring|]. split; [rewrite Hy', Hgy; ring|].
    intros _. destruct n as [|n].
    + split; [exact Hl|]. split; [exact Ht|]. exact Hg.
    + rewrite <- Hx, <- Hy, <- Hh. apply Hrest. lia.
Qed.

(** C29: the [hover] class records only the last enter or leave event,
    with no count of nested hover elements: entering a card, then a
    link inside it, then leaving the link removes [hover] while the
    pointer is still over the card. *)
Theorem hover_is_last_event es : forall s,
  active s = true ->
  hover (run cursor_step s es) = match last_hover es with Some b => b | None => hover s end.
Proof.
  induction es as [|e es IH]; intros s Ha; [reflexivity|].
  rewrite run_cons. assert (Ha' : active (cursor_step s e) = true)
    by (unfold cursor_step; rewrite Ha; destruct e; simpl; [reflexivity|unfold updateCursor; rewrite Ha; reflexivity|reflexivity..]).
  rewrite (IH _ Ha'). simpl. destruct (last_hover es); [reflexivity|].
  unfold cursor_step. rewrite Ha. destruct e; simpl; try reflexivity.
  unfold updateCursor. rewrite Ha. reflexivity.
Qed.

Lemma cursor_frames_witness :
  active (initCursor full_dom) = true /\
  cursor_left (run cursor_step (initCursor full_dom) [CMouseMove 100 50; CFrame; CFrame]) = 100.
Proof.
  split; [reflexivity|].
  change (run cursor_step (initCursor full_dom) [CMouseMove 100 50; CFrame; CFrame])
    with (run cursor_step (cursor_step (initCursor full_dom) (CMouseMove 100 50)) (repeat CFrame 2)).
  apply (cursor_frames 2 (cursor_step (initCursor full_dom) (CMouseMove 100 50)) eq_refl). lia.
Defined.

Lemma hover_is_last_event_witness :
  active (initCursor full_dom) = true /\
  hover (run cursor_step (initCursor full_dom) [HoverEnter; HoverEnter; HoverLeave]) = false.
Proof.
  split; [reflexivity|].
  rewrite (hover_is_last_event [HoverEnter; HoverEnter; HoverLeave] (initCursor full_dom) eq_refl).
  reflexivity.
Defined.

End Cursor.
