(* ===== verification/Viewport.v ===== *)
(** * Viewport handlers: [initLenis], [initResizeHandler], [initVisibilityHandler]
      (src/script.js lines 9-31 and 614-644)

    [initLenis] registers on GSAP's ticker a callback that forwards the
    ticker time, in milliseconds, to [lenis.raf] (lines 26-28).  The
    [resize] listener (lines 618-630) updates the camera's aspect ratio,
    the renderer's size and pixel ratio and the particle shader's
    [uPixelRatio] when the background exists, and always asks
    ScrollTrigger to refresh.  The [visibilitychange] listener (lines
    637-643) puts the ticker to sleep while the document is hidden and
    wakes it when it is visible again; a sleeping ticker calls none of
    its callbacks.

    The background is [FrameLoop]'s state, shared with the frame loop:
    [None] when [initThreeJS] returned early and [camera]/[renderer] are
    still [undefined].  A resize rewrites its [View] and nothing else. *)

From Stdlib Require Import Bool QArith Qminmax Lqa Lia List.
From S2P Require Import Prelude Dom Particles FrameLoop.
Import ListNotations.
Open Scope Q_scope.

Module Viewport.

Record VState := mkV {
  three : option FrameLoop.Three;
  refreshes : nat;            (** calls of [ScrollTrigger.refresh()] *)
  ticker_awake : bool;
  lenis_raf : list Q          (** arguments of [lenis.raf], in order *)
}.

(** The [resize] listener, lines 618-630: the view is set only when
    [camera && renderer] (line 619); the refresh always happens. *)
Definition onResize (innerWidth innerHeight dpr : Q) (s : VState) : VState :=
  mkV (option_map (FrameLoop.set_view (FrameLoop.view_for innerWidth innerHeight dpr)) (three s))
      (S (refreshes s)) (ticker_awake s) (lenis_raf s).

(** The [visibilitychange] listener, lines 637-643. *)
Definition onVisibilityChange (hidden : bool) (s : VState) : VState :=
  mkV (three s) (refreshes s) (negb hidden) (lenis_raf s).

(** One tick of GSAP's ticker at [time] seconds: the callback of lines
    26-28 runs only when the ticker is awake. *)
Definition onTick (time : Q) (s : VState) : VState :=
  if ticker_awake s then mkV (three s) (refreshes s) (ticker_awake s) (lenis_raf s ++ [time * 1000])
  else s.

Inductive VEvent :=
| Resize (innerWidth innerHeight dpr : Q)
| Visibility (hidden : bool)
| Tick (time : Q).

Definition viewport_step (s : VState) (e : VEvent) : VState :=
  match e with
  | Resize w h dpr => onResize w h dpr s
  | Visibility hd => onVisibilityChange hd s
  | Tick t => onTick t s
  end.

(** The ticks delivered while the document was visible, as [lenis.raf]
    receives them. *)
Fixpoint visible_ticks (awake : bool) (es : list VEvent) : list Q :=
  match es with
  | [] => []
  | Resize _ _ _ :: es' => visible_ticks awake es'
  | Visibility hd :: es' => visible_ticks (negb hd) es'
  | Tick t :: es' => (if awake then [t * 1000] else []) ++ visible_ticks awake es'
  end.

(** C31: after a resize on a page with the background, the camera's
    aspect ratio is the new width over height (a rational quotient;
    [PointerJs] gives the JavaScript value for [h = 0]) and the renderer has
    exactly the new size, with a pixel ratio capped at 2 (also in the
    shader): the view a page loaded at that size would have; the clock,
    pointer, camera position, rings and particle setup are untouched.
    With or without the background, ScrollTrigger is refreshed once per
    resize. *)
Theorem resize_exact w h dpr s :
  let s' := onResize w h dpr s in
  refreshes s' = S (refreshes s) /\
  (three s = None -> three s' = None) /\
  (forall t, three s = Some t ->
     exists t', three s' = Some t' /\
       let v := FrameLoop.view t' in
       FrameLoop.camera_aspect v == w / h /\
       FrameLoop.renderer_width v = w /\ FrameLoop.renderer_height v = h /\
       FrameLoop.pixel_ratio v <= 2 /\ FrameLoop.u_pixel_ratio v = FrameLoop.pixel_ratio v /\
       (dpr <= 2 -> FrameLoop.pixel_ratio v == dpr) /\
       (forall sin cos acos PI random rgb d t0,
          FrameLoop.initThreeJS sin cos acos PI random rgb w h dpr d = Some t0 -> FrameLoop.view t0 = v) /\
       FrameLoop.setup t' = FrameLoop.setup t /\ FrameLoop.time t' = FrameLoop.time t /\
       FrameLoop.mouse t' = FrameLoop.mouse t /\ FrameLoop.cam_x t' = FrameLoop.cam_x t /\
       FrameLoop.cam_y t' = FrameLoop.cam_y t /\ FrameLoop.rings t' = FrameLoop.rings t).
Proof.
  simpl. split; [reflexivity|]. split; [intros ->; reflexivity|].
  intros t ->. eexists. split; [reflexivity|]. simpl. unfold FrameLoop.capped_ratio.
  split; [reflexivity|]. split; [reflexivity|]. split; [reflexivity|].
  split; [apply Q.le_min_r|]. split; [reflexivity|].
  split; [intros Hd; apply Q.min_l; exact Hd|].
  split; [|repeat split].
  intros sin cos acos PI random rgb d t0. unfold FrameLoop.initThreeJS.
  destruct (has_three_canvas d); intros H; inversion H; reflexivity.
Qed.

(** C32: [lenis.raf] receives the ticker time in milliseconds for
    exactly the ticks that happen while the document is visible, in
    order; hiding the document stops the calls and showing it resumes
    them. *)
Theorem lenis_only_when_visible es : forall s,
  lenis_raf (run viewport_step s es) = lenis_raf s ++ visible_ticks (ticker_awake s) es.
Proof.
  induction es as [|e es IH]; intros s; simpl; [rewrite app_nil_r; reflexivity|].
  rewrite IH. destruct e as [w h dpr|hd|t]; simpl; [reflexivity|reflexivity|].
  unfold onTick. destruct (ticker_awake s) eqn:E; simpl; rewrite ?E;
    [rewrite <- app_assoc; reflexivity|reflexivity].
Qed.

(** ** The background under frames and resizes

    The background's state is written by two sources: the frame loop
    and pointer listener of [FrameLoop] (which reads the window size,
    that is the size the last resize gave the renderer) and the resize
    listener.  [bg_step] interleaves them on one [Three]. *)
Inductive BgEvent :=
| BgFrame (e : FrameLoop.FEvent)
| BgResize (w h dpr : Q).

Definition bg_step (sin : Q -> Q) (t : FrameLoop.Three) (e : BgEvent) : FrameLoop.Three :=
  match e with
  | BgFrame fe => FrameLoop.frame_step sin (FrameLoop.renderer_width (FrameLoop.view t))
                                       (FrameLoop.renderer_height (FrameLoop.view t)) t fe
  | BgResize w h dpr => FrameLoop.set_view (FrameLoop.view_for w h dpr) t
  end.

End Viewport.

Import Viewport.

