(* ===== verification/Page.v ===== *)
(** * The scroll pipeline of a page: ticker, Lenis, ScrollTrigger
      (src/script.js lines 24-28 and 637-643)

    Scrolling reaches the reveal triggers through three components:
    GSAP's ticker calls [lenis.raf(time * 1000)] on every tick (lines
    26-28) unless the [visibilitychange] listener has put it to sleep
    (lines 637-643, [Viewport]); [lenis.raf] advances Lenis's running
    animation by the time since its previous call and sets the scroll
    position; every position Lenis sets is emitted to
    [ScrollTrigger.update] (line 24), which updates the triggers of
    [Scene].  A wheel or touch gesture asks Lenis for a new target
    ([scrollTo]), which restarts the animation from the current
    position.

    [raf] and [scrollTo] are Lenis's (version 1.0, duration mode), a
    library model: [raf] measures the time since its previous call as
    [time - (this.time || time)], so the first call, and a call after
    one at time 0, advance nothing.  With [gsap.ticker.lagSmoothing(0)]
    (line 30) the ticker's time is wall-clock time, hidden periods
    included: the [Tick] events carry it as it is.  The scrubs' catch-up
    frames are left to [Scene]; here the triggers are followed. *)

From Stdlib Require Import QArith Qminmax Lqa Lia List Bool.
From S2P Require Import Prelude ScrollTrigger Lenis Scene Viewport.
Import ListNotations.
Open Scope Q_scope.

Module Page.

Section WithExp2.
Variable exp2 : Q -> Q.

(** What the pipeline reads of Lenis: [this.time] (ms of the last
    [raf]), the running animation ([from], [to], [currentTime] in s)
    and [animatedScroll]. *)
Record LenisState := mkLenis {
  l_time : option Q;
  l_anim : option (Q * Q * Q);
  l_scroll : Q
}.

(** [lenis.scrollTo(target)]: [animate.fromTo(animatedScroll, target)]
    restarts the animation at 0 s. *)
Definition scrollTo (target : Q) (l : LenisState) : LenisState :=
  mkLenis (l_time l) (Some (l_scroll l, target, 0)) (l_scroll l).

(** [this.time || time]: [undefined] and [0] are falsy. *)
Definition last_time (l : LenisState) (time : Q) : Q :=
  match l_time l with Some t0 => if Qeq_bool t0 0 then time else t0 | None => time end.

(** [lenis.raf(time)]: [animate.advance((time - (this.time || time)) * 0.001)];
    a running animation sets [animatedScroll] and emits it, and stops
    once complete. *)
Definition raf (time : Q) (l : LenisState) : LenisState * option Q :=
  let delta := time - last_time l time in
  match l_anim l with
  | None => (mkLenis (Some time) None (l_scroll l), None)
  | Some (from, to, cur) =>
      let cur' := cur + delta * (1#1000) in
      let y := Lenis.animate_value exp2 from to cur' in
      (mkLenis (Some time) (if Lenis.completed cur' then None else Some (from, to, cur')) y, Some y)
  end.

Record PageState := mkPage {
  vp : Viewport.VState;
  lenis : LenisState;
  scene : Scene.Scene
}.

Inductive PageEvent :=
| PVisibility (hidden : bool)
| PTick (time : Q)                 (** GSAP's ticker, [time] in seconds *)
| PScrollTo (target : Q).          (** a gesture asking Lenis for [target] *)

(** Line 24: a scroll position Lenis emits is one [ScrollTrigger.update]. *)
Definition forward (e : option Q) (sc : Scene.Scene) : Scene.Scene :=
  match e with Some y => Scene.scene_step sc (Scene.LenisScroll y) | None => sc end.

(** One tick: the callback of lines 26-28 runs only while the ticker is
    awake, as in [Viewport.onTick]. *)
Definition onTick (time : Q) (s : PageState) : PageState :=
  let vp' := Viewport.onTick time (vp s) in
  if Viewport.ticker_awake (vp s) then
    let '(l', e) := raf (time * 1000) (lenis s) in mkPage vp' l' (forward e (scene s))
  else mkPage vp' (lenis s) (scene s).

Definition page_step (s : PageState) (e : PageEvent) : PageState :=
  match e with
  | PVisibility hd => mkPage (Viewport.onVisibilityChange hd (vp s)) (lenis s) (scene s)
  | PTick t => onTick t s
  | PScrollTo y => mkPage (vp s) (scrollTo y (lenis s)) (scene s)
  end.

(** ** Lemmas *)

Lemma run_alone_snoc ys y t :
  Scene.run_alone (ys ++ [y]) t = Scene.update_trigger y (Scene.run_alone ys t).
Proof. unfold Scene.run_alone, Scene.update_trigger. cbn. rewrite run_app. reflexivity. Qed.

(** The triggers have seen the scroll positions [ys], from those of [s0]. *)
Definition seen (s0 : Scene.Scene) (ys : list Q) (sc : Scene.Scene) : Prop :=
  Scene.sc_triggers sc = map (Scene.run_alone ys) (Scene.sc_triggers s0).

Lemma seen_forward s0 ys y sc : seen s0 ys sc -> seen s0 (ys ++ [y]) (forward (Some y) sc).
Proof.
  unfold seen. intros H. cbn [forward Scene.scene_step Scene.sc_triggers]. rewrite H, map_map.
  apply map_ext. intros t. symmetry. apply run_alone_snoc.
Qed.

(** Events that do not ask for a new target, with positive tick times. *)
Definition quiet (e : PageEvent) : Prop :=
  match e with PTick t => 0 < t | PVisibility _ => True | PScrollTo _ => False end.

Section Landing.
Variables (s0 : Scene.Scene) (from to start : Q).

(** While the animation towards [to] runs, its [currentTime] is the raf
    clock since [start] (ms); once it has stopped, the scroll is [to] and
    the triggers' last position is [to]. *)
Definition landing (s : PageState) : Prop :=
  exists ys, seen s0 ys (scene s) /\
  ((exists cur t0, l_anim (lenis s) = Some (from, to, cur) /\ l_time (lenis s) = Some t0 /\
      0 < t0 /\ t0 - cur * 1000 == start) \/
   (l_anim (lenis s) = None /\ l_scroll (lenis s) = to /\ exists ys', ys = ys' ++ [to])).

Lemma raf_running_step (cur t0 time : Q) l :
  l_anim l = Some (from, to, cur) -> l_time l = Some t0 -> 0 < t0 ->
  let cur' := cur + (time - t0) * (1#1000) in
  raf time l = (mkLenis (Some time) (if Lenis.completed cur' then None else Some (from, to, cur'))
                  (Lenis.animate_value exp2 from to cur'),
                Some (Lenis.animate_value exp2 from to cur')).
Proof.
  intros Ha Ht Hp. unfold raf, last_time. rewrite Ha, Ht.
  replace (Qeq_bool t0 0) with false; [reflexivity|].
  symmetry. apply not_true_iff_false. rewrite Qeq_bool_iff. intros E. rewrite E in Hp. discriminate.
Qed.

Lemma landing_tick t s : 0 < t -> landing s -> landing (onTick t s).
Proof.
  intros Ht (ys & Hseen & Hrun). unfold onTick.
  destruct (Viewport.ticker_awake (vp s)); [|exists ys; exact (conj Hseen Hrun)].
  destruct Hrun as [(cur & t0 & Ha & Hl & Hp & Hs) | (Ha & Hy & ys' & ->)].
  - rewrite (raf_running_step cur t0 (t * 1000) _ Ha Hl Hp). cbn [l_anim l_time l_scroll lenis scene].
    exists (ys ++ [Lenis.animate_value exp2 from to (cur + (t * 1000 - t0) * (1#1000))]).
    split; [apply seen_forward, Hseen|].
    destruct (Lenis.completed (cur + (t * 1000 - t0) * (1#1000))) eqn:Hc.
    + right. split; [reflexivity|]. rewrite (Lenis.animate_value_done exp2) by (apply Lenis.completed_iff, Hc).
      split; [reflexivity|]. eexists; reflexivity.
    + left. do 2 eexists. split; [reflexivity|]. split; [reflexivity|]. split; [nra|]. lra.
  - unfold raf. rewrite Ha. cbn [lenis scene l_anim l_scroll forward].
    exists (ys' ++ [to]). split; [exact Hseen|]. right. split; [reflexivity|]. split; [exact Hy|].
    eexists; reflexivity.
Qed.

Lemma landing_step s e : quiet e -> landing s -> landing (page_step s e).
Proof.
  destruct e as [hd|t|y]; cbn [quiet page_step]; [|apply landing_tick|contradiction].
  intros _ H. exact H.
Qed.

(** A tick of an awake ticker 1.2 s (raf clock) after [start] finds
    the animation stopped on [to]. *)
Lemma landing_final t s :
  landing s -> Viewport.ticker_awake (vp s) = true -> 0 < t -> start + 1200 <= t * 1000 ->
  let s' := onTick t s in
  l_anim (lenis s') = None /\ l_scroll (lenis s') = to /\ exists ys, seen s0 (ys ++ [to]) (scene s').
Proof.
  intros (ys & Hseen & Hrun) Haw Ht Hlate. cbv zeta. unfold onTick. rewrite Haw.
  destruct Hrun as [(cur & t0 & Ha & Hl & Hp & Hs) | (Ha & Hy & ys' & ->)].
  - rewrite (raf_running_step cur t0 (t * 1000) _ Ha Hl Hp). cbn [l_anim l_scroll lenis scene].
    assert (Hc : 6#5 <= cur + (t * 1000 - t0) * (1#1000)) by lra.
    rewrite (proj2 (Lenis.completed_iff _) Hc), (Lenis.animate_value_done exp2 _ _ _ Hc).
    split; [reflexivity|]. split; [reflexivity|]. exists ys. apply seen_forward, Hseen.
  - unfold raf. rewrite Ha. cbn [lenis scene l_anim l_scroll forward].
    split; [reflexivity|]. split; [exact Hy|]. exists ys'. exact Hseen.
Qed.

End Landing.

Lemma seen_nil sc : seen sc [] sc.
Proof. unfold seen. rewrite <- map_id at 1. apply map_ext. intros t. symmetry. apply Scene.run_alone_nil. Qed.

(** C20: a smooth scroll lands.  While Lenis animates towards [to],
    whatever visibility changes and ticks follow (no new gesture), the
    first tick of a visible document at least 1.2 s of ticker time after
    the animation's start finds the scroll exactly on [to], the animation
    stopped, and every reveal and card-group trigger having last seen
    [to].  Ticker time counts hidden periods ([lagSmoothing(0)]), so a
    scroll interrupted by hiding the tab for 1.2 s lands on the first
    tick after the tab is shown again. *)
Theorem smooth_scroll_lands s from to cur t0 es t :
  l_anim (lenis s) = Some (from, to, cur) -> l_time (lenis s) = Some t0 -> 0 < t0 ->
  Forall quiet es -> 0 < t -> t0 - cur * 1000 + 1200 <= t * 1000 ->
  let s' := run page_step s (es ++ [PVisibility false; PTick t]) in
  l_anim (lenis s') = None /\ l_scroll (lenis s') = to /\
  exists ys, seen (scene s) (ys ++ [to]) (scene s').
Proof.
  intros Ha Hl Hp Hes Ht Hlate. cbv zeta. rewrite run_app.
  assert (H1 : landing (scene s) from to (t0 - cur * 1000) (run page_step s es)).
  { apply (run_preserves_on page_step quiet (landing (scene s) from to (t0 - cur * 1000))); [intros; apply landing_step; assumption|exact Hes|].
    exists []. split; [apply seen_nil|]. left. exists cur, t0. repeat split; try assumption; reflexivity. }
  cbn [run fold_left]. apply (landing_final (scene s) from to (t0 - cur * 1000)); [apply (landing_step _ _ _ _ _ (PVisibility false) I H1)|reflexivity|exact Ht|lra].
Qed.

End WithExp2.
End Page.

Import Page.

(** A page whose smooth scroll from 0 to 1200 starts at ticker time 1 s;
    the tab is hidden at 1.1 s and shown again at 2.3 s. *)
Definition hidden_tab_state : PageState :=
  mkPage (Viewport.mkV None 0 true []) (mkLenis (Some 1000) (Some (0, 1200, 0)) 0)
         (Scene.initScrollAnimations sample_page).

Definition hidden_tab_events : list PageEvent :=
  [PTick (11#10); PVisibility true; PTick 2; PTick (22#10)].

Lemma smooth_scroll_lands_witness :
  Forall quiet hidden_tab_events /\
  l_scroll (lenis (run (page_step exp2_pl) hidden_tab_state
                      (hidden_tab_events ++ [PVisibility false; PTick (23#10)]))) = 1200.
Proof.
  assert (Hq : Forall quiet hidden_tab_events) by (repeat constructor; reflexivity).
  split; [exact Hq|].
  apply (smooth_scroll_lands exp2_pl hidden_tab_state 0 1200 0 1000 hidden_tab_events (23#10)
           eq_refl eq_refl ltac:(reflexivity) Hq ltac:(reflexivity) ltac:(discriminate)).
Defined.
