(* ===== verification/PointerJs.v ===== *)
(** * The pointer and the camera in JavaScript numbers
      (src/script.js lines 38, 47, 162-164, 176-177, 193-194, 620)

    [FrameLoop] and [Viewport] model the background's numbers as
    rationals.  This file runs the numeric statements that divide by the
    window size, and those that smooth their results, in the numbers of
    [JsNum]: the [mousemove] listener (lines 162-164), the pointer and
    camera smoothing of [animateThreeJS] (lines 176-177, 193-194) and the
    camera aspect of [initThreeJS] and of the [resize] listener (lines
    47, 620).  The window size the listener reads is the one of the last
    resize, as in [Viewport.bg_step].

    Two theorems: while the window has a positive size the rational
    model is exact, step for step, under any interleaving of frames,
    pointer moves and resizes (a refinement of [JsPtr] by
    [Viewport.bg_step]); and a pointer move in a window of zero width
    (height) followed by a frame makes the pointer and the camera
    [Infinity] or [NaN] on that axis for good, whatever follows. *)

From Stdlib Require Import QArith Qminmax Lqa List.
From S2P Require Import Prelude JsNum Particles FrameLoop Viewport.
Import ListNotations JsNum.
Open Scope Q_scope.

Module PointerJs.

(** [mouse] (line 38), [camera.position.x/y] and [camera.aspect], as
    JavaScript numbers, with the window size the handlers read. *)
Record JsPtr := mkJsPtr {
  jx : num; jy : num; jtx : num; jty : num;
  jcam_x : num; jcam_y : num;
  jaspect : num;
  jwidth : Q; jheight : Q        (** [window.innerWidth], [window.innerHeight] *)
}.

(** The [mousemove] listener, lines 162-164:
    [targetX = (clientX / innerWidth) * 2 - 1],
    [targetY = -(clientY / innerHeight) * 2 + 1]. *)
Definition onMouseMove (clientX clientY : Q) (p : JsPtr) : JsPtr :=
  {| jx := jx p; jy := jy p;
     jtx := sub (mul (div (Fin clientX) (Fin (jwidth p))) (Fin 2)) (Fin 1);
     jty := add (mul (neg (div (Fin clientY) (Fin (jheight p)))) (Fin 2)) (Fin 1);
     jcam_x := jcam_x p; jcam_y := jcam_y p; jaspect := jaspect p;
     jwidth := jwidth p; jheight := jheight p |}.

(** The numeric statements of [animateThreeJS] on the pointer and the
    camera: lines 176-177 ([0.04]) and 193-194 ([0.4], [0.25], [0.015]). *)
Definition animate (p : JsPtr) : JsPtr :=
  let x := js_lerp (jx p) (jtx p) (1#25) in
  let y := js_lerp (jy p) (jty p) (1#25) in
  {| jx := x; jy := y; jtx := jtx p; jty := jty p;
     jcam_x := js_lerp (jcam_x p) (mul x (Fin (2#5))) (3#200);
     jcam_y := js_lerp (jcam_y p) (mul y (Fin (1#4))) (3#200);
     jaspect := jaspect p; jwidth := jwidth p; jheight := jheight p |}.

(** The [resize] listener, line 620: [camera.aspect = innerWidth / innerHeight]. *)
Definition onResize (w h : Q) (p : JsPtr) : JsPtr :=
  {| jx := jx p; jy := jy p; jtx := jtx p; jty := jty p;
     jcam_x := jcam_x p; jcam_y := jcam_y p;
     jaspect := div (Fin w) (Fin h); jwidth := w; jheight := h |}.

Definition js_step (p : JsPtr) (e : Viewport.BgEvent) : JsPtr :=
  match e with
  | Viewport.BgFrame (FrameLoop.MouseMove cx cy) => onMouseMove cx cy p
  | Viewport.BgFrame FrameLoop.AnimationFrame => animate p
  | Viewport.BgResize w h _ => onResize w h p
  end.

(** The rational state read as JavaScript numbers. *)
Definition ptr_of (t : FrameLoop.Three) : JsPtr :=
  let m := FrameLoop.mouse t in
  let v := FrameLoop.view t in
  {| jx := Fin (FrameLoop.mx m); jy := Fin (FrameLoop.my m);
     jtx := Fin (FrameLoop.targetX m); jty := Fin (FrameLoop.targetY m);
     jcam_x := Fin (FrameLoop.cam_x t); jcam_y := Fin (FrameLoop.cam_y t);
     jaspect := Fin (FrameLoop.camera_aspect v);
     jwidth := FrameLoop.renderer_width v; jheight := FrameLoop.renderer_height v |}.

(** A window of positive size, and resizes that keep it so. *)
Definition size_ok (t : FrameLoop.Three) : Prop :=
  0 < FrameLoop.renderer_width (FrameLoop.view t) /\ 0 < FrameLoop.renderer_height (FrameLoop.view t).

Definition resize_ok (e : Viewport.BgEvent) : Prop :=
  match e with Viewport.BgResize w h _ => 0 < w /\ 0 < h | _ => True end.

Lemma pos_nonzero q : 0 < q -> ~ q == 0.
Proof. intros H E. rewrite E in H. discriminate. Qed.

Lemma js_step_refines sin t e :
  size_ok t -> resize_ok e ->
  js_step (ptr_of t) e = ptr_of (Viewport.bg_step sin t e) /\ size_ok (Viewport.bg_step sin t e).
Proof.
  intros [Hw Hh] He. destruct e as [[cx cy|]|w h dpr]; cbn [js_step Viewport.bg_step].
  - unfold onMouseMove, ptr_of. cbn -[div]. rewrite !div_fin by (apply pos_nonzero; assumption).
    split; [reflexivity|split; assumption].
  - split; [reflexivity|split; assumption].
  - destruct He as [Hw' Hh']. unfold onResize, ptr_of. cbn -[div].
    rewrite div_fin by (apply pos_nonzero; assumption). split; [reflexivity|split; assumption].
Qed.

(** [-x] is finite exactly when [x] is. *)
Lemma neg_nonfinite x : is_finite x = false -> is_finite (neg x) = false.
Proof. destruct x; try discriminate; reflexivity. Qed.

(** One axis of the pointer and of the camera is [Infinity] or [NaN]. *)
Definition x_lost (p : JsPtr) : Prop := is_finite (jx p) = false /\ is_finite (jcam_x p) = false.
Definition y_lost (p : JsPtr) : Prop := is_finite (jy p) = false /\ is_finite (jcam_y p) = false.

Lemma x_lost_step p e : x_lost p -> x_lost (js_step p e).
Proof.
  intros [Hx Hc]. unfold x_lost. destruct e as [[cx cy|]|w h dpr]; cbn [js_step onMouseMove onResize animate jx jcam_x];
    try (split; assumption).
  rewrite js_lerp_nonfinite by (reflexivity || assumption). cbn [mul].
  rewrite js_lerp_nan_r. split; reflexivity.
Qed.

Lemma y_lost_step p e : y_lost p -> y_lost (js_step p e).
Proof.
  intros [Hy Hc]. unfold y_lost. destruct e as [[cx cy|]|w h dpr]; cbn [js_step onMouseMove onResize animate jy jcam_y];
    try (split; assumption).
  rewrite js_lerp_nonfinite by (reflexivity || assumption). cbn [mul].
  rewrite js_lerp_nan_r. split; reflexivity.
Qed.

(** A frame after a target that is not finite loses the axis. *)
Lemma animate_x_lost p : is_finite (jtx p) = false -> x_lost (animate p).
Proof.
  intros Ht. unfold x_lost, animate. cbn [jx jcam_x].
  assert (Hx : is_finite (js_lerp (jx p) (jtx p) (1#25)) = false)
    by (apply js_lerp_to_nonfinite; [reflexivity|assumption]).
  split; [exact Hx|]. apply js_lerp_to_nonfinite; [reflexivity|].
  apply mul_nonfinite_pos; [reflexivity|exact Hx].
Qed.

Lemma animate_y_lost p : is_finite (jty p) = false -> y_lost (animate p).
Proof.
  intros Ht. unfold y_lost, animate. cbn [jy jcam_y].
  assert (Hy : is_finite (js_lerp (jy p) (jty p) (1#25)) = false)
    by (apply js_lerp_to_nonfinite; [reflexivity|assumption]).
  split; [exact Hy|]. apply js_lerp_to_nonfinite; [reflexivity|].
  apply mul_nonfinite_pos; [reflexivity|exact Hy].
Qed.

(** A pointer move in a window of zero width gives a target that is not finite. *)
Lemma move_zero_width cx cy p : jwidth p == 0 -> is_finite (jtx (onMouseMove cx cy p)) = false.
Proof.
  intros Hw. cbn [onMouseMove jtx]. unfold sub. cbn [neg]. apply add_nonfinite_fin.
  apply mul_nonfinite_pos; [reflexivity|]. apply div_zero_nonfinite, Hw.
Qed.

Lemma move_zero_height cx cy p : jheight p == 0 -> is_finite (jty (onMouseMove cx cy p)) = false.
Proof.
  intros Hh. cbn [onMouseMove jty]. apply add_nonfinite_fin.
  apply mul_nonfinite_pos; [reflexivity|]. apply neg_nonfinite, div_zero_nonfinite, Hh.
Qed.

(** C9: while the window keeps a positive size, the pointer, the
    camera position and the camera aspect that the handlers compute in
    JavaScript numbers are exactly the rational ones of [Viewport.bg_step],
    after any interleaving of frames, pointer moves and resizes: the
    rational model of the background loses nothing to infinities. *)
Theorem rational_model_exact sin t es :
  size_ok t -> Forall resize_ok es ->
  run js_step (ptr_of t) es = ptr_of (run (Viewport.bg_step sin) t es).
Proof.
  intros Ht Hes. revert t Ht. induction Hes as [|e es He Hes IH]; intros t Ht; [reflexivity|].
  rewrite !run_cons. destruct (js_step_refines sin t e Ht He) as [-> Ht'].
  apply IH, Ht'.
Qed.

(** C10: after a resize to zero width, a pointer move and a frame, the
    pointer's [x] (the [uMouse] uniform's too) and the camera's [x] are
    [Infinity] or [NaN] and stay so whatever events follow, pointer
    moves in a restored window included; likewise the [y] axis after a
    resize to zero height. *)
Theorem zero_size_loses_axis p w h dpr cx cy es :
  let q := run js_step p (Viewport.BgResize w h dpr :: Viewport.BgFrame (FrameLoop.MouseMove cx cy)
                          :: Viewport.BgFrame FrameLoop.AnimationFrame :: es) in
  (w == 0 -> x_lost q) /\ (h == 0 -> y_lost q).
Proof.
  cbv zeta. rewrite !run_cons. cbn [js_step]. split; intros H0.
  - apply run_preserves; [exact x_lost_step|]. apply animate_x_lost, move_zero_width, H0.
  - apply run_preserves; [exact y_lost_step|]. apply animate_y_lost, move_zero_height, H0.
Qed.

End PointerJs.

Import PointerJs.

Lemma rational_model_exact_witness :
  size_ok FrameLoop.initial_three /\
  run js_step (ptr_of FrameLoop.initial_three)
      [Viewport.BgFrame (FrameLoop.MouseMove 640 100); Viewport.BgResize 800 600 1;
       Viewport.BgFrame FrameLoop.AnimationFrame] =
  ptr_of (run (Viewport.bg_step Particles.sin35) FrameLoop.initial_three
      [Viewport.BgFrame (FrameLoop.MouseMove 640 100); Viewport.BgResize 800 600 1;
       Viewport.BgFrame FrameLoop.AnimationFrame]).
Proof.
  assert (Hs : size_ok FrameLoop.initial_three) by (split; reflexivity).
  split; [exact Hs|]. apply (rational_model_exact Particles.sin35 _ _ Hs).
  repeat constructor; reflexivity.
Defined.

Lemma zero_size_loses_axis_witness :
  0 == 0 /\
  x_lost (run js_step (ptr_of FrameLoop.initial_three)
            [Viewport.BgResize 0 720 1; Viewport.BgFrame (FrameLoop.MouseMove 5 100);
             Viewport.BgFrame FrameLoop.AnimationFrame;
             Viewport.BgResize 1280 720 1; Viewport.BgFrame (FrameLoop.MouseMove 640 100);
             Viewport.BgFrame FrameLoop.AnimationFrame]).
Proof.
  split; [reflexivity|].
  apply (proj1 (zero_size_loses_axis (ptr_of FrameLoop.initial_three) 0 720 1 5 100
                  [Viewport.BgResize 1280 720 1; Viewport.BgFrame (FrameLoop.MouseMove 640 100);
                   Viewport.BgFrame FrameLoop.AnimationFrame])).
  reflexivity.
Defined.
